(** * ByteBite food ordering: the menu / cart / order domain of [app.py]

    A shallow embedding of the session state of [app.py] and of the functions
    that read and write it: the cart buttons of [display_menu_item], the
    totals of [display_cart_summary], [place_order], the dish and order
    management of the admin panel, the metrics of [show_admin_panel],
    [RecommendationEngine.get_popular_items] and [export_csv]; then the two
    other functions of [RecommendationEngine], the accounts of
    [show_login_page] under the routing of [main], the category filter and the
    pages of [show_user_panel], the order list of [show_order_management],
    the counts of [show_analytics] and the calls that [export_pdf] makes on
    its canvas.

    Python values are modelled as follows.
    - [int] is [Z]; [float] is the kernel's binary64 [float], so every sum and
      product rounds exactly as CPython's does.  The [int] literal [0] that
      starts an accumulation ([total = 0], [sum(...)], [else 0]) is written as
      the float [+0.0]: [0 + x] and [0.0 + x] are the same float for every
      float [x], and both print as [0.00] under the format [.2f].
    - [str] is [string], holding the UTF-8 encoding of the text.
    - A [dict] is an association list in insertion order, as iteration over a
      Python dict yields it.
    - [MenuItem] objects live in an object store (the [heap]); lists and
      orders hold references to them, so that two places holding the same
      object are seen to hold the same reference.
    - A call that may raise gives an [outcome]; an exception that nothing
      catches ends the run of the script and is the event [EvException]. *)

From Stdlib Require Import ZArith QArith Qround Qpower List String Ascii Bool.
From Stdlib Require Import Lia Lqa.
From Stdlib Require Import Permutation Sorted.
From Stdlib Require Import DecimalString DecimalPos DecimalZ.
From Stdlib Require Import Floats.
Import ListNotations.

Set Warnings "-inexact-float".

Local Open Scope Z_scope.

(** ** Python built-ins used by the program *)

Module Py.

(** [dict] with [int] keys, in insertion order. *)
Definition dict (V : Type) : Type := list (Z * V).

(** [d.get(k, default)] *)
Fixpoint dict_get {V} (d : dict V) (k : Z) (default : V) : V :=
  match d with
  | [] => default
  | (k', v) :: d' => if k' =? k then v else dict_get d' k default
  end.

(** [k in d] *)
Definition dict_mem {V} (d : dict V) (k : Z) : bool :=
  existsb (fun kv => fst kv =? k) d.

(** [d[k] = v]: an existing key keeps its place, a new key goes last. *)
Fixpoint dict_set {V} (d : dict V) (k : Z) (v : V) : dict V :=
  match d with
  | [] => [(k, v)]
  | (k', v') :: d' =>
      if k' =? k then (k, v) :: d' else (k', v') :: dict_set d' k v
  end.

(** [d.pop(k, None)], for its effect on [d]. *)
Definition dict_pop {V} (d : dict V) (k : Z) : dict V :=
  filter (fun kv => negb (fst kv =? k)) d.

(** [l[:n]]: the first [n] elements, or all but the last [-n] when [n] is
    negative. *)
Definition slice_to {A} (l : list A) (n : Z) : list A :=
  if 0 <=? n then firstn (Z.to_nat n) l
  else firstn (List.length l - Z.to_nat (- n))%nat l.

(** [l.remove(x)] on a list that holds [x]: the first occurrence goes. *)
Fixpoint list_remove (l : list nat) (x : nat) : list nat :=
  match l with
  | [] => []
  | y :: l' => if Nat.eqb y x then l' else y :: list_remove l' x
  end.

(** [del l[i]]: what [l.remove(l[i])] does when no earlier element is the
    same object. *)
Fixpoint list_remove_at {A} (l : list A) (i : nat) : list A :=
  match l, i with
  | [], _ => []
  | _ :: l', O => l'
  | y :: l', S i' => y :: list_remove_at l' i'
  end.

(** Sorting by decreasing key, as [sorted(..., reverse=True)] does: the
    sort is stable, elements with equal keys keep the order they had.  [x]
    goes before the first element whose key is not larger. *)
Fixpoint insert_desc {A} (key : A -> Z) (x : A) (l : list A) : list A :=
  match l with
  | [] => [x]
  | y :: l' =>
      if key x <? key y then y :: insert_desc key x l' else x :: y :: l'
  end.

(** [sorted(l, key=key, reverse=True)] *)
Definition sorted_desc {A} (key : A -> Z) (l : list A) : list A :=
  fold_right (insert_desc key) [] l.

(** [max(l, default=d)] *)
Definition max_default (l : list Z) (d : Z) : Z :=
  match l with
  | [] => d
  | x :: l' => fold_left Z.max l' x
  end.

(** [float(n)] for an [int] [n], rounded to nearest even.  (CPython raises
    [OverflowError] from [2^1024] on; quantities are click counts.) *)
Definition float_of_int (n : Z) : float :=
  SF2Prim (binary_normalize prec emax n 0 false).

(** [sum(l)] over floats: the additions from left to right, from [0].
    (CPython 3.12 and later carry a compensation term besides; one or two
    terms sum to the same float either way.) *)
Definition sum (l : list float) : float :=
  fold_left PrimFloat.add l 0%float.

(** [x / n] for a float [x] and an [int] [n]; [None] stands for
    [ZeroDivisionError]. *)
Definition truediv (x : float) (n : Z) : option float :=
  if n =? 0 then None else Some (PrimFloat.div x (float_of_int n)).

End Py.

(** ** How CPython prints and reads numbers

    [repr(x)] of a float is the shortest decimal numeral that reads back as
    [x], and [float(s)] rounds the numeral [s] to the nearest float, ties to
    even.  Both are defined here on the exact rational value of the float. *)

Module PyFloat.

(** [x < y] on rationals. *)
Definition Qlt_bool (x y : Q) : bool := negb (Qle_bool y x).

(** [10^k] and [2^e], for exponents of either sign. *)
Definition pow10 (k : Z) : Q := Qpower (10 # 1) k.
Definition pow2 (e : Z) : Q := Qpower (2 # 1) e.

(** The rational [m * 2^e] that the finite float [S754_finite s m e] stands
    for, sign apart. *)
Definition exact (m : positive) (e : Z) : Q := (inject_Z (Zpos m) * pow2 e)%Q.

(** The numbers that round to [m * 2^e] lie between the midpoints to its
    two neighbours.  The lower neighbour is half as far when [m] is the
    least mantissa of a binade. *)
Definition lower_mid (m : positive) (e : Z) : Q :=
  if Pos.eqb m (2 ^ 52) && (-1074 <? e)
  then (inject_Z (4 * Zpos m - 1) * pow2 (e - 2))%Q
  else (inject_Z (2 * Zpos m - 1) * pow2 (e - 1))%Q.

Definition upper_mid (m : positive) (e : Z) : Q :=
  (inject_Z (2 * Zpos m + 1) * pow2 (e - 1))%Q.

(** A midpoint itself rounds to the neighbour whose mantissa is even. *)
Definition rounds_to (m : positive) (e : Z) (x : Q) : bool :=
  if Z.even (Zpos m)
  then Qle_bool (lower_mid m e) x && Qle_bool x (upper_mid m e)
  else Qlt_bool (lower_mid m e) x && Qlt_bool x (upper_mid m e).

(** The [k] with [10^(k-1) <= m * 2^e < 10^k], looked for around the
    estimate that [log10 2 = 0.30103] gives. *)
Definition decimal_exponent (m : positive) (e : Z) : Z :=
  let k0 := ((Z.log2 (Zpos m) + e) * 30103) / 100000 in
  match find (fun k => Qlt_bool (exact m e) (pow10 k))
          (map (fun i => k0 - 1 + Z.of_nat i) (seq 0 6)) with
  | Some k => k
  | None => k0 + 5
  end.

(** The numeral of [n] digits, [d * 10^q], nearest to [m * 2^e], when it
    rounds to [m * 2^e]. *)
Definition candidate (m : positive) (e : Z) (k : Z) (n : Z) : option (Z * Z) :=
  let v := exact m e in
  let q := k - n in
  let lo := Qfloor (v / pow10 q) in
  let hi := lo + 1 in
  let val d := (inject_Z d * pow10 q)%Q in
  match rounds_to m e (val lo), rounds_to m e (val hi) with
  | true, true =>
      match Qcompare (v - val lo) (val hi - v) with
      | Lt => Some (lo, q)
      | Gt => Some (hi, q)
      | Eq => Some (if Z.even lo then lo else hi, q)
      end
  | true, false => Some (lo, q)
  | false, true => Some (hi, q)
  | false, false => None
  end.

(** The first result that [f] gives along [l]. *)
Fixpoint first_some {A B} (f : A -> option B) (l : list A) : option B :=
  match l with
  | [] => None
  | x :: l' => match f x with Some y => Some y | None => first_some f l' end
  end.

(** The shortest numeral that rounds to [m * 2^e].  Seventeen digits always
    suffice for a binary64 float; the exact expansion stands behind them. *)
Definition shortest (m : positive) (e : Z) : Z * Z :=
  let k := decimal_exponent m e in
  match first_some (candidate m e k) (map Z.of_nat (seq 1 17)) with
  | Some dq => dq
  | None => if 0 <=? e then (Zpos m * 2 ^ e, 0) else (Zpos m * 5 ^ (- e), e)
  end.

(** [str(n)] for an [int]. *)
Definition str_int (z : Z) : string := NilZero.string_of_int (Z.to_int z).

(** [int(s)] on a decimal numeral. *)
Definition int_of_str (s : string) : option Z :=
  option_map Z.of_int (NilZero.int_of_string s).

(** The decimal digits of an [int], as characters. *)
Definition digit_chars (z : Z) : list ascii := list_ascii_of_string (str_int z).

(** A list of digits without its leading zeros. *)
Fixpoint strip_zeros (r : list ascii) : list ascii :=
  match r with
  | "0"%char :: r' => strip_zeros r'
  | _ => r
  end.

(** The layout [repr] gives the digits of [d * 10^q]: exponent notation
    when the decimal point would stand more than four places before the
    digits or more than sixteen after their start, else fixed notation with
    at least one digit after the point. *)
Definition format_short (d q : Z) : list ascii :=
  let all := digit_chars d in
  let ds := rev (strip_zeros (rev all)) in
  let nd := Z.of_nat (List.length ds) in
  let decpt := Z.of_nat (List.length all) + q in
  if (decpt <=? -4) || (16 <? decpt) then
    let x := decpt - 1 in
    let frac := match skipn 1 ds with [] => [] | t => "."%char :: t end in
    let sg := if x <? 0 then "-"%char else "+"%char in
    let pad := if Z.abs x <? 10 then ["0"%char] else [] in
    firstn 1 ds ++ frac ++ "e"%char :: sg :: pad ++ digit_chars (Z.abs x)
  else if decpt <=? 0 then
    "0"%char :: "."%char :: repeat "0"%char (Z.to_nat (- decpt)) ++ ds
  else if nd <=? decpt then
    ds ++ repeat "0"%char (Z.to_nat (decpt - nd)) ++ ["."%char; "0"%char]
  else
    firstn (Z.to_nat decpt) ds ++ "."%char :: skipn (Z.to_nat decpt) ds.

(** The sign of a negative number. *)
Definition sign (s : bool) : list ascii := if s then ["-"%char] else [].

(** [repr(x)], which is also [str(x)]. *)
Definition repr (f : float) : string :=
  string_of_list_ascii
    match Prim2SF f with
    | S754_zero s => sign s ++ ["0"; "."; "0"]%char
    | S754_infinity s => sign s ++ ["i"; "n"; "f"]%char
    | S754_nan => ["n"; "a"; "n"]%char
    | S754_finite s m e => let '(d, q) := shortest m e in sign s ++ format_short d q
    end.

(** The integer nearest to [x]; the even one when [x] is half-way. *)
Definition round_half_even (x : Q) : Z :=
  let fl := Qfloor x in
  match Qcompare (x - inject_Z fl) (1 # 2) with
  | Lt => fl
  | Gt => fl + 1
  | Eq => if Z.even fl then fl else fl + 1
  end.

(** The format [.2f]: the exact value rounded to hundredths, ties to even. *)
Definition format_2f (f : float) : string :=
  string_of_list_ascii
    match Prim2SF f with
    | S754_zero s => sign s ++ ["0"; "."; "0"; "0"]%char
    | S754_infinity s => sign s ++ ["i"; "n"; "f"]%char
    | S754_nan => ["n"; "a"; "n"]%char
    | S754_finite s m e =>
        let n := round_half_even (exact m e * inject_Z 100) in
        let pad := if n mod 100 <? 10 then ["0"%char] else [] in
        sign s ++ digit_chars (n / 100) ++ "."%char :: pad ++ digit_chars (n mod 100)
    end.

(** The value of a decimal digit. *)
Definition digit_value (c : ascii) : option Z :=
  let n := Z.of_N (N_of_ascii c) in
  if (48 <=? n) && (n <=? 57) then Some (n - 48) else None.

(** The number that a run of decimal digits writes, after [acc]. *)
Fixpoint digits_from (acc : Z) (l : list ascii) : option Z :=
  match l with
  | [] => Some acc
  | c :: l' =>
      match digit_value c with
      | Some k => digits_from (10 * acc + k) l'
      | None => None
      end
  end.

(** The number that a run of decimal digits writes; [None] when a character
    is no digit. *)
Definition digits (l : list ascii) : option Z := digits_from 0 l.

(** [s.partition(c)]: the text before the first [c], and the text after it
    when there is one. *)
Fixpoint partition (c : ascii) (l : list ascii) : list ascii * option (list ascii) :=
  match l with
  | [] => ([], None)
  | a :: l' =>
      if Ascii.eqb a c then ([], Some l')
      else let '(u, v) := partition c l' in (a :: u, v)
  end.

(** A leading sign, and the text after it. *)
Definition signed (l : list ascii) : bool * list ascii :=
  match l with
  | "-"%char :: l' => (true, l')
  | "+"%char :: l' => (false, l')
  | _ => (false, l)
  end.

(** The [L] with [2^L <= x < 2^(L+1)], for a positive [x]. *)
Definition floor_log2 (x : Q) : Z :=
  let g := Z.log2 (Qnum x) - Z.log2 (Zpos (Qden x)) in
  if Qle_bool (pow2 g) x then g else g - 1.

(** The float nearest to a positive rational, ties to even: the mantissa is
    the quotient by the unit in the last place, rounded; a mantissa rounded up
    to [2^53] opens the next binade; beyond the largest exponent stands
    infinity. *)
Definition nearest (neg : bool) (x : Q) : spec_float :=
  let e := Z.max (-1074) (floor_log2 x - 52) in
  let m := round_half_even (x / pow2 e) in
  let '(m, e) := if m =? 2 ^ 53 then (2 ^ 52, e + 1) else (m, e) in
  match m with
  | Zpos p => if 971 <? e then S754_infinity neg else S754_finite neg p e
  | _ => S754_zero neg
  end.

(** The float nearest to [d * 10^q]. *)
Definition of_decimal (neg : bool) (d q : Z) : float :=
  match d with
  | Zpos _ => SF2Prim (nearest neg (inject_Z d * pow10 q))
  | _ => SF2Prim (S754_zero neg)
  end.

(** [float(s)] on the numerals that [repr] and [.2f] write: a sign, digits
    with an optional point, an optional exponent; [inf] and [nan]. *)
Definition float_of_chars (l : list ascii) : option float :=
  let '(neg, body) := signed l in
  if String.eqb (string_of_list_ascii body) "inf" then
    Some (if neg then neg_infinity else infinity)
  else if String.eqb (string_of_list_ascii body) "nan" then Some nan
  else
    let '(mant, ex) := partition "e" body in
    let '(ip, fp) := partition "." mant in
    let fp := match fp with Some t => t | None => [] end in
    match ip, fp with
    | [], [] => None
    | _, _ =>
      match digits ip, digits fp,
            match ex with
            | None => Some 0
            | Some t => let '(n, u) := signed t in
                        match u with
                        | [] => None
                        | _ => option_map (fun x => if n then - x else x) (digits u)
                        end
            end with
      | Some i, Some f, Some x =>
          let nf := Z.of_nat (List.length fp) in
          Some (of_decimal neg (i * 10 ^ nf + f) (x - nf))
      | _, _, _ => None
      end
    end.

(** [float(s)] *)
Definition float_of_str (s : string) : option float :=
  float_of_chars (list_ascii_of_string s).

End PyFloat.

(** ** Data classes *)

(** [class MenuItem] *)
Record MenuItem : Type := mkMenuItem {
  food_id : Z;
  name : string;
  price : float;
  rating : float;
  image_data : option string;
  category : string;
  tags : list string
}.

(** A reference to a [MenuItem] object: its index in the object store. *)
Definition ref : Type := nat.

(** The object store.  Objects are allocated at the end and never freed. *)
Definition heap_t : Type := list MenuItem.

(** What a reference outside the store reads as.  No state of the program
    holds such a reference (see [wf_state]). *)
Definition no_object : MenuItem :=
  mkMenuItem 0 EmptyString 0%float 0%float None EmptyString [].

Definition deref (h : heap_t) (r : ref) : MenuItem := nth r h no_object.

(** [class OrderHistory].  [items] is the list of pairs [(item, qty)] built by
    [place_order], [item] being the [MenuItem] object itself. *)
Record OrderHistory : Type := mkOrderHistory {
  order_id : Z;
  customer_name : string;
  items : list (ref * Z);
  total_amount : float;
  date : string;
  is_teacher : bool
}.

(** ** Session state *)

(** The part of [st.session_state] the domain uses, with the object store and
    the cache that [st.cache_data] keeps for [get_popular_items].  The cache
    is keyed by [limit] alone: Streamlit leaves the arguments [_menu_items] and
    [_orders], whose names start with an underscore, out of the key. *)
Record AppState : Type := mkAppState {
  heap : heap_t;
  menu_items : list ref;
  orders : list OrderHistory;
  order_index : Z;
  cart : Py.dict Z;
  popular_cache : list (Z * list MenuItem)
}.

(** The rows of [menu_data] in [load_default_menu]. *)
Definition menu_row (fid : Z) (nm : string) (pr rt : float) (cat : string)
  (tg : list string) : Z * string * float * float * string * list string :=
  (fid, nm, pr, rt, cat, tg).

Definition menu_data : list (Z * string * float * float * string * list string) :=
  [ menu_row 1 "Burger" 70.23 4.5 "Main Course" ["popular"; "non-veg"]%string;
    menu_row 2 "Coffee" 70.20 4.0 "Beverage" ["popular"; "hot"]%string;
    menu_row 3 "Pizza" 237.26 4.7 "Main Course" ["popular"; "vegetarian"]%string;
    menu_row 4 "Pasta" 150.00 4.3 "Main Course" ["vegetarian"]%string;
    menu_row 5 "Sandwich" 80.50 4.2 "Main Course" ["vegetarian"]%string;
    menu_row 6 "Fries" 60.00 4.0 "Side Dish" ["popular"; "vegetarian"]%string;
    menu_row 7 "Salad" 90.00 4.4 "Side Dish" ["vegetarian"; "healthy"]%string;
    menu_row 8 "Ice Cream" 50.00 4.6 "Dessert" ["popular"; "sweet"]%string ].

(** [load_default_menu]: one object per row; [images fid] is the content of
    the file [images/<fid>.jpg] when it exists and can be read. *)
Definition load_default_menu (images : Z -> option string) : list MenuItem :=
  map (fun '(fid, nm, pr, rt, cat, tg) =>
         mkMenuItem fid nm pr rt (images fid) cat tg) menu_data.

(** [initialize_session_state] on a fresh session. *)
Definition initialize_session_state (images : Z -> option string) : AppState :=
  let objs := load_default_menu images in
  mkAppState objs (seq 0 (List.length objs)) [] 1 [] [].

(** What a handler shows or asks of Streamlit. *)
Inductive ui_event : Type :=
| EvOrderPlaced (oid : Z)      (* st.success("Order #<oid> placed successfully!") *)
| EvBalloons                   (* st.balloons() *)
| EvDishAdded (nm : string)    (* st.success("Added <nm>") *)
| EvError (msg : string)       (* st.error(msg) *)
| EvRerun                      (* st.rerun() *)
| EvException (exc : string).  (* an exception nobody catches ends the run *)

(** What a call gives back: a value, or the exception it raises. *)
Inductive outcome (A : Type) : Type :=
| Returns (a : A)
| Raises (exc : string).

Arguments Returns {A} a.
Arguments Raises {A} exc.

(** ** The cart buttons ([display_menu_item], [show_user_panel]) *)

(** [current_qty = st.session_state.cart.get(item.food_id, 0)] *)
Definition current_qty (c : Py.dict Z) (fid : Z) : Z := Py.dict_get c fid 0.

(** The [+] button. *)
Definition cart_plus (c : Py.dict Z) (fid : Z) : Py.dict Z :=
  Py.dict_set c fid (current_qty c fid + 1).

(** The [-] button; it is disabled while [current_qty == 0]. *)
Definition cart_minus (c : Py.dict Z) (fid : Z) : Py.dict Z :=
  if current_qty c fid =? 0 then c
  else if current_qty c fid >? 1 then Py.dict_set c fid (current_qty c fid - 1)
  else Py.dict_pop c fid.

Inductive cart_op : Type :=
| Plus (fid : Z)
| Minus (fid : Z)
| ClearCart.

Definition cart_step (c : Py.dict Z) (op : cart_op) : Py.dict Z :=
  match op with
  | Plus fid => cart_plus c fid
  | Minus fid => cart_minus c fid
  | ClearCart => []
  end.

Definition cart_run (ops : list cart_op) (c : Py.dict Z) : Py.dict Z :=
  fold_left cart_step ops c.

(** ** Resolving the cart ([display_cart_summary], [place_order]) *)

(** [next((m for m in menu_items if m.food_id == food_id), None)] *)
Definition find_item (h : heap_t) (menu : list ref) (fid : Z) : option ref :=
  find (fun m => food_id (deref h m) =? fid) menu.

(** One turn of the loop shared by [display_cart_summary] and [place_order],
    on the pair of the resolved lines and the running [total]: an entry whose
    identifier no dish bears is skipped. *)
Definition resolve_entry (h : heap_t) (menu : list ref)
  (acc : list (ref * Z) * float) (entry : Z * Z) : list (ref * Z) * float :=
  let '(fid, qty) := entry in
  match find_item h menu fid with
  | Some item =>
      (fst acc ++ [(item, qty)],
       PrimFloat.add (snd acc)
         (PrimFloat.mul (price (deref h item)) (Py.float_of_int qty)))
  | None => acc
  end.

(** The loop: the resolved pairs [(item, qty)] in cart order, and [total]. *)
Definition resolve_cart (h : heap_t) (menu : list ref) (c : Py.dict Z)
  : list (ref * Z) * float :=
  fold_left (resolve_entry h menu) c ([], 0%float).

Definition cart_snapshot (s : AppState) : list (ref * Z) :=
  fst (resolve_cart (heap s) (menu_items s) (cart s)).

Definition cart_subtotal (s : AppState) : float :=
  snd (resolve_cart (heap s) (menu_items s) (cart s)).

(** [place_order(customer_name, is_teacher)]; [now] is what
    [datetime.now().strftime(...)] returns. *)
Definition place_order (customer : string) (teacher : bool) (now : string)
  (s : AppState) : AppState * list ui_event :=
  let '(items_ordered, total) := resolve_cart (heap s) (menu_items s) (cart s) in
  match items_ordered with
  | [] => (s, [])
  | _ :: _ =>
      let order :=
        mkOrderHistory (order_index s) customer items_ordered total now teacher in
      (mkAppState (heap s) (menu_items s) (orders s ++ [order])
         (order_index s + 1) [] [],
       [EvOrderPlaced (order_id order); EvBalloons])
  end.

(** The [Place Order] button of [show_user_panel]: shown only while the cart
    is not empty. *)
Definition click_place_order (customer : string) (teacher : bool) (now : string)
  (s : AppState) : AppState * list ui_event :=
  match cart s with
  | [] => (s, [])
  | _ :: _ =>
      match customer with
      | EmptyString => (s, [EvError "Please enter your name"])
      | _ => place_order customer teacher now s
      end
  end.

(** ** The admin panel *)

(** The metrics of [show_admin_panel]: [len(orders)], [revenue] and [avg].
    On the empty ledger Python's [sum] and the conditional give the integer
    [0], read here as the float [0.0]: both print as [0.00]. *)
Definition revenue (os : list OrderHistory) : float :=
  Py.sum (map total_amount os).

Definition metrics (os : list OrderHistory) : option (Z * float * float) :=
  let count := Z.of_nat (List.length os) in
  let avg :=
    match os with
    | [] => Some 0%float
    | _ :: _ => Py.truediv (revenue os) count
    end in
  option_map (fun a => (count, revenue os, a)) avg.

(** The [Add Dish] button of [show_menu_management]. *)
Definition add_dish (nm : string) (pr : float) (cat : string) (rt : float)
  (image : option string) (s : AppState) : AppState * list ui_event :=
  if negb (String.eqb nm EmptyString) && PrimFloat.ltb 0 pr then
    let new_id :=
      Py.max_default (map (fun i => food_id (deref (heap s) i)) (menu_items s)) 0 + 1 in
    let new_item := mkMenuItem new_id nm pr rt image cat [] in
    (mkAppState (heap s ++ [new_item]) (menu_items s ++ [List.length (heap s)])
       (orders s) (order_index s) (cart s) (popular_cache s),
     [EvDishAdded nm; EvRerun])
  else (s, [EvError "Fill required fields"]).

(** The [Delete] button beside a dish: one per element of [menu_items]. *)
Definition delete_dish (item : ref) (s : AppState) : AppState * list ui_event :=
  if existsb (Nat.eqb item) (menu_items s) then
    (mkAppState (heap s) (Py.list_remove (menu_items s) item)
       (orders s) (order_index s) (cart s) (popular_cache s),
     [EvRerun])
  else (s, []).

(** The [Delete] button inside an order of [show_order_management]: one for
    each of the last ten orders; [i] is the order's position in [orders]. *)
Definition delete_order (i : nat) (s : AppState) : AppState * list ui_event :=
  if Nat.ltb i (List.length (orders s))
     && Nat.leb (List.length (orders s) - 10)%nat i then
    (mkAppState (heap s) (menu_items s) (Py.list_remove_at (orders s) i)
       (order_index s) (cart s) (popular_cache s),
     [EvRerun])
  else (s, []).

(** ** RecommendationEngine *)

(** One turn of the inner loop of [get_popular_items]:
    [item_counts[item.food_id] = item_counts.get(item.food_id, 0) + qty]. *)
Definition tally (h : heap_t) (counts : Py.dict Z) (line : ref * Z) : Py.dict Z :=
  let fid := food_id (deref h (fst line)) in
  Py.dict_set counts fid (Py.dict_get counts fid 0 + snd line).

Definition item_counts (h : heap_t) (os : list OrderHistory) : Py.dict Z :=
  fold_left (fun counts o => fold_left (tally h) (items o) counts) os [].

(** [popular_ids]: the [limit] first entries of the tally sorted by count,
    largest first. *)
Definition popular_ids (h : heap_t) (os : list OrderHistory) (limit : Z)
  : list (Z * Z) :=
  Py.slice_to (Py.sorted_desc snd (item_counts h os)) limit.

(** The body of [get_popular_items(_menu_items, _orders, limit)]. *)
Definition get_popular_items (h : heap_t) (menu : list ref)
  (os : list OrderHistory) (limit : Z) : list ref :=
  match item_counts h os with
  | [] => Py.slice_to menu limit
  | _ :: _ =>
      let ids := map fst (popular_ids h os limit) in
      filter (fun item => existsb (Z.eqb (food_id (deref h item))) ids) menu
  end.

(** [pickle.dumps] of a list of dishes, which [st.cache_data] calls to store
    what the body returned.  Pickle writes an object as a reference to its
    class and looks that class up again, under its name, in the module it
    names: the dump succeeds when the name [MenuItem] is still bound to the
    class of every dish of the list, and raises [PicklingError] otherwise.
    [current r] tells that the class of the dish [r] is the one the name is
    bound to now.  The fields of a dish (int, str, float, bytes, list of str)
    always pickle, and so does the empty list. *)
Definition pickles (current : ref -> bool) (l : list ref) : bool :=
  forallb current l.

(** Who calls.  A program that imports [app.py] and builds its dishes from the
    class of that module calls the function directly: every class is current.
    [streamlit run app.py] executes the script anew at every interaction, each
    time in a new module [__main__], so each run defines a new class
    [MenuItem], while the dishes stay in [st.session_state]:
    [load_default_menu] builds them in the first run of the session, which
    shows the login page, and [Add Dish] ends its run with [st.rerun()].  A
    run that calls [get_popular_items] is a later one, in which no dish of
    the session is of the current class. *)
Definition direct_call : ref -> bool := fun _ => true.

Definition script_run : ref -> bool := fun _ => false.

(** The exception of [st.cache_data] when the result does not pickle. *)
Definition UnserializableReturnValueError : string :=
  "UnserializableReturnValueError".

(** [get_popular_items] behind [st.cache_data(ttl=60)]: a stored entry for
    [limit] is returned as it is; otherwise the body runs, and its result is
    pickled and stored, then returned; when it does not pickle the call raises
    and nothing is stored.  An entry holds the pickled items, that is their
    fields; nothing changes the fields of a dish, so the list returned on a
    miss (the objects) and on a hit (copies of them) read the same. *)
Definition cached_get_popular_items (current : ref -> bool) (limit : Z)
  (s : AppState) : outcome (list MenuItem) * AppState :=
  match find (fun e => fst e =? limit) (popular_cache s) with
  | Some e => (Returns (snd e), s)
  | None =>
      let popular_items :=
        get_popular_items (heap s) (menu_items s) (orders s) limit in
      if pickles current popular_items then
        let r := map (deref (heap s)) popular_items in
        (Returns r,
         mkAppState (heap s) (menu_items s) (orders s) (order_index s)
           (cart s) ((limit, r) :: popular_cache s))
      else (Raises UnserializableReturnValueError, s)
  end.

(** [show_quick_recommendations], for its effect on the cache; the exception
    of the call is caught nowhere and ends the run.  (The [Add] buttons under
    the dishes it lists do what the [+] button does.) *)
Definition show_quick_recommendations (s : AppState) : AppState * list ui_event :=
  match orders s with
  | [] => (s, [])
  | _ :: _ =>
      match cached_get_popular_items script_run 3 s with
      | (Returns popular, s') => (s', [])
      | (Raises exc, s') => (s', [EvException exc])
      end
  end.

(** ** One user interaction *)

Definition set_cart (c : Py.dict Z) (s : AppState) : AppState :=
  mkAppState (heap s) (menu_items s) (orders s) (order_index s) c
    (popular_cache s).

Definition set_cache (pc : list (Z * list MenuItem)) (s : AppState) : AppState :=
  mkAppState (heap s) (menu_items s) (orders s) (order_index s) (cart s) pc.

Inductive action : Type :=
| ACart (op : cart_op)
| APlaceOrder (customer : string) (teacher : bool) (now : string)
| ARecommend
| ACacheExpire
| AAddDish (nm : string) (pr : float) (cat : string) (rt : float)
    (image : option string)
| ADeleteDish (item : ref)
| ADeleteOrder (i : nat)
| ALogout.

(** What one interaction does.  An action is taken from any state.  In the
    running app the widgets of the user panel that follow the recommendations
    (the dishes, the cart, [Place Order]) are drawn only by a run in which
    [show_quick_recommendations] returns, so the states reached here include
    all those the app reaches. *)
Definition step (a : action) (s : AppState) : AppState * list ui_event :=
  match a with
  | ACart op => (set_cart (cart_step (cart s) op) s, [EvRerun])
  | APlaceOrder customer teacher now => click_place_order customer teacher now s
  | ARecommend => show_quick_recommendations s
  | ACacheExpire => (set_cache [] s, [])
  | AAddDish nm pr cat rt image => add_dish nm pr cat rt image s
  | ADeleteDish item => delete_dish item s
  | ADeleteOrder i => delete_order i s
  | ALogout => (set_cart [] s, [EvRerun])
  end.

Fixpoint run (acts : list action) (s : AppState) : AppState * list ui_event :=
  match acts with
  | [] => (s, [])
  | a :: acts' =>
      let '(s1, ev1) := step a s in
      let '(s2, ev2) := run acts' s1 in
      (s2, ev1 ++ ev2)
  end.

(** The order identifiers announced by a run, in order. *)
Definition placed_ids (evs : list ui_event) : list Z :=
  flat_map (fun e => match e with EvOrderPlaced oid => [oid] | _ => [] end) evs.

(** Every reference held by the catalog or by an order is in the store. *)
Definition wf_state (s : AppState) : Prop :=
  Forall (fun r => (r < List.length (heap s))%nat) (menu_items s) /\
  Forall (fun o => Forall (fun l => (fst l < List.length (heap s))%nat) (items o))
    (orders s).

(** ** CSV, as Python's [csv] module writes and reads it

    [DataFrame.to_csv] writes through [csv.writer] with the delimiter [,],
    the quote character [dquote], minimal quoting, doubled quotes and the line
    terminator [LF]; [reader] is [csv.reader] with the same dialect. *)

Module Csv.

Definition comma : ascii := ","%char.
Definition dquote : ascii := "034"%char.
Definition LF : ascii := "010"%char.
Definition CR : ascii := "013"%char.

(** A field is quoted when it holds the delimiter, the quote character or
    a character of the line terminator. *)
Definition special (c : ascii) : bool :=
  Ascii.eqb c comma || Ascii.eqb c dquote || Ascii.eqb c LF.

Fixpoint needs_quotes (s : string) : bool :=
  match s with
  | EmptyString => false
  | String c s' => special c || needs_quotes s'
  end.

Fixpoint double_quotes (s : string) : string :=
  match s with
  | EmptyString => EmptyString
  | String c s' =>
      if Ascii.eqb c dquote then String dquote (String dquote (double_quotes s'))
      else String c (double_quotes s')
  end.

Definition write_field (s : string) : string :=
  if needs_quotes s
  then String dquote (double_quotes s ++ String dquote EmptyString)
  else s.

(** [sep.join(l)] *)
Fixpoint join (sep : string) (l : list string) : string :=
  match l with
  | [] => EmptyString
  | [x] => x
  | x :: l' => x ++ sep ++ join sep l'
  end.

(** [writer.writerow(fields)]; a lone empty field is written quoted. *)
Definition write_row (fields : list string) : string :=
  match fields with
  | [EmptyString] => String dquote (String dquote (String LF EmptyString))
  | _ => join (String comma EmptyString) (map write_field fields)
           ++ String LF EmptyString
  end.

Definition write_rows (rows : list (list string)) : string :=
  String.concat EmptyString (map write_row rows).

(** The reader's states. *)
Inductive state : Type :=
| StartRecord | StartField | InField | InQuoted | QuoteInQuoted | EatLF.

Definition save (fld : list ascii) (row : list string) : list string :=
  string_of_list_ascii (rev fld) :: row.

Definition at_start_field (row : list string) (c : ascii)
  : state * list ascii * list string * option (list string) :=
  if Ascii.eqb c LF then (StartRecord, [], [], Some (rev (save [] row)))
  else if Ascii.eqb c CR then (EatLF, [], [], Some (rev (save [] row)))
  else if Ascii.eqb c dquote then (InQuoted, [], row, None)
  else if Ascii.eqb c comma then (StartField, [], save [] row, None)
  else (InField, [c], row, None).

Definition at_start_record (c : ascii)
  : state * list ascii * list string * option (list string) :=
  if Ascii.eqb c LF then (StartRecord, [], [], Some [])
  else if Ascii.eqb c CR then (EatLF, [], [], Some [])
  else at_start_field [] c.

(** One character: the next state, the field and the row being read, and
    the record that this character ends, if it ends one. *)
Definition next (st : state) (fld : list ascii) (row : list string) (c : ascii)
  : state * list ascii * list string * option (list string) :=
  match st with
  | StartRecord => at_start_record c
  | EatLF => if Ascii.eqb c LF then (StartRecord, [], [], None)
             else at_start_record c
  | StartField => at_start_field row c
  | InField =>
      if Ascii.eqb c LF then (StartRecord, [], [], Some (rev (save fld row)))
      else if Ascii.eqb c CR then (EatLF, [], [], Some (rev (save fld row)))
      else if Ascii.eqb c comma then (StartField, [], save fld row, None)
      else (InField, c :: fld, row, None)
  | InQuoted =>
      if Ascii.eqb c dquote then (QuoteInQuoted, fld, row, None)
      else (InQuoted, c :: fld, row, None)
  | QuoteInQuoted =>
      if Ascii.eqb c dquote then (InQuoted, c :: fld, row, None)
      else if Ascii.eqb c comma then (StartField, [], save fld row, None)
      else if Ascii.eqb c LF then (StartRecord, [], [], Some (rev (save fld row)))
      else if Ascii.eqb c CR then (EatLF, [], [], Some (rev (save fld row)))
      else (InField, c :: fld, row, None)
  end.

Fixpoint read (st : state) (fld : list ascii) (row : list string) (s : string)
  : list (list string) :=
  match s with
  | EmptyString =>
      match st with
      | StartRecord | EatLF => []
      | _ => [rev (save fld row)]
      end
  | String c s' =>
      let '(st', fld', row', out) := next st fld row c in
      match out with
      | Some r => r :: read st' fld' row' s'
      | None => read st' fld' row' s'
      end
  end.

(** [list(csv.reader(...))] over the text [s]. *)
Definition reader (s : string) : list (list string) := read StartRecord [] [] s.

(** The number of line ends in a text. *)
Fixpoint count_lines (s : string) : nat :=
  match s with
  | EmptyString => O
  | String c s' => if Ascii.eqb c LF then S (count_lines s') else count_lines s'
  end.

End Csv.

(** ** ReportExporter *)

(** [f"{i.name}x{q}"] for one line of an order. *)
Definition line_str (h : heap_t) (l : ref * Z) : string :=
  (name (deref h (fst l)) ++ "x" ++ PyFloat.str_int (snd l))%string.

(** [items_str] of [export_csv]: the lines joined by [; ]. *)
Definition items_str (h : heap_t) (o : OrderHistory) : string :=
  Csv.join "; " (map (line_str h) (items o)).

(** A value in a cell of the data frame. *)
Inductive cell : Type :=
| CInt (z : Z)
| CStr (s : string)
| CFloat (f : float).

(** What [to_csv] writes for a cell: [str] of an [int], a string as it is,
    the [repr] of a float, nothing for a missing value ([nan]). *)
Definition cell_text (c : cell) : string :=
  match c with
  | CInt z => PyFloat.str_int z
  | CStr s => s
  | CFloat f =>
      match Prim2SF f with
      | S754_nan => EmptyString
      | _ => PyFloat.repr f
      end
  end.

(** The keys of the dictionaries that [export_csv] appends to [data]. *)
Definition csv_columns : list string :=
  ["Order ID"; "Customer"; "Type"; "Items"; "Total"; "Date"]%string.

(** The dictionary built for one order. *)
Definition csv_record (h : heap_t) (o : OrderHistory) : list cell :=
  [ CInt (order_id o);
    CStr (customer_name o);
    CStr (if is_teacher o then "Teacher" else "Student")%string;
    CStr (items_str h o);
    CFloat (total_amount o);
    CStr (date o) ].

(** [pd.DataFrame(data).to_csv(index=False)]: the columns are the keys of the
    records; a frame made from no record has no column. *)
Definition to_csv (data : list (list cell)) : string :=
  let columns := match data with [] => [] | _ :: _ => csv_columns end in
  (Csv.write_row columns ++ Csv.write_rows (map (map cell_text) data))%string.

(** The text that [export_csv] hands to the download button. *)
Definition export_csv (h : heap_t) (os : list OrderHistory) : string :=
  to_csv (map (csv_record h) os).

(** The currency sign of the reports, in UTF-8. *)
Definition rupee : string :=
  String "226"%char (String "130"%char (String "185"%char EmptyString)).

(** The line that [export_pdf] draws for one order. *)
Definition pdf_line (h : heap_t) (o : OrderHistory) : string :=
  ("#" ++ PyFloat.str_int (order_id o) ++ ": " ++ customer_name o ++ " - "
     ++ Csv.join ", " (map (line_str h) (items o)) ++ " - " ++ rupee
     ++ PyFloat.format_2f (total_amount o))%string.

(** ** Predicates of the statements *)

(** Every quantity stored in a cart is at least one. *)
Definition cart_positive (c : Py.dict Z) : Prop :=
  Forall (fun kv => 0 < snd kv) c.

(** A handler reported a failure to the user. *)
Definition signals_error (evs : list ui_event) : Prop :=
  exists msg, In (EvError msg) evs.

(** The identifiers of the dishes on the menu, in menu order. *)
Definition catalog_ids (s : AppState) : list Z :=
  map (fun r => food_id (deref (heap s) r)) (menu_items s).

(** [n] consecutive integers from [start]. *)
Definition zseq (start : Z) (n : nat) : list Z :=
  map (fun i => start + Z.of_nat i) (seq 0 n).

(** A state in which the cart holds a single identifier that no dish on the
    menu bears any more: Burger was put in the cart, then deleted by the
    admin. *)
Definition orphan_state : AppState :=
  fst (run [ACart (Plus 1); ADeleteDish 0%nat]
         (initialize_session_state (fun _ => None))).

(** The same, with an order in the ledger and its recommendations cached:
    Coffee was ordered, then deleted by the admin, so that no dish of the menu
    is popular and the empty answer is stored. *)
Definition orphan_state_cached : AppState :=
  fst (run [ACart (Plus 2); APlaceOrder "Bob" true "03-11-2026 12:05";
            ADeleteDish 1%nat; ARecommend; ACart (Plus 1); ADeleteDish 0%nat]
         (initialize_session_state (fun _ => None))).

(** The scenario of the specification: a catalog seeded with Burger and
    Coffee (the first two rows of [menu_data]), nothing ordered yet. *)
Definition scenario_start : AppState :=
  mkAppState (firstn 2 (load_default_menu (fun _ => None))) [0%nat; 1%nat]
    [] 1 [] [].

(** Burger twice and Coffee once in the cart. *)
Definition scenario_cart : AppState :=
  fst (run [ACart (Plus 1); ACart (Plus 1); ACart (Plus 2)] scenario_start).

(** Alice places that cart. *)
Definition scenario_first : AppState * list ui_event :=
  place_order "Alice" false "03-11-2026 12:00" scenario_cart.

(** Then a cart holding Coffee alone is placed. *)
Definition scenario_second : AppState * list ui_event :=
  place_order "Bob" false "03-11-2026 12:05"
    (fst (run [ACart (Plus 2)] (fst scenario_first))).

(** The lines of an order as the reports show them: names and quantities. *)
Definition order_lines (h : heap_t) (ls : list (ref * Z)) : list (string * Z) :=
  map (fun l => (name (deref h (fst l)), snd l)) ls.

(** The identifiers of all the dishes ever created in the session, in order
    of creation: the store keeps every [MenuItem] object. *)
Definition assigned_ids (s : AppState) : list Z := map food_id (heap s).

(** The admin deletes Ice Cream, the dish with the largest identifier, then
    adds a dish. *)
Definition reuse_state : AppState :=
  fst (run [ADeleteDish 7%nat; AAddDish "Kulfi" 40 "Dessert" 4.5 None]
         (initialize_session_state (fun _ => None))).

(** The admin's edits of the menu. *)
Definition catalog_edit (a : action) : Prop :=
  match a with
  | AAddDish _ _ _ _ _ | ADeleteDish _ => True
  | _ => False
  end.

(** The first order of the scenario. *)
Definition scenario_order : OrderHistory :=
  mkOrderHistory 1 "Alice" [(0%nat, 2); (1%nat, 1)] 210.66000000000003
    "03-11-2026 12:00" false.

(** The identifier of the dish behind a reference. *)
Definition fid_of (h : heap_t) (r : ref) : Z := food_id (deref h r).

(** All the lines of all the orders, oldest order first. *)
Definition all_lines (os : list OrderHistory) : list (ref * Z) :=
  flat_map items os.



(** A session in which one order was placed: five Coffee, then one Burger. *)
Definition coffee_state : AppState :=
  fst (run [ACart (Plus 2); ACart (Plus 2); ACart (Plus 2); ACart (Plus 2);
            ACart (Plus 2); ACart (Plus 1);
            APlaceOrder "Alice" false "03-11-2026 12:00"]
         (initialize_session_state (fun _ => None))).

(** A text that holds neither a line feed nor a carriage return. *)
Fixpoint no_line_break (s : string) : bool :=
  match s with
  | EmptyString => true
  | String c s' =>
      negb (Ascii.eqb c Csv.LF) && negb (Ascii.eqb c Csv.CR) && no_line_break s'
  end.

(** The texts of the cells of the row that [export_csv] writes for an order. *)
Definition csv_fields (h : heap_t) (o : OrderHistory) : list string :=
  map cell_text (csv_record h o).

(** The texts an order brings into the report hold no line break: its
    customer, its date and the names of its dishes. *)
Definition order_texts_plain (h : heap_t) (o : OrderHistory) : Prop :=
  no_line_break (customer_name o) = true /\
  no_line_break (date o) = true /\
  Forall (fun l => no_line_break (name (deref h (fst l))) = true) (items o).

(** A character that is no line break. *)
Definition safe_char (c : ascii) : bool :=
  negb (Ascii.eqb c Csv.LF) && negb (Ascii.eqb c Csv.CR).

(** The [n]-th field of a row, counted from 0. *)
Definition field (n : nat) (row : list string) : string := nth n row EmptyString.

(** ** Numerals *)

(** A finite float as [Prim2SF] gives it: a mantissa of 53 bits, or fewer
    at the least exponent. *)
Definition canonical (m : positive) (e : Z) : Prop :=
  e <= 971 /\
  ((e = -1074 /\ Zpos m < 2 ^ 53) \/ (2 ^ 52 <= Zpos m < 2 ^ 53 /\ -1074 <= e)).

(** A decimal digit. *)
Definition is_digit (c : ascii) : bool :=
  match PyFloat.digit_value c with Some _ => true | None => false end.

(** The number a run of digits writes; 0 for any other text. *)
Definition val (l : list ascii) : Z :=
  match PyFloat.digits l with Some v => v | None => 0 end.

(** The digits of a positive number, as [str] writes them. *)
Fixpoint uval (u : Decimal.uint) (acc : Z) : Z :=
  match u with
  | Decimal.Nil => acc
  | Decimal.D0 u => uval u (10 * acc + 0)
  | Decimal.D1 u => uval u (10 * acc + 1)
  | Decimal.D2 u => uval u (10 * acc + 2)
  | Decimal.D3 u => uval u (10 * acc + 3)
  | Decimal.D4 u => uval u (10 * acc + 4)
  | Decimal.D5 u => uval u (10 * acc + 5)
  | Decimal.D6 u => uval u (10 * acc + 6)
  | Decimal.D7 u => uval u (10 * acc + 7)
  | Decimal.D8 u => uval u (10 * acc + 8)
  | Decimal.D9 u => uval u (10 * acc + 9)
  end.

(** The text of a numeral: digits, an optional point with digits, an
    optional exponent. *)
Definition numeral (ip fp : list ascii) (pt : bool) (ex : option (bool * list ascii))
  : list ascii :=
  ip ++ (if pt then "."%char :: fp else [])
     ++ match ex with
        | None => []
        | Some (ne, u) => "e"%char :: (if ne then "-"%char else "+"%char) :: u
        end.

(** The exponent that the numeral writes. *)
Definition exponent_value (ex : option (bool * list ascii)) : Z :=
  match ex with
  | None => 0
  | Some (ne, u) => if ne then - val u else val u
  end.

(** What a layout of [repr] must give back: the numeral parses, with digits
    [D > 0] and exponent [q'], to the value of the significant digits [ds]
    scaled by [10^t]. *)
Definition parses_to (neg : bool) (text : list ascii) (vds t : Z) : Prop :=
  exists D q',
    PyFloat.float_of_chars (PyFloat.sign neg ++ text)
      = Some (PyFloat.of_decimal neg D q') /\
    0 < D /\
    (inject_Z D * PyFloat.pow10 q' == inject_Z vds * PyFloat.pow10 t)%Q.

(** ** More Python built-ins *)

Module PySeq.

(** The bound of a slice: a negative index counts from the end, and every
    index is brought within the list. *)
Definition slice_bound (len i : Z) : Z :=
  if i <? 0 then Z.max (i + len) 0 else Z.min i len.

(** [l[a:b]] *)
Definition slice {A} (l : list A) (a b : Z) : list A :=
  let len := Z.of_nat (List.length l) in
  let a' := slice_bound len a in
  let b' := slice_bound len b in
  firstn (Z.to_nat (b' - a')) (skipn (Z.to_nat a') l).

(** [l[n:]]: all but the first [n] elements, or the last [-n] when [n] is
    negative. *)
Definition slice_from {A} (l : list A) (n : Z) : list A :=
  if 0 <=? n then skipn (Z.to_nat n) l
  else skipn (List.length l - Z.to_nat (- n))%nat l.

(** [range(a, b)] *)
Definition range (a b : Z) : list Z := zseq a (Z.to_nat (b - a)).

(** Sorting by a float key.  [sorted] compares keys with [<] and is stable;
    the two functions that sort by a float here first drop the dishes whose
    key is not a number, so that the keys are totally ordered and the result
    is the one list that is ordered and keeps equal keys in the order they
    had.  [x], which comes before all of [l], goes before the first element
    whose key is not larger. *)
Fixpoint insert_desc_float {A} (key : A -> float) (x : A) (l : list A) : list A :=
  match l with
  | [] => [x]
  | y :: l' =>
      if PrimFloat.ltb (key x) (key y) then y :: insert_desc_float key x l'
      else x :: y :: l'
  end.

(** [sorted(l, key=key, reverse=True)] *)
Definition sorted_desc_float {A} (key : A -> float) (l : list A) : list A :=
  fold_right (insert_desc_float key) [] l.

(** [x] goes before the first element whose key is not smaller. *)
Fixpoint insert_asc_float {A} (key : A -> float) (x : A) (l : list A) : list A :=
  match l with
  | [] => [x]
  | y :: l' =>
      if PrimFloat.ltb (key y) (key x) then y :: insert_asc_float key x l'
      else x :: y :: l'
  end.

(** [sorted(l, key=key)] *)
Definition sorted_asc_float {A} (key : A -> float) (l : list A) : list A :=
  fold_right (insert_asc_float key) [] l.

(** [x] put in its place in an increasing list of distinct strings, if it
    is not there. *)
Fixpoint insert_str (x : string) (l : list string) : list string :=
  match l with
  | [] => [x]
  | y :: l' =>
      match String.compare x y with
      | Lt => x :: l
      | Eq => l
      | Gt => y :: insert_str x l'
      end
  end.

(** [sorted(list(set(l)))] for strings: the distinct elements of [l] in
    increasing order.  Python compares strings by code points, which is the
    order of their UTF-8 bytes. *)
Definition sorted_set (l : list string) : list string :=
  fold_right insert_str [] l.

End PySeq.

(** ** RecommendationEngine: highly rated and budget dishes *)

(** [get_highly_rated_items(menu_items, min_rating, limit)]; the defaults are
    [4.3] and [3]. *)
Definition get_highly_rated_items (h : heap_t) (menu : list ref)
  (min_rating : float) (limit : Z) : list ref :=
  let high_rated :=
    PySeq.sorted_desc_float (fun item => rating (deref h item))
      (filter (fun item => PrimFloat.leb min_rating (rating (deref h item))) menu) in
  Py.slice_to high_rated limit.

(** [get_budget_friendly_items(menu_items, max_price, limit)]; the defaults
    are [100], which is a float exactly, and [3]. *)
Definition get_budget_friendly_items (h : heap_t) (menu : list ref)
  (max_price : float) (limit : Z) : list ref :=
  let budget_items :=
    PySeq.sorted_asc_float (fun item => price (deref h item))
      (filter (fun item => PrimFloat.leb (price (deref h item)) max_price) menu) in
  Py.slice_to budget_items limit.

(** ** SHA-256, as [hashlib.sha256] computes it (FIPS 180-4) *)

Module Sha256.

(** Words are integers below [2^32]. *)
Definition word (x : Z) : Z := x mod 2 ^ 32.

Definition add (x y : Z) : Z := word (x + y).

Definition rotr (n x : Z) : Z :=
  Z.lor (Z.shiftr x n) (word (Z.shiftl x (32 - n))).

Definition complement (x : Z) : Z := Z.lxor x (2 ^ 32 - 1).

Definition ch (x y z : Z) : Z :=
  Z.lxor (Z.land x y) (Z.land (complement x) z).

Definition maj (x y z : Z) : Z :=
  Z.lxor (Z.lxor (Z.land x y) (Z.land x z)) (Z.land y z).

Definition big_sigma0 (x : Z) : Z :=
  Z.lxor (Z.lxor (rotr 2 x) (rotr 13 x)) (rotr 22 x).

Definition big_sigma1 (x : Z) : Z :=
  Z.lxor (Z.lxor (rotr 6 x) (rotr 11 x)) (rotr 25 x).

Definition small_sigma0 (x : Z) : Z :=
  Z.lxor (Z.lxor (rotr 7 x) (rotr 18 x)) (Z.shiftr x 3).

Definition small_sigma1 (x : Z) : Z :=
  Z.lxor (Z.lxor (rotr 17 x) (rotr 19 x)) (Z.shiftr x 10).

(** The round constants: the first 32 bits of the fractional parts of the
    cube roots of the first 64 primes. *)
Definition K : list Z :=
  [
    1116352408; 1899447441; 3049323471; 3921009573;
    961987163; 1508970993; 2453635748; 2870763221;
    3624381080; 310598401; 607225278; 1426881987;
    1925078388; 2162078206; 2614888103; 3248222580;
    3835390401; 4022224774; 264347078; 604807628;
    770255983; 1249150122; 1555081692; 1996064986;
    2554220882; 2821834349; 2952996808; 3210313671;
    3336571891; 3584528711; 113926993; 338241895;
    666307205; 773529912; 1294757372; 1396182291;
    1695183700; 1986661051; 2177026350; 2456956037;
    2730485921; 2820302411; 3259730800; 3345764771;
    3516065817; 3600352804; 4094571909; 275423344;
    430227734; 506948616; 659060556; 883997877;
    958139571; 1322822218; 1537002063; 1747873779;
    1955562222; 2024104815; 2227730452; 2361852424;
    2428436474; 2756734187; 3204031479; 3329325298 ].

(** The initial hash value: the same of the square roots of the first 8
    primes. *)
Definition H0 : list Z :=
  [
    1779033703; 3144134277; 1013904242; 2773480762;
    1359893119; 2600822924; 528734635; 1541459225 ].

(** The [n] bytes of [x], the most significant first. *)
Fixpoint big_endian (n : nat) (x : Z) : list Z :=
  match n with
  | O => []
  | S n' => (x / 256 ^ Z.of_nat n') mod 256 :: big_endian n' x
  end.

(** The message padded to a multiple of 64 bytes: a byte [0x80], zeros, and
    the length of the message in bits on 8 bytes. *)
Definition pad (msg : list Z) : list Z :=
  let len := Z.of_nat (List.length msg) in
  msg ++ [128] ++ repeat 0 (Z.to_nat ((55 - len) mod 64))
      ++ big_endian 8 (8 * len).

(** Bytes to 32-bit words, four by four. *)
Fixpoint words (bytes : list Z) : list Z :=
  match bytes with
  | b0 :: b1 :: b2 :: b3 :: rest =>
      (((b0 * 256 + b1) * 256 + b2) * 256 + b3) :: words rest
  | _ => []
  end.

(** The message schedule, latest word first: [n] more words after [w]. *)
Fixpoint schedule (n : nat) (w : list Z) : list Z :=
  match n with
  | O => w
  | S n' =>
      let next :=
        add (add (small_sigma1 (nth 1 w 0)) (nth 6 w 0))
            (add (small_sigma0 (nth 14 w 0)) (nth 15 w 0)) in
      schedule n' (next :: w)
  end.

(** One round on the working variables [a .. h]. *)
Definition round (v : list Z) (kw : Z * Z) : list Z :=
  match v with
  | [a; b; c; d; e; f; g; h] =>
      let t1 := add (add (add h (big_sigma1 e)) (ch e f g)) (add (fst kw) (snd kw)) in
      let t2 := add (big_sigma0 a) (maj a b c) in
      [add t1 t2; a; b; c; add d t1; e; f; g]
  | _ => v
  end.

(** The hash value after one more block of 16 words. *)
Definition compress (h : list Z) (block : list Z) : list Z :=
  let w := rev (schedule 48 (rev block)) in
  map (fun p => add (fst p) (snd p))
    (combine h (fold_left round (combine K w) h)).

Fixpoint blocks (n : nat) (ws : list Z) (h : list Z) : list Z :=
  match n with
  | O => h
  | S n' => blocks n' (skipn 16 ws) (compress h (firstn 16 ws))
  end.

Definition digest (msg : list Z) : list Z :=
  let ws := words (pad msg) in
  blocks (List.length ws / 16) ws H0.

Definition hex_digit (d : Z) : ascii :=
  if d <? 10 then ascii_of_nat (Z.to_nat (48 + d))
  else ascii_of_nat (Z.to_nat (87 + d)).

(** The [n] hexadecimal digits of [x], lower case. *)
Fixpoint hex (n : nat) (x : Z) : list ascii :=
  match n with
  | O => []
  | S n' => hex_digit ((x / 16 ^ Z.of_nat n') mod 16) :: hex n' x
  end.

(** [hashlib.sha256(data).hexdigest()] *)
Definition hexdigest (data : string) : string :=
  string_of_list_ascii
    (flat_map (hex 8)
       (digest (map (fun c => Z.of_nat (nat_of_ascii c)) (list_ascii_of_string data)))).

End Sha256.

(** ** Accounts ([show_login_page], [main]) *)

Module PyStr.

(** [dict] with [str] keys, in insertion order. *)
Definition dict (V : Type) : Type := list (string * V).

(** [d[k]] when [k in d]; [None] when not. *)
Fixpoint lookup {V} (d : dict V) (k : string) : option V :=
  match d with
  | [] => None
  | (k', v) :: d' => if String.eqb k' k then Some v else lookup d' k
  end.

(** [d[k] = v]: an existing key keeps its place, a new key goes last. *)
Fixpoint store {V} (d : dict V) (k : string) (v : V) : dict V :=
  match d with
  | [] => [(k, v)]
  | (k', v') :: d' =>
      if String.eqb k' k then (k, v) :: d' else (k', v') :: store d' k v
  end.

(** The truth value of a [str]: it is not empty. *)
Definition truthy (s : string) : bool :=
  match s with EmptyString => false | String _ _ => true end.

(** [len(s)]: the number of characters of [s].  Strings are held in UTF-8,
    where every character has one byte that is not of the form [10xxxxxx]. *)
Fixpoint len (s : string) : Z :=
  match s with
  | EmptyString => 0
  | String c s' =>
      let b := Z.of_nat (nat_of_ascii c) in
      (if (128 <=? b) && (b <? 192) then 0 else 1) + len s'
  end.

End PyStr.

(** [hash_password(password)]; [password.encode()] is the UTF-8 that the
    string is held in. *)
Definition hash_password (password : string) : string :=
  Sha256.hexdigest password.

(** [st.session_state]: the account fields, and the fields of the domain. *)
Record Session : Type := mkSession {
  authenticated : bool;
  username : option string;
  users : PyStr.dict string;
  domain : AppState
}.

(** [initialize_session_state] on a fresh session, account fields included. *)
Definition initial_session (images : Z -> option string) : Session :=
  mkSession false None
    [("admin", hash_password "admin123"); ("user", hash_password "user123")]%string
    (initialize_session_state images).

(** What the login page shows or asks of Streamlit. *)
Inductive page_event : Type :=
| PgSuccess (msg : string)     (* st.success(msg) *)
| PgError (msg : string)       (* st.error(msg) *)
| PgWarning (msg : string)     (* st.warning(msg) *)
| PgRerun.                     (* st.rerun() *)

(** The [Login] button of [show_login_page]. *)
Definition click_login (user password : string) (s : Session)
  : Session * list page_event :=
  if PyStr.truthy user && PyStr.truthy password then
    let hashed_pw := hash_password password in
    match PyStr.lookup (users s) user with
    | Some stored =>
        if String.eqb stored hashed_pw
        then (mkSession true (Some user) (users s) (domain s), [PgRerun])
        else (s, [PgError "Invalid username or password"])
    | None => (s, [PgError "Invalid username or password"])
    end
  else (s, [PgWarning "Please fill in all fields"]).

(** The [Sign Up] button of [show_login_page]. *)
Definition click_sign_up (new_username new_password confirm_password : string)
  (s : Session) : Session * list page_event :=
  if PyStr.truthy new_username && PyStr.truthy new_password
     && PyStr.truthy confirm_password then
    if negb (String.eqb new_password confirm_password) then
      (s, [PgError "Passwords do not match"])
    else
      match PyStr.lookup (users s) new_username with
      | Some _ => (s, [PgError "Username already exists"])
      | None =>
          if PyStr.len new_password <? 6 then
            (s, [PgError "Password must be at least 6 characters"])
          else
            (mkSession (authenticated s) (username s)
               (PyStr.store (users s) new_username (hash_password new_password))
               (domain s),
             [PgSuccess "User registered successfully! Please log in."])
      end
  else (s, [PgWarning "Please fill in all fields"]).

(** What the user does on a page that [main] shows. *)
Inductive interaction : Type :=
| ILogin (user password : string)
| ISignUp (new_username new_password confirm_password : string)
| IApp (a : action).

(** The session with the fields of the domain replaced. *)
Definition set_domain (a : AppState) (s : Session) : Session :=
  mkSession (authenticated s) (username s) (users s) a.

(** One run of [main] on an interaction: the login page is shown while
    nobody is logged in, the sidebar and the panels once somebody is; the
    cache expires with time, whoever looks. *)
Definition interact (i : interaction) (s : Session) : Session :=
  match i with
  | ILogin user password =>
      if authenticated s then s else fst (click_login user password s)
  | ISignUp u p c =>
      if authenticated s then s else fst (click_sign_up u p c s)
  | IApp ACacheExpire => set_domain (fst (step ACacheExpire (domain s))) s
  | IApp ALogout =>
      if authenticated s
      then mkSession false (username s) (users s) (fst (step ALogout (domain s)))
      else s
  | IApp a =>
      if authenticated s then set_domain (fst (step a (domain s))) s else s
  end.

(** A sequence of interactions, from first to last. *)
Definition interact_all (l : list interaction) (s : Session) : Session :=
  fold_left (fun s i => interact i s) l s.

(** ** The menu of the user panel ([show_user_panel]) *)

(** [categories]: the options of the category filter. *)
Definition categories (h : heap_t) (menu : list ref) : list string :=
  "All"%string
    :: PySeq.sorted_set (map (fun item => category (deref h item)) menu).

(** [filtered_items] for the category selected. *)
Definition filtered_items (h : heap_t) (menu : list ref) (selected_category : string)
  : list ref :=
  if negb (String.eqb selected_category "All") then
    filter (fun item => String.eqb (category (deref h item)) selected_category) menu
  else menu.

(** [items_per_page] *)
Definition items_per_page : Z := 6.

(** [total_pages] for [n] dishes; [//] rounds down, also below zero. *)
Definition total_pages (n : Z) : Z := (n - 1) / items_per_page + 1.

(** The values that [page] can take: the options of the page selector less
    one when there are several pages, [0] otherwise. *)
Definition page_choices (n : Z) : list Z :=
  if 1 <? total_pages n
  then map (fun option => option - 1) (PySeq.range 1 (total_pages n + 1))
  else [0].

(** [page_items] for the page selected. *)
Definition page_items {A} (filtered : list A) (page : Z) : list A :=
  let start_idx := page * items_per_page in
  let end_idx :=
    Z.min (start_idx + items_per_page) (Z.of_nat (List.length filtered)) in
  PySeq.slice filtered start_idx end_idx.

(** ** The orders of the admin ([show_order_management]) *)

(** The orders listed, in the order they are listed:
    [reversed(orders[-10:])]. *)
Definition shown_orders (os : list OrderHistory) : list OrderHistory :=
  rev (PySeq.slice_from os (-10)).

(** The position in [orders] of the [k]-th order listed: the order that its
    [Delete] button removes. *)
Definition shown_position (os : list OrderHistory) (k : nat) : nat :=
  (List.length os - 1 - k)%nat.

(** ** Analytics ([show_analytics])

    The tally by name and the two counters; the chart takes the five largest
    counts from a sort of the data frame that is not stable, which is left
    out. *)

(** [item_counts.get(k, 0)] on the tally by name. *)
Definition count_of (counts : PyStr.dict Z) (k : string) : Z :=
  match PyStr.lookup counts k with Some c => c | None => 0 end.

(** One turn of the inner loop:
    [item_counts[item.name] = item_counts.get(item.name, 0) + qty]. *)
Definition tally_name (h : heap_t) (counts : PyStr.dict Z) (line : ref * Z)
  : PyStr.dict Z :=
  let nm := name (deref h (fst line)) in
  PyStr.store counts nm (count_of counts nm + snd line).

(** [item_counts] of [show_analytics]: the tally by dish name. *)
Definition name_counts (h : heap_t) (os : list OrderHistory) : PyStr.dict Z :=
  fold_left (fun counts o => fold_left (tally_name h) (items o) counts) os [].

(** [teachers = sum(1 for o in orders if o.is_teacher)] *)
Definition teachers (os : list OrderHistory) : Z :=
  fold_left Z.add (map (fun _ => 1) (filter is_teacher os)) 0.

(** [students = len(orders) - teachers] *)
Definition students (os : list OrderHistory) : Z :=
  Z.of_nat (List.length os) - teachers os.

(** ** The PDF report ([export_pdf]) *)

(** The calls that [export_pdf] makes on the canvas. *)
Inductive canvas_op : Type :=
| SetFont (psfontname : string) (size : Z)     (* c.setFont(psfontname, size) *)
| DrawString (x y : Z) (text : string)         (* c.drawString(x, y, text) *)
| ShowPage                                     (* c.showPage() *)
| Save.                                        (* c.save() *)

(** The loop over the orders, from the height [y]. *)
Fixpoint draw_orders (h : heap_t) (os : list OrderHistory) (y : Z) : list canvas_op :=
  match os with
  | [] => []
  | o :: os' =>
      DrawString 50 y (pdf_line h o)
        :: (if y - 15 <? 50 then ShowPage :: draw_orders h os' 750
            else draw_orders h os' (y - 15))
  end.

(** The title drawn at the top of the first page. *)
Definition report_title : string := "ByteBite Orders Report".

(** [export_pdf], as the calls made on the canvas, in order. *)
Definition export_pdf (h : heap_t) (os : list OrderHistory) : list canvas_op :=
  [SetFont "Helvetica-Bold" 16; DrawString 50 750 report_title;
   SetFont "Helvetica" 10]
    ++ draw_orders h os (750 - 30) ++ [Save].

(** ** Predicates of the further statements *)

(** A float that is a number. *)
Definition is_number (f : float) : Prop := Prim2SF f <> S754_nan.

(** The place of a number on the line, in units of [2^-1074]; the
    infinities lie beyond every finite float. *)
Definition float_rank (f : float) : Z :=
  match Prim2SF f with
  | S754_zero _ => 0
  | S754_infinity s => if s then - 2 ^ 2100 else 2 ^ 2100
  | S754_nan => 0
  | S754_finite s m e =>
      if s then - (Zpos m * 2 ^ (e + 1074)) else Zpos m * 2 ^ (e + 1074)
  end.

(** [a < b] on strings. *)
Definition str_lt (a b : string) : Prop := String.compare a b = Lt.

(** The sum of a list of integers. *)
Definition sum_of (l : list Z) : Z := fold_right Z.add 0 l.

(** The total of the lines of an order, added up as [place_order] does:
    from [0], line after line, [item.price * qty]. *)
Definition lines_total (h : heap_t) (ls : list (ref * Z)) : float :=
  fold_left
    (fun total l =>
       PrimFloat.add total
         (PrimFloat.mul (price (deref h (fst l))) (Py.float_of_int (snd l))))
    ls 0%float.

(** The line that a cart entry gives, if a dish on the menu bears its
    identifier. *)
Definition resolved_line (h : heap_t) (menu : list ref) (entry : Z * Z)
  : list (ref * Z) :=
  match find_item h menu (fst entry) with
  | Some item => [(item, snd entry)]
  | None => []
  end.

(** The states of a session: those that a sequence of interactions reaches
    from a fresh session. *)
Definition reachable (s : AppState) : Prop :=
  exists images acts, s = fst (run acts (initialize_session_state images)).

(** An order as [place_order] makes it: it has lines, every line holds a dish
    of the store and a positive quantity, and the total is that of the
    lines. *)
Definition order_sound (h : heap_t) (o : OrderHistory) : Prop :=
  items o <> [] /\
  Forall (fun l => (fst l < List.length h)%nat /\ 0 < snd l) (items o) /\
  total_amount o = lines_total h (items o).

(** The ledger lists the orders by increasing identifier, all of them given
    by the counter. *)
Definition ledger_sorted (s : AppState) : Prop :=
  1 <= order_index s /\
  StronglySorted Z.lt (map order_id (orders s)) /\
  Forall (fun o => 1 <= order_id o < order_index s) (orders s).

(** What every state of a session satisfies. *)
Definition session_ok (s : AppState) : Prop :=
  (wf_state s /\ NoDup (catalog_ids s)) /\
  cart_positive (cart s) /\
  ledger_sorted s /\
  Forall (order_sound (heap s)) (orders s).

(** A dish as [load_default_menu] and [Add Dish] make them: it has a name,
    a price above zero and an identifier from 1 on. *)
Definition dish_valid (d : MenuItem) : Prop :=
  name d <> EmptyString /\ PrimFloat.ltb 0 (price d) = true /\ 1 <= food_id d.

(** The cache answers [limit] with [r]. *)
Definition cache_answers (limit : Z) (r : list MenuItem) (s : AppState) : Prop :=
  exists e, find (fun e => fst e =? limit) (popular_cache s) = Some e /\ snd e = r.

(** No answer that the cache holds lists a dish. *)
Definition cache_holds_no_dish (s : AppState) : Prop :=
  Forall (fun e => snd e = []) (popular_cache s).

(** The quantity ordered under the name [nm] over the whole ledger. *)
Definition ordered_under (h : heap_t) (os : list OrderHistory) (nm : string) : Z :=
  fold_right Z.add 0
    (map snd (filter (fun l => String.eqb (name (deref h (fst l))) nm) (all_lines os))).

(** A credential as [Sign Up] stores it, or one of the two of the demo. *)
Definition credential_ok (entry : string * string) : Prop :=
  fst entry <> EmptyString /\
  exists password, snd entry = hash_password password /\ 6 <= PyStr.len password.

(** What the accounts of every session satisfy. *)
Definition accounts_ok (s : Session) : Prop :=
  Forall credential_ok (users s) /\
  NoDup (map fst (users s)) /\
  (authenticated s = true ->
     exists user, username s = Some user /\ user <> EmptyString /\
                  PyStr.lookup (users s) user <> None) /\
  reachable (domain s).

(** The strings drawn on a canvas, with their positions. *)
Definition drawn (ops : list canvas_op) : list (Z * Z * string) :=
  flat_map (fun op => match op with DrawString x y t => [(x, y, t)] | _ => [] end) ops.

(** The number of pages ended by [showPage]. *)
Definition page_breaks (ops : list canvas_op) : Z :=
  Z.of_nat (List.length
              (filter (fun op => match op with ShowPage => true | _ => false end) ops)).

(** The heights of the strings drawn on each page, page after page: [cur]
    holds those of the page being drawn, latest first. *)
Fixpoint page_heights (ops : list canvas_op) (cur : list Z) : list (list Z) :=
  match ops with
  | [] => [rev cur]
  | DrawString _ y _ :: ops' => page_heights ops' (y :: cur)
  | ShowPage :: ops' => rev cur :: page_heights ops' []
  | _ :: ops' => page_heights ops' cur
  end.

(** A fresh session. *)
Definition fresh_session : AppState := initialize_session_state (fun _ => None).

(** A session in which twelve orders were placed. *)
Definition twelve_orders : AppState :=
  fst (run (List.concat (repeat [ACart (Plus 1);
                                 APlaceOrder "Alice" false "03-11-2026 12:00"] 12))
         fresh_session).

(** Burger twice and Coffee once in the cart, on the default menu. *)
Definition burger_coffee_cart : AppState :=
  fst (run [ACart (Plus 1); ACart (Plus 1); ACart (Plus 2)] fresh_session).

(** Ice Cream in the cart, then deleted from the menu. *)
Definition orphan_ice_cream : AppState :=
  fst (run [ACart (Plus 8); ADeleteDish 7%nat] fresh_session).

(** A password of six characters on eight bytes: two of its letters take
    two bytes in UTF-8. *)
Definition passwort : string :=
  String "p" (String "195" (String "164" (String "s" (String "s" (String "w"
    (String "195" (String "182" EmptyString))))))).

(** ** The cart summary ([display_cart_summary]) *)

(** A row of [cart_items]: the columns [Item], [Qty], [Price] and [Total]. *)
Record cart_row : Type := mkCartRow {
  row_item : string;
  row_qty : Z;
  row_price : string;
  row_total : string
}.

(** One turn of the loop of [display_cart_summary], on the pair of [total]
    and [cart_items]. *)
Definition summary_entry (h : heap_t) (menu : list ref)
  (acc : float * list cart_row) (entry : Z * Z) : float * list cart_row :=
  let '(fid, qty) := entry in
  match find_item h menu fid with
  | Some item =>
      let subtotal := PrimFloat.mul (price (deref h item)) (Py.float_of_int qty) in
      (PrimFloat.add (fst acc) subtotal,
       snd acc ++ [mkCartRow (name (deref h item)) qty
                     (rupee ++ PyFloat.format_2f (price (deref h item)))
                     (rupee ++ PyFloat.format_2f subtotal)])
  | None => acc
  end.

(** [display_cart_summary]: the table and the line of the total that it
    shows, or nothing when no entry of the cart resolves. *)
Definition display_cart_summary (s : AppState) : option (list cart_row * string) :=
  let '(total, cart_items) :=
    fold_left (summary_entry (heap s) (menu_items s)) (cart s) (0%float, []) in
  match cart_items with
  | [] => None
  | _ :: _ => Some (cart_items, ("### Total: " ++ rupee ++ PyFloat.format_2f total)%string)
  end.

(** The row shown for a line. *)
Definition row_of_line (h : heap_t) (l : ref * Z) : cart_row :=
  mkCartRow (name (deref h (fst l))) (snd l)
    (rupee ++ PyFloat.format_2f (price (deref h (fst l))))
    (rupee ++ PyFloat.format_2f
       (PrimFloat.mul (price (deref h (fst l))) (Py.float_of_int (snd l)))).

(** * Properties *)

(** ** Dictionaries *)

Section DictFacts.
Context {V : Type}.
Implicit Types (d : Py.dict V) (k : Z) (v : V).

Lemma dict_get_set_same d k v default :
  Py.dict_get (Py.dict_set d k v) k default = v.
Proof.
  induction d as [|[k' v'] d IH]; simpl.
  - now rewrite Z.eqb_refl.
  - destruct (k' =? k) eqn:E; simpl.
    + now rewrite Z.eqb_refl.
    + now rewrite E.
Qed.


Lemma dict_mem_pop d k : Py.dict_mem (Py.dict_pop d k) k = false.
Proof.
  unfold Py.dict_mem, Py.dict_pop.
  induction d as [|[k' v'] d IH]; simpl; [reflexivity|].
  destruct (k' =? k) eqn:E; simpl; [assumption|].
  now rewrite E.
Qed.

Lemma dict_set_Forall (P : Z * V -> Prop) d k v :
  Forall P d -> P (k, v) -> Forall P (Py.dict_set d k v).
Proof.
  intros Hd Hkv. induction Hd as [|[k' v'] d Hx Hd IH]; simpl.
  - now constructor.
  - destruct (k' =? k); constructor; assumption.
Qed.

Lemma dict_pop_Forall (P : Z * V -> Prop) d k :
  Forall P d -> Forall P (Py.dict_pop d k).
Proof.
  intros Hd. unfold Py.dict_pop.
  rewrite Forall_forall in *. intros x Hx.
  apply filter_In in Hx. now apply Hd.
Qed.

Lemma dict_mem_true_iff d k :
  Py.dict_mem d k = true <-> exists v, In (k, v) d.
Proof.
  unfold Py.dict_mem. rewrite existsb_exists. split.
  - intros [[k' v] [Hin E]]. simpl in E. apply Z.eqb_eq in E. subst k'.
    now exists v.
  - intros [v Hin]. exists (k, v). split; [assumption|]. apply Z.eqb_refl.
Qed.

Lemma dict_get_In d k default :
  Py.dict_mem d k = true -> In (k, Py.dict_get d k default) d.
Proof.
  unfold Py.dict_mem.
  induction d as [|[k' v'] d IH]; simpl; [discriminate|].
  destruct (k' =? k) eqn:E.
  - apply Z.eqb_eq in E. subst k'. now left.
  - simpl. intros H. right. now apply IH.
Qed.

Lemma dict_get_absent d k default :
  Py.dict_mem d k = false -> Py.dict_get d k default = default.
Proof.
  unfold Py.dict_mem.
  induction d as [|[k' v'] d IH]; simpl; [reflexivity|].
  destruct (k' =? k); simpl; [discriminate | exact IH].
Qed.

End DictFacts.

(** ** The cart *)

Lemma cart_plus_positive c fid :
  cart_positive c -> cart_positive (cart_plus c fid).
Proof.
  intros Hc. unfold cart_plus, current_qty.
  apply dict_set_Forall; [assumption|]. simpl.
  destruct (Py.dict_mem c fid) eqn:M.
  - apply (dict_get_In c fid 0) in M.
    unfold cart_positive in Hc. rewrite Forall_forall in Hc.
    apply Hc in M. simpl in M. lia.
  - rewrite (dict_get_absent c fid 0 M). lia.
Qed.

Lemma cart_minus_positive c fid :
  cart_positive c -> cart_positive (cart_minus c fid).
Proof.
  intros Hc. unfold cart_minus.
  destruct (current_qty c fid =? 0); [assumption|].
  destruct (current_qty c fid >? 1) eqn:G.
  - apply dict_set_Forall; [assumption|]. simpl.
    apply Z.gtb_lt in G. lia.
  - now apply dict_pop_Forall.
Qed.

Lemma cart_step_positive c op :
  cart_positive c -> cart_positive (cart_step c op).
Proof.
  destruct op; simpl.
  - apply cart_plus_positive.
  - apply cart_minus_positive.
  - intros _. constructor.
Qed.

Lemma cart_run_positive ops c :
  cart_positive c -> cart_positive (cart_run ops c).
Proof.
  revert c. induction ops as [|op ops IH]; intros c Hc; simpl.
  - assumption.
  - apply IH. now apply cart_step_positive.
Qed.

Lemma cart_positive_present c fid :
  cart_positive c ->
  (Py.dict_mem c fid = true <-> 0 < current_qty c fid).
Proof.
  intros Hc. split.
  - intros M. apply (dict_get_In c fid 0) in M.
    unfold cart_positive in Hc. rewrite Forall_forall in Hc.
    now apply Hc in M.
  - intros Hq. destruct (Py.dict_mem c fid) eqn:M; [reflexivity|].
    unfold current_qty in Hq. rewrite (dict_get_absent c fid 0 M) in Hq. lia.
Qed.

(** C9.  From a cart whose quantities are all positive, every sequence of
    clicks on [+], [-] and [Clear Cart] leads to a cart whose quantities are all
    positive: an identifier is present exactly when its quantity is positive
    (so no quantity is zero or negative), [-] at quantity 1 removes the entry,
    and [-] at a larger quantity lowers it by exactly 1. *)
Theorem cart_quantities_stay_positive (ops : list cart_op) (c : Py.dict Z) :
  cart_positive c ->
  let c' := cart_run ops c in
  cart_positive c' /\
  (forall fid, Py.dict_mem c' fid = true <-> 0 < current_qty c' fid) /\
  (forall fid, 0 <= current_qty c' fid) /\
  (forall fid, current_qty c' fid = 1 ->
     Py.dict_mem (cart_minus c' fid) fid = false) /\
  (forall fid, 1 < current_qty c' fid ->
     current_qty (cart_minus c' fid) fid = current_qty c' fid - 1).
Proof.
  intros Hc c'.
  assert (Hc' : cart_positive c') by now apply cart_run_positive.
  split; [assumption|].
  split; [intros fid; now apply cart_positive_present|].
  split; [|split].
  - intros fid. destruct (Py.dict_mem c' fid) eqn:M.
    + apply cart_positive_present in M; [lia | assumption].
    + unfold current_qty. rewrite (dict_get_absent c' fid 0 M). lia.
  - intros fid H1. unfold cart_minus. rewrite H1. simpl.
    apply dict_mem_pop.
  - intros fid Hq. unfold cart_minus.
    destruct (current_qty c' fid =? 0) eqn:E0; [apply Z.eqb_eq in E0; lia|].
    destruct (current_qty c' fid >? 1) eqn:G.
    + unfold current_qty at 1. apply dict_get_set_same.
    + rewrite Z.gtb_ltb in G. apply Z.ltb_ge in G. lia.
Qed.

Lemma cart_quantities_stay_positive_witness :
  let c := [(1, 2); (2, 1)] in
  let c' := cart_run [Minus 2; Plus 3; Minus 1; Minus 7] c in
  cart_positive c' /\
  (forall fid, Py.dict_mem c' fid = true <-> 0 < current_qty c' fid) /\
  (forall fid, 0 <= current_qty c' fid) /\
  (forall fid, current_qty c' fid = 1 ->
     Py.dict_mem (cart_minus c' fid) fid = false) /\
  (forall fid, 1 < current_qty c' fid ->
     current_qty (cart_minus c' fid) fid = current_qty c' fid - 1).
Proof.
  apply (cart_quantities_stay_positive [Minus 2; Plus 3; Minus 1; Minus 7]
           [(1, 2); (2, 1)]).
  repeat constructor.
Defined.

(** ** Placing an order *)

Lemma resolve_cart_orphans h menu c acc :
  Forall (fun kv => find_item h menu (fst kv) = None) c ->
  fold_left (resolve_entry h menu) c acc = acc.
Proof.
  intros H. revert acc.
  induction H as [|[fid qty] c Hx _ IH]; intros acc; simpl; [reflexivity|].
  simpl in Hx. rewrite Hx. apply IH.
Qed.

Lemma cart_snapshot_orphans s :
  Forall (fun kv => find_item (heap s) (menu_items s) (fst kv) = None) (cart s) ->
  cart_snapshot s = [].
Proof.
  intros H. unfold cart_snapshot, resolve_cart.
  now rewrite resolve_cart_orphans.
Qed.

Lemma place_order_empty customer teacher now s :
  cart_snapshot s = [] -> place_order customer teacher now s = (s, []).
Proof.
  unfold cart_snapshot, place_order.
  destruct (resolve_cart (heap s) (menu_items s) (cart s)) as [io total].
  simpl. now intros ->.
Qed.

Lemma place_order_nonempty customer teacher now s :
  cart_snapshot s <> [] ->
  place_order customer teacher now s =
    (mkAppState (heap s) (menu_items s)
       (orders s ++ [mkOrderHistory (order_index s) customer (cart_snapshot s)
                       (cart_subtotal s) now teacher])
       (order_index s + 1) [] [],
     [EvOrderPlaced (order_index s); EvBalloons]).
Proof.
  unfold cart_snapshot, cart_subtotal, place_order.
  destruct (resolve_cart (heap s) (menu_items s) (cart s)) as [io total].
  simpl. destruct io; [congruence | reflexivity].
Qed.

(** C3, the claim as stated fails: in [orphan_state] the snapshot of the cart
    is empty, and [place_order] returns without reporting any failure. *)
Lemma place_order_empty_snapshot_reports_nothing :
  cart orphan_state = [(1, 1)] /\
  cart_snapshot orphan_state = [] /\
  ~ signals_error (snd (place_order "Alice" false "03-11-2026 12:00" orphan_state)).
Proof.
  split; [reflexivity|]. split; [reflexivity|].
  intros [msg Hin]. vm_compute in Hin. exact Hin.
Qed.

(** [place_order] shows no error, whatever the cart. *)
Lemma place_order_shows_no_error customer teacher now s :
  ~ signals_error (snd (place_order customer teacher now s)).
Proof.
  destruct (cart_snapshot s) eqn:Es.
  - rewrite (place_order_empty _ _ _ _ Es). intros [msg []].
  - rewrite place_order_nonempty by congruence.
    intros [msg [H|[H|[]]]]; discriminate H.
Qed.

(** C3, amended.  [place_order] on a cart whose snapshot is empty returns
    without raising and without showing any message, the session is what it
    was and the ledger keeps its length; pressed with a name on such a cart,
    the [Place Order] button shows nothing either.  On any cart, the button
    reports a failure exactly when it is pressed with a blank customer name,
    the message being [Please enter your name], and [place_order] itself
    reports none. *)
Theorem place_order_empty_snapshot_is_silent
  (s : AppState) (customer : string) (teacher : bool) (now : string) :
  (cart_snapshot s = [] ->
   place_order customer teacher now s = (s, []) /\
   snd (place_order customer teacher now s) = [] /\
   ~ signals_error (snd (place_order customer teacher now s)) /\
   List.length (orders (fst (place_order customer teacher now s)))
     = List.length (orders s) /\
   (customer <> EmptyString ->
    click_place_order customer teacher now s = (s, []))) /\
  (cart s <> [] ->
   click_place_order EmptyString teacher now s
     = (s, [EvError "Please enter your name"])) /\
  (signals_error (snd (click_place_order customer teacher now s)) <->
   cart s <> [] /\ customer = EmptyString) /\
  (forall msg, In (EvError msg) (snd (click_place_order customer teacher now s)) ->
   msg = "Please enter your name"%string) /\
  ~ signals_error (snd (place_order customer teacher now s)).
Proof.
  split; [|split; [|split; [|split]]].
  - intros H. rewrite (place_order_empty customer teacher now s H). simpl.
    split; [reflexivity|]. split; [reflexivity|]. split; [intros [msg []]|].
    split; [reflexivity|].
    intros Hn. unfold click_place_order. destruct (cart s); [reflexivity|].
    destruct customer; [congruence|]. apply place_order_empty, H.
  - intros Hc. unfold click_place_order.
    destruct (cart s); [congruence | reflexivity].
  - unfold click_place_order. destruct (cart s) as [|entry c].
    + simpl. split; [intros [msg []] | intros [Hc _]; congruence].
    + destruct customer as [|ch customer].
      * split; [intros _; split; [discriminate | reflexivity]|].
        intros _. eexists. left. reflexivity.
      * split; [|intros [_ Hn]; discriminate Hn].
        intros H. exfalso. revert H. apply place_order_shows_no_error.
  - intros msg. unfold click_place_order. destruct (cart s) as [|entry c];
      [intros []|].
    destruct customer as [|ch customer].
    + intros [H|[]]. now injection H as <-.
    + intros H. exfalso.
      apply (place_order_shows_no_error (String ch customer) teacher now s).
      now exists msg.
  - apply place_order_shows_no_error.
Qed.

Lemma place_order_empty_snapshot_is_silent_witness :
  let s := orphan_state in
  let now := "03-11-2026 12:00"%string in
  (cart s = [(1, 1)] /\ cart_snapshot s = []) /\
  place_order "Alice" false now s = (s, []) /\
  ~ signals_error (snd (place_order "Alice" false now s)) /\
  List.length (orders (fst (place_order "Alice" false now s)))
    = List.length (orders s) /\
  click_place_order "Alice" false now s = (s, []) /\
  click_place_order EmptyString false now s
    = (s, [EvError "Please enter your name"]).
Proof.
  split; [split; reflexivity|].
  destruct (place_order_empty_snapshot_is_silent orphan_state "Alice" false
              "03-11-2026 12:00") as (H1 & H2 & _).
  destruct H1 as (Ha & _ & Hb & Hc & Hd); [reflexivity|].
  split; [exact Ha|]. split; [exact Hb|]. split; [exact Hc|].
  split; [apply Hd; discriminate | apply H2; discriminate].
Defined.

(** C10.  When no entry of the cart resolves against the menu, [place_order]
    returns the state it was given: no order is appended, the order counter,
    the cart (orphaned entries included) and the cache of popular items are
    what they were, and nothing is shown.  The same holds through the
    [Place Order] button. *)
Theorem failed_placement_changes_nothing
  (s : AppState) (customer : string) (teacher : bool) (now : string) :
  Forall (fun kv => find_item (heap s) (menu_items s) (fst kv) = None) (cart s) ->
  place_order customer teacher now s = (s, []) /\
  orders (fst (place_order customer teacher now s)) = orders s /\
  order_index (fst (place_order customer teacher now s)) = order_index s /\
  cart (fst (place_order customer teacher now s)) = cart s /\
  popular_cache (fst (place_order customer teacher now s)) = popular_cache s /\
  fst (click_place_order customer teacher now s) = s.
Proof.
  intros H. apply cart_snapshot_orphans in H.
  assert (E := place_order_empty customer teacher now s H).
  rewrite E. simpl. repeat (split; [reflexivity|]).
  unfold click_place_order. destruct (cart s); [reflexivity|].
  destruct customer; [reflexivity|]. now rewrite E.
Qed.

Lemma failed_placement_changes_nothing_witness :
  let s := orphan_state_cached in
  (cart s = [(1, 1)] /\ List.length (popular_cache s) = 1%nat /\
   List.length (orders s) = 1%nat /\ order_index s = 2) /\
  place_order "Alice" false "03-11-2026 12:10" s = (s, []) /\
  orders (fst (place_order "Alice" false "03-11-2026 12:10" s)) = orders s /\
  order_index (fst (place_order "Alice" false "03-11-2026 12:10" s)) = order_index s /\
  cart (fst (place_order "Alice" false "03-11-2026 12:10" s)) = cart s /\
  popular_cache (fst (place_order "Alice" false "03-11-2026 12:10" s))
    = popular_cache s /\
  fst (click_place_order "Alice" false "03-11-2026 12:10" s) = s.
Proof.
  split; [repeat split; reflexivity|].
  apply (failed_placement_changes_nothing orphan_state_cached "Alice" false
           "03-11-2026 12:10").
  repeat constructor.
Defined.

(** ** Order identifiers *)

Lemma run_cons a acts s :
  run (a :: acts) s =
    (fst (run acts (fst (step a s))),
     snd (step a s) ++ snd (run acts (fst (step a s)))).
Proof.
  simpl. destruct (step a s) as [s1 ev1]. simpl.
  now destruct (run acts s1) as [s2 ev2].
Qed.

Lemma placed_ids_app ev1 ev2 :
  placed_ids (ev1 ++ ev2) = placed_ids ev1 ++ placed_ids ev2.
Proof. unfold placed_ids. apply flat_map_app. Qed.

Lemma In_list_remove_at {A} (l : list A) i x :
  In x (Py.list_remove_at l i) -> In x l.
Proof.
  revert i. induction l as [|y l IH]; intros [|i]; simpl; auto.
  intros [->|H]; [now left | right; eapply IH; eassumption].
Qed.

(** In the running app no list of dishes pickles but the empty one. *)
Lemma pickles_script_run l : pickles script_run l = true <-> l = [].
Proof. destruct l; simpl; split; congruence. Qed.

Lemma pickles_direct_call l : pickles direct_call l = true.
Proof. unfold pickles. apply forallb_forall. reflexivity. Qed.

(** What [show_quick_recommendations] does to a session: nothing, or the call
    raises, or the empty answer is stored under the limit 3. *)
Lemma show_quick_recommendations_effect s :
  show_quick_recommendations s = (s, []) \/
  show_quick_recommendations s = (s, [EvException UnserializableReturnValueError]) \/
  show_quick_recommendations s = (set_cache ((3, []) :: popular_cache s) s, []).
Proof.
  unfold show_quick_recommendations. destruct (orders s) eqn:Eo; [now left|].
  unfold cached_get_popular_items. rewrite Eo.
  destruct (find (fun e => fst e =? 3) (popular_cache s)); [now left|].
  destruct (get_popular_items (heap s) (menu_items s) (o :: l) 3); simpl;
    [right; right; unfold set_cache; now rewrite Eo | right; left; reflexivity].
Qed.

(** What one interaction does to the ledger and to the counter: either no
    order is placed, the counter stays and no order is added; or one order is
    placed under the current value of the counter, which then grows by one. *)
Lemma step_ledger a s :
  (placed_ids (snd (step a s)) = [] /\
   order_index (fst (step a s)) = order_index s /\
   incl (orders (fst (step a s))) (orders s)) \/
  (placed_ids (snd (step a s)) = [order_index s] /\
   order_index (fst (step a s)) = order_index s + 1 /\
   exists o, orders (fst (step a s)) = orders s ++ [o] /\
             order_id o = order_index s).
Proof.
  destruct a as [op|customer teacher now| | |nm pr cat rt image|item|i|]; simpl.
  - left. repeat split; auto using incl_refl.
  - unfold click_place_order.
    destruct (cart s) eqn:Ec; [left; repeat split; auto using incl_refl|].
    destruct customer as [|ch customer];
      [left; repeat split; auto using incl_refl|].
    destruct (cart_snapshot s) eqn:Es.
    + rewrite (place_order_empty _ _ _ _ Es).
      left; repeat split; auto using incl_refl.
    + rewrite place_order_nonempty by congruence. simpl.
      right. repeat split. eexists. split; reflexivity.
  - left. destruct (show_quick_recommendations_effect s) as [E|[E|E]]; rewrite E;
      repeat split; auto using incl_refl.
  - left. repeat split; auto using incl_refl.
  - left. unfold add_dish.
    destruct (negb (String.eqb nm EmptyString) && PrimFloat.ltb 0 pr); simpl;
      repeat split; auto using incl_refl.
  - left. unfold delete_dish.
    destruct (existsb (Nat.eqb item) (menu_items s)); simpl;
      repeat split; auto using incl_refl.
  - left. unfold delete_order.
    destruct (Nat.ltb i (List.length (orders s))
              && Nat.leb (List.length (orders s) - 10) i); simpl;
      repeat split; auto using incl_refl.
    intros x. apply In_list_remove_at.
  - left. repeat split; auto using incl_refl.
Qed.

Lemma zseq_cons start n : zseq start (S n) = start :: zseq (start + 1) n.
Proof.
  unfold zseq. simpl. rewrite Z.add_0_r. f_equal.
  rewrite <- seq_shift, map_map. apply map_ext. intros i. lia.
Qed.

Lemma zseq_bounds start n x : In x (zseq start n) -> start <= x < start + Z.of_nat n.
Proof.
  unfold zseq. rewrite in_map_iff. intros [i [<- Hi]].
  apply in_seq in Hi. lia.
Qed.

Lemma zseq_sorted start n : StronglySorted Z.lt (zseq start n).
Proof.
  revert start. induction n as [|n IH]; intros start.
  - constructor.
  - rewrite zseq_cons. constructor; [apply IH|].
    rewrite Forall_forall. intros x Hx. apply zseq_bounds in Hx. lia.
Qed.

Lemma strongly_sorted_lt_NoDup l : StronglySorted Z.lt l -> NoDup l.
Proof.
  induction 1 as [|x l Hs IH Hx]; constructor; [|assumption].
  intros Hin. rewrite Forall_forall in Hx. apply Hx in Hin. lia.
Qed.

(** Along a run the identifiers placed are the consecutive values of the
    counter, and every order of the ledger was either there at the start or
    bears one of them. *)
Lemma run_ledger acts : forall s,
  let r := run acts s in
  let n := List.length (placed_ids (snd r)) in
  placed_ids (snd r) = zseq (order_index s) n /\
  order_index (fst r) = order_index s + Z.of_nat n /\
  (forall o, In o (orders (fst r)) ->
     In o (orders s) \/ In (order_id o) (placed_ids (snd r))).
Proof.
  induction acts as [|a acts IH]; intros s.
  - simpl. repeat split; [lia | auto].
  - rewrite run_cons. cbn zeta. simpl fst. simpl snd.
    specialize (IH (fst (step a s))). cbn zeta in IH.
    destruct IH as (IH1 & IH2 & IH3).
    rewrite placed_ids_app, length_app.
    destruct (step_ledger a s) as [(P & I & O)|(P & I & o & O & Io)];
      rewrite P; simpl List.length; simpl app.
    + rewrite I in IH1, IH2. repeat split; try assumption.
      intros o Ho. destruct (IH3 o Ho) as [H|H]; [left; now apply O | now right].
    + rewrite I in IH1, IH2. rewrite zseq_cons, <- IH1.
      repeat split; [lia|].
      intros o' Ho'. destruct (IH3 o' Ho') as [H|H]; [|right; now right].
      rewrite O in H. apply in_app_or in H. destruct H as [H|[<-|[]]].
      * now left.
      * right. left. now symmetry.
Qed.

(** C6.  From a fresh session, whatever the user and the admin do (cart
    clicks, placements, dish and order deletions, ...), the identifiers given
    to the orders placed are 1, 2, 3, ... in this order: strictly increasing,
    never given twice, each the value of a counter that starts at 1 and grows
    by one per placement, and untouched by deletions; every order still in the
    ledger bears one of them, below the next identifier to be given. *)
Theorem order_ids_increase_and_are_never_reused
  (images : Z -> option string) (acts : list action) :
  let r := run acts (initialize_session_state images) in
  let ids := placed_ids (snd r) in
  ids = zseq 1 (List.length ids) /\
  StronglySorted Z.lt ids /\
  NoDup ids /\
  order_index (fst r) = 1 + Z.of_nat (List.length ids) /\
  (forall o, In o (orders (fst r)) ->
     In (order_id o) ids /\ order_id o < order_index (fst r)).
Proof.
  intros r ids.
  destruct (run_ledger acts (initialize_session_state images)) as (H1 & H2 & H3).
  fold r in H1, H2, H3. fold ids in H1, H2, H3.
  change (order_index (initialize_session_state images)) with 1 in H1, H2.
  change (orders (initialize_session_state images)) with (@nil OrderHistory) in H3.
  assert (Hs : StronglySorted Z.lt ids) by (rewrite H1; apply zseq_sorted).
  split; [exact H1|]. split; [exact Hs|].
  split; [now apply strongly_sorted_lt_NoDup|]. split; [exact H2|].
  intros o Ho. destruct (H3 o Ho) as [[]|Hin].
  split; [exact Hin|].
  rewrite H1 in Hin. apply zseq_bounds in Hin. lia.
Qed.

(** ** Metrics *)

Lemma sum_snoc l x : Py.sum (l ++ [x]) = PrimFloat.add (Py.sum l) x.
Proof. unfold Py.sum. now rewrite fold_left_app. Qed.

(** C8.  [metrics] never fails: [count] is the number of orders, [revenue] is
    the sum of the totals accumulated in ledger order from 0, and [average] is
    0 on the empty ledger (where [revenue] is 0 too) and [revenue / count]
    otherwise. *)
Theorem metrics_total (os : list OrderHistory) :
  exists avg,
    metrics os = Some (Z.of_nat (List.length os), revenue os, avg) /\
    revenue [] = 0%float /\
    (forall o, revenue (os ++ [o]) = PrimFloat.add (revenue os) (total_amount o)) /\
    (os = [] -> avg = 0%float /\ revenue os = 0%float) /\
    (os <> [] ->
       avg = PrimFloat.div (revenue os) (Py.float_of_int (Z.of_nat (List.length os)))).
Proof.
  destruct os as [|o os].
  - exists 0%float.
    split; [reflexivity|]. split; [reflexivity|].
    split; [intros o; reflexivity|].
    split; [intros _; split; reflexivity | intros H; congruence].
  - exists (PrimFloat.div (revenue (o :: os))
              (Py.float_of_int (Z.of_nat (List.length (o :: os))))).
    split; [|split; [reflexivity|split; [|split]]].
    + unfold metrics, Py.truediv.
      destruct (Z.of_nat (List.length (o :: os)) =? 0) eqn:E.
      * apply Z.eqb_eq in E. simpl in E. lia.
      * reflexivity.
    + intros o'. unfold revenue. rewrite map_app. simpl (map _ [o']).
      apply sum_snoc.
    + intros H. discriminate.
    + intros _. reflexivity.
Qed.

(** ** The scenario of the specification *)

(** C7, the claim as stated fails: the subtotal of the scenario's cart is not
    the float 210.66 (Python's [==] answers [False]), and the number it stands
    for is not 210.66 either: it is the next float up, 210.66000000000003. *)
Lemma scenario_subtotal_is_not_210_66 :
  cart_subtotal scenario_cart <> 210.66%float /\
  PrimFloat.eqb (cart_subtotal scenario_cart) 210.66 = false /\
  Prim2SF (cart_subtotal scenario_cart) = S754_finite false 7411939824233350 (-45) /\
  ~ (PyFloat.exact 7411939824233350 (-45) == 21066 # 100)%Q.
Proof.
  split; [|split; [|split]].
  - intros H. apply (f_equal Prim2SF) in H. vm_compute in H. discriminate.
  - vm_compute. reflexivity.
  - vm_compute. reflexivity.
  - intros H. vm_compute in H. discriminate.
Qed.

(** C7, amended.  In the scenario the cart reads [{1: 2, 2: 1}], its snapshot
    is Burger x 2, Coffee x 1, and its subtotal is the float
    210.66000000000003, shown as 210.66 under [.2f].  Placing it gives order 1
    with that total and two lines; after the second placement the ledger holds
    two orders and the metrics are count 2, revenue 280.86 (the float of that
    literal) and average 140.43. *)
Theorem scenario_totals :
  cart scenario_cart = [(1, 2); (2, 1)] /\
  order_lines (heap scenario_cart) (cart_snapshot scenario_cart)
    = [("Burger"%string, 2); ("Coffee"%string, 1)] /\
  cart_subtotal scenario_cart = 210.66000000000003%float /\
  PyFloat.format_2f (cart_subtotal scenario_cart) = "210.66"%string /\
  (exists o, orders (fst scenario_first) = [o] /\
             order_id o = 1 /\
             total_amount o = 210.66000000000003%float /\
             List.length (items o) = 2%nat /\
             customer_name o = "Alice"%string) /\
  snd scenario_first = [EvOrderPlaced 1; EvBalloons] /\
  snd scenario_second = [EvOrderPlaced 2; EvBalloons] /\
  List.length (orders (fst scenario_second)) = 2%nat /\
  metrics (orders (fst scenario_second))
    = Some (2, 280.86%float, 140.43%float).
Proof.
  split; [reflexivity|]. split; [reflexivity|].
  split; [vm_compute; reflexivity|]. split; [vm_compute; reflexivity|].
  split.
  - eexists. split; [vm_compute; reflexivity|].
    repeat split; vm_compute; reflexivity.
  - repeat split; vm_compute; reflexivity.
Qed.

(** ** The object store and the menu *)

Lemma deref_alloc h x r :
  (r < List.length h)%nat -> deref (h ++ [x]) r = deref h r.
Proof. intros H. unfold deref. now apply app_nth1. Qed.

Lemma deref_new h x : deref (h ++ [x]) (List.length h) = x.
Proof.
  unfold deref. rewrite app_nth2 by lia. now rewrite Nat.sub_diag.
Qed.

Lemma fold_max_ge l : forall a x, x = a \/ In x l -> x <= fold_left Z.max l a.
Proof.
  induction l as [|y l IH]; intros a x H; simpl.
  - destruct H as [->|[]]. lia.
  - destruct H as [->|[->|H]].
    + transitivity (Z.max a y); [lia | apply IH; now left].
    + transitivity (Z.max a x); [lia | apply IH; now left].
    + apply IH. now right.
Qed.

Lemma max_default_ge l d x : In x l -> x <= Py.max_default l d.
Proof.
  destruct l as [|y l]; [intros []|]. simpl.
  intros [->|H]; apply fold_max_ge; [now left | now right].
Qed.

Lemma find_item_Some h menu fid r :
  find_item h menu fid = Some r -> In r menu /\ food_id (deref h r) = fid.
Proof.
  unfold find_item. intros H. apply find_some in H.
  destruct H as [Hin E]. split; [assumption | now apply Z.eqb_eq].
Qed.

Lemma resolve_fold_refs h menu c : forall acc,
  (forall l, In l (fst acc) -> In (fst l) menu) ->
  forall l, In l (fst (fold_left (resolve_entry h menu) c acc)) -> In (fst l) menu.
Proof.
  induction c as [|[fid qty] c IH]; intros acc Hacc; simpl; [assumption|].
  apply IH. destruct (find_item h menu fid) as [r|] eqn:E; [|assumption].
  simpl. intros l Hl. apply in_app_or in Hl. destruct Hl as [Hl|[<-|[]]].
  - now apply Hacc.
  - simpl. now apply find_item_Some in E.
Qed.

Lemma cart_snapshot_refs s l :
  In l (cart_snapshot s) -> In (fst l) (menu_items s).
Proof.
  unfold cart_snapshot, resolve_cart. apply resolve_fold_refs.
  intros l' [].
Qed.

Lemma list_remove_incl l x : incl (Py.list_remove l x) l.
Proof.
  induction l as [|y l IH]; simpl; [apply incl_refl|].
  destruct (Nat.eqb y x).
  - apply incl_tl, incl_refl.
  - intros z [->|Hz]; [now left | right; now apply IH].
Qed.

Lemma list_remove_NoDup_map {B} (f : nat -> B) l x :
  NoDup (map f l) -> NoDup (map f (Py.list_remove l x)).
Proof.
  induction l as [|y l IH]; simpl; [auto|].
  intros H. inversion H as [|? ? Hnin Hnd]; subst.
  destruct (Nat.eqb y x); [assumption|].
  simpl. constructor; [|now apply IH].
  intros Hin. apply Hnin. apply in_map_iff in Hin.
  destruct Hin as [z [Ez Hz]]. apply in_map_iff. exists z.
  split; [assumption | now apply list_remove_incl in Hz].
Qed.

Lemma NoDup_snoc {A} (l : list A) x : NoDup l -> ~ In x l -> NoDup (l ++ [x]).
Proof.
  intros Hl Hx. apply (Permutation_NoDup (Permutation_cons_append l x)).
  now constructor.
Qed.

Lemma prod_eq_dec {A B} (da : forall x y : A, {x = y} + {x <> y})
  (db : forall x y : B, {x = y} + {x <> y}) (p q : A * B) : {p = q} + {p <> q}.
Proof. decide equality. Qed.

Lemma catalog_ids_alloc h x menu :
  Forall (fun r => (r < List.length h)%nat) menu ->
  map (fun r => food_id (deref (h ++ [x]) r)) menu
    = map (fun r => food_id (deref h r)) menu.
Proof.
  intros H. apply map_ext_in. intros r Hr.
  rewrite Forall_forall in H. now rewrite deref_alloc by now apply H.
Qed.

(** What [Add Dish] does when the name is filled and the price positive. *)
Lemma add_dish_accepted nm pr cat rt image s :
  nm <> EmptyString -> PrimFloat.ltb 0 pr = true ->
  add_dish nm pr cat rt image s =
    (mkAppState
       (heap s ++ [mkMenuItem (Py.max_default (catalog_ids s) 0 + 1)
                     nm pr rt image cat []])
       (menu_items s ++ [List.length (heap s)])
       (orders s) (order_index s) (cart s) (popular_cache s),
     [EvDishAdded nm; EvRerun]).
Proof.
  intros Hn Hp. unfold add_dish. rewrite Hp.
  destruct (String.eqb nm EmptyString) eqn:E; [|reflexivity].
  apply String.eqb_eq in E. congruence.
Qed.

Lemma add_dish_rejected nm pr cat rt image s :
  nm = EmptyString \/ PrimFloat.ltb 0 pr = false ->
  add_dish nm pr cat rt image s = (s, [EvError "Fill required fields"]).
Proof.
  intros [->|Hp]; unfold add_dish; [reflexivity|].
  rewrite Hp. now rewrite andb_false_r.
Qed.

(** Closes the cases where the store, the menu and the orders are what they
    were. *)
Ltac same_catalog := first [split; assumption | repeat split; assumption].

(** The invariant of the menu: every reference is in the store, and no two
    dishes on the menu bear the same identifier. *)
Lemma step_catalog_ok a s :
  wf_state s /\ NoDup (catalog_ids s) ->
  wf_state (fst (step a s)) /\ NoDup (catalog_ids (fst (step a s))).
Proof.
  intros [W Hnd]. pose proof W as [Hm Ho].
  destruct a as [op|customer teacher now| | |nm pr cat rt image|item|i|]; simpl.
  - same_catalog.
  - unfold click_place_order.
    destruct (cart s) eqn:Ec; [same_catalog|].
    destruct customer as [|ch customer]; [same_catalog|].
    destruct (list_eq_dec (prod_eq_dec Nat.eq_dec Z.eq_dec) (cart_snapshot s) [])
      as [Es|Es].
    + rewrite (place_order_empty _ _ _ _ Es). same_catalog.
    + rewrite place_order_nonempty by assumption. simpl.
      split; [split; [assumption|] | assumption]. simpl.
      apply Forall_app. split; [assumption|]. constructor; [|constructor].
      simpl. rewrite Forall_forall. intros ln Hln.
      apply cart_snapshot_refs in Hln.
      rewrite Forall_forall in Hm. now apply Hm.
  - destruct (show_quick_recommendations_effect s) as [E|[E|E]]; rewrite E;
      same_catalog.
  - same_catalog.
  - destruct (String.eqb nm EmptyString) eqn:En.
    { apply String.eqb_eq in En. rewrite add_dish_rejected by now left.
      same_catalog. }
    destruct (PrimFloat.ltb 0 pr) eqn:Ep.
    2:{ rewrite add_dish_rejected by now right. same_catalog. }
    rewrite add_dish_accepted; [|intros ->; discriminate|assumption].
    simpl. split; [split|]; simpl.
    + apply Forall_app. split.
      * eapply Forall_impl; [|exact Hm]. intros r Hr. simpl in Hr.
        rewrite length_app. simpl. lia.
      * constructor; [|constructor]. rewrite length_app. simpl. lia.
    + eapply Forall_impl; [|exact Ho]. intros o Hitems. simpl in Hitems.
      eapply Forall_impl; [|exact Hitems]. intros ln Hln. simpl in Hln.
      rewrite length_app. simpl. lia.
    + unfold catalog_ids. simpl. rewrite map_app. simpl.
      rewrite deref_new. simpl. rewrite catalog_ids_alloc by assumption.
      fold (catalog_ids s). apply NoDup_snoc; [assumption|].
      intros Hin. apply (max_default_ge _ 0) in Hin. lia.
  - unfold delete_dish.
    destruct (existsb (Nat.eqb item) (menu_items s)); [|same_catalog].
    simpl. split; [split|]; simpl.
    + rewrite Forall_forall in *. intros r Hr. apply Hm.
      now apply list_remove_incl in Hr.
    + assumption.
    + unfold catalog_ids. simpl. now apply list_remove_NoDup_map.
  - unfold delete_order.
    destruct (Nat.ltb i (List.length (orders s))
              && Nat.leb (List.length (orders s) - 10) i);
      [|same_catalog].
    simpl. split; [split|]; simpl; try assumption.
    rewrite Forall_forall in *. intros o Hin. apply Ho.
    now apply In_list_remove_at in Hin.
  - same_catalog.
Qed.

Lemma run_catalog_ok acts : forall s,
  wf_state s /\ NoDup (catalog_ids s) ->
  wf_state (fst (run acts s)) /\ NoDup (catalog_ids (fst (run acts s))).
Proof.
  induction acts as [|a acts IH]; intros s H; [exact H|].
  rewrite run_cons. simpl fst. apply IH. now apply step_catalog_ok.
Qed.

Lemma init_catalog_ok images :
  wf_state (initialize_session_state images) /\
  NoDup (catalog_ids (initialize_session_state images)).
Proof.
  split; [split|].
  - simpl. repeat constructor.
  - constructor.
  - change (catalog_ids (initialize_session_state images))
      with [1; 2; 3; 4; 5; 6; 7; 8].
    repeat constructor; simpl; intuition lia.
Qed.

(** ** Menu identifiers *)

(** C4, the claim as stated fails: after Ice Cream (identifier 8) is deleted,
    the next dish added is given the identifier 8 again. *)
Lemma menu_identifier_is_assigned_twice :
  assigned_ids reuse_state = [1; 2; 3; 4; 5; 6; 7; 8; 8] /\
  map name (skipn 7 (heap reuse_state)) = ["Ice Cream"; "Kulfi"]%string /\
  ~ NoDup (assigned_ids reuse_state).
Proof.
  split; [reflexivity|]. split; [reflexivity|].
  intros H. change (assigned_ids reuse_state) with ([1; 2; 3; 4; 5; 6; 7] ++ 8 :: [8]) in H.
  apply NoDup_remove_2 in H. apply H. apply in_or_app. right. now left.
Qed.

(** C4, amended.  In every state [s] reached from a fresh session, no two
    dishes on the menu bear the same identifier, and [Add Dish] with a name
    and a positive price appends one new dish whose identifier is the largest
    identifier on the menu (0 when the menu is empty) plus one, above all of
    them, and leaves the menu free of duplicates; with a blank name, or with
    a price that is not positive, it shows the error [Fill required fields]
    and changes nothing.  (Identifiers of deleted dishes are not
    remembered.) *)
Theorem add_dish_assigns_max_plus_one
  (images : Z -> option string) (acts : list action)
  (nm : string) (pr : float) (cat : string) (rt : float) (image : option string) :
  let s := fst (run acts (initialize_session_state images)) in
  let new_id := Py.max_default (catalog_ids s) 0 + 1 in
  let s' := fst (add_dish nm pr cat rt image s) in
  NoDup (catalog_ids s) /\
  Forall (fun i => i < new_id) (catalog_ids s) /\
  (nm <> EmptyString -> PrimFloat.ltb 0 pr = true ->
     menu_items s' = menu_items s ++ [List.length (heap s)] /\
     deref (heap s') (List.length (heap s))
       = mkMenuItem new_id nm pr rt image cat [] /\
     catalog_ids s' = catalog_ids s ++ [new_id] /\
     NoDup (catalog_ids s') /\
     orders s' = orders s /\ cart s' = cart s) /\
  (nm = EmptyString \/ PrimFloat.ltb 0 pr = false ->
     add_dish nm pr cat rt image s = (s, [EvError "Fill required fields"])).
Proof.
  intros s new_id s'.
  destruct (run_catalog_ok acts _ (init_catalog_ok images)) as [W Hnd].
  fold s in W, Hnd.
  split; [exact Hnd|]. split; [|split].
  - rewrite Forall_forall. intros i Hi.
    apply (max_default_ge _ 0) in Hi. unfold new_id. lia.
  - intros Hn Hp.
    assert (Hok := step_catalog_ok (AAddDish nm pr cat rt image) s (conj W Hnd)).
    simpl in Hok. fold s' in Hok.
    unfold s'. rewrite add_dish_accepted by assumption. simpl.
    split; [reflexivity|]. split; [apply deref_new|].
    assert (E : catalog_ids (fst (add_dish nm pr cat rt image s))
                = catalog_ids s ++ [new_id]).
    { rewrite add_dish_accepted by assumption. unfold catalog_ids. simpl.
      rewrite map_app. simpl. rewrite deref_new. simpl.
      destruct W as [Hm _]. now rewrite catalog_ids_alloc by assumption. }
    rewrite add_dish_accepted in E by assumption. simpl in E.
    split; [exact E|]. split; [|split; reflexivity].
    unfold s' in Hok. rewrite add_dish_accepted in Hok by assumption.
    exact (proj2 Hok).
  - apply add_dish_rejected.
Qed.

Lemma add_dish_assigns_max_plus_one_witness :
  let s := fst (run [ADeleteDish 7%nat] (initialize_session_state (fun _ => None))) in
  let s' := fst (add_dish "Kulfi" 40 "Dessert" 4.5 None s) in
  catalog_ids s = [1; 2; 3; 4; 5; 6; 7] /\
  NoDup (catalog_ids s) /\
  Forall (fun i => i < 8) (catalog_ids s) /\
  catalog_ids s' = catalog_ids s ++ [8] /\
  NoDup (catalog_ids s') /\
  add_dish "Kulfi" 0 "Dessert" 4.5 None s = (s, [EvError "Fill required fields"]) /\
  add_dish EmptyString 40 "Dessert" 4.5 None s
    = (s, [EvError "Fill required fields"]).
Proof.
  destruct (add_dish_assigns_max_plus_one (fun _ => None) [ADeleteDish 7%nat]
              "Kulfi" 40 "Dessert" 4.5 None) as (H1 & H2 & H3 & _).
  destruct (add_dish_assigns_max_plus_one (fun _ => None) [ADeleteDish 7%nat]
              "Kulfi" 0 "Dessert" 4.5 None) as (_ & _ & _ & H4).
  destruct (add_dish_assigns_max_plus_one (fun _ => None) [ADeleteDish 7%nat]
              EmptyString 40 "Dessert" 4.5 None) as (_ & _ & _ & H7).
  destruct H3 as (_ & _ & H5 & H6 & _); [discriminate | reflexivity |].
  split; [reflexivity|]. split; [exact H1|]. split; [exact H2|].
  split; [exact H5|]. split; [exact H6|].
  split; [apply H4; right; reflexivity | apply H7; left; reflexivity].
Defined.

(** ** Orders and the objects of the menu *)

(** C2, the claim as stated fails: the lines of the order placed in the
    scenario hold the very objects that the menu holds (references 0 and 1 of
    the store), not copies of them. *)
Lemma order_lines_are_live_references :
  orders (fst scenario_first) = [scenario_order] /\
  menu_items (fst scenario_first) = [0%nat; 1%nat] /\
  map fst (items scenario_order) = [0%nat; 1%nat] /\
  ~ (forall l, In l (items scenario_order) ->
       ~ In (fst l) (menu_items (fst scenario_first))).
Proof.
  split; [vm_compute; reflexivity|]. split; [reflexivity|]. split; [reflexivity|].
  intros H. apply (H (0%nat, 2)); simpl; auto.
Qed.

Lemma step_catalog_edit_heap a s :
  catalog_edit a ->
  orders (fst (step a s)) = orders s /\
  exists extra, heap (fst (step a s)) = heap s ++ extra.
Proof.
  destruct a as [op|customer teacher now| | |nm pr cat rt image|item|i|];
    simpl; try contradiction; intros _.
  - unfold add_dish.
    destruct (negb (String.eqb nm EmptyString) && PrimFloat.ltb 0 pr); simpl.
    + split; [reflexivity|]. eexists. reflexivity.
    + split; [reflexivity|]. exists []. now rewrite app_nil_r.
  - unfold delete_dish.
    destruct (existsb (Nat.eqb item) (menu_items s)); simpl;
      (split; [reflexivity|]; exists []; now rewrite app_nil_r).
Qed.

Lemma run_catalog_edits_heap acts : forall s,
  Forall catalog_edit acts ->
  orders (fst (run acts s)) = orders s /\
  exists extra, heap (fst (run acts s)) = heap s ++ extra.
Proof.
  induction acts as [|a acts IH]; intros s H.
  - simpl. split; [reflexivity|]. exists []. now rewrite app_nil_r.
  - inversion H as [|? ? Ha Hacts]; subst. rewrite run_cons. simpl fst.
    destruct (IH (fst (step a s)) Hacts) as [Eo [extra2 Eh]].
    destruct (step_catalog_edit_heap a s Ha) as [Eo1 [extra1 Eh1]].
    split; [congruence|]. exists (extra1 ++ extra2).
    rewrite Eh, Eh1. now rewrite app_assoc.
Qed.

Lemma deref_extend h extra r :
  (r < List.length h)%nat -> deref (h ++ extra) r = deref h r.
Proof. intros H. unfold deref. now apply app_nth1. Qed.

Lemma line_str_extend h extra ls :
  Forall (fun l => (fst l < List.length h)%nat) ls ->
  map (line_str (h ++ extra)) ls = map (line_str h) ls.
Proof.
  intros H. apply map_ext_in. intros l Hl. rewrite Forall_forall in H.
  unfold line_str. now rewrite deref_extend by now apply H.
Qed.

(** C2, amended.  The lines of an order hold references to the menu's own
    [MenuItem] objects (every line that [place_order] captures is an object on
    the menu at that time).  Deleting dishes from the menu, or adding dishes,
    removes or adds references in [menu_items] and changes no object: every
    order of the ledger is still there, the same record (so the same total),
    and its lines read the same names and quantities in the reports. *)
Theorem orders_unchanged_by_catalog_edits
  (s : AppState) (acts : list action) (o : OrderHistory) :
  wf_state s -> Forall catalog_edit acts -> In o (orders s) ->
  let s' := fst (run acts s) in
  (forall l, In l (cart_snapshot s) -> In (fst l) (menu_items s)) /\
  orders s' = orders s /\
  In o (orders s') /\
  order_lines (heap s') (items o) = order_lines (heap s) (items o) /\
  items_str (heap s') o = items_str (heap s) o /\
  pdf_line (heap s') o = pdf_line (heap s) o.
Proof.
  intros [_ Ho] Hacts Hin s'.
  destruct (run_catalog_edits_heap acts s Hacts) as [Eo [extra Eh]].
  fold s' in Eo, Eh.
  rewrite Forall_forall in Ho. specialize (Ho o Hin).
  split; [intros l; apply cart_snapshot_refs|].
  split; [exact Eo|]. split; [now rewrite Eo|].
  rewrite Eh. split; [|split].
  - unfold order_lines. apply map_ext_in. intros l Hl.
    rewrite Forall_forall in Ho. now rewrite deref_extend by now apply Ho.
  - unfold items_str. now rewrite line_str_extend.
  - unfold pdf_line. now rewrite line_str_extend.
Qed.

Lemma orders_unchanged_by_catalog_edits_witness :
  let s := fst scenario_first in
  let s' := fst (run [ADeleteDish 0%nat] s) in
  (menu_items s' = [1%nat] /\ items_str (heap s') scenario_order
     = "Burgerx2; Coffeex1"%string) /\
  (forall l, In l (cart_snapshot s) -> In (fst l) (menu_items s)) /\
  orders s' = orders s /\
  In scenario_order (orders s') /\
  order_lines (heap s') (items scenario_order)
    = order_lines (heap s) (items scenario_order) /\
  items_str (heap s') scenario_order = items_str (heap s) scenario_order /\
  pdf_line (heap s') scenario_order = pdf_line (heap s) scenario_order.
Proof.
  split; [split; reflexivity|].
  apply (orders_unchanged_by_catalog_edits (fst scenario_first)
           [ADeleteDish 0%nat] scenario_order).
  - split; simpl; repeat constructor.
  - repeat constructor.
  - left. vm_compute. reflexivity.
Defined.

(** ** Sorting *)

Section SortedDesc.
Context {A : Type} (key : A -> Z).

Lemma insert_desc_perm x l : Permutation (Py.insert_desc key x l) (x :: l).
Proof.
  induction l as [|y l IH]; simpl; [reflexivity|].
  destruct (key x <? key y); [|reflexivity].
  rewrite IH. apply perm_swap.
Qed.

Lemma sorted_desc_perm l : Permutation (Py.sorted_desc key l) l.
Proof.
  induction l as [|x l IH]; simpl; [reflexivity|].
  rewrite insert_desc_perm. now constructor.
Qed.

Lemma insert_desc_sorted x l :
  StronglySorted (fun a b => key b <= key a) l ->
  StronglySorted (fun a b => key b <= key a) (Py.insert_desc key x l).
Proof.
  induction 1 as [|y l Hs IH Hy]; simpl.
  - repeat constructor.
  - destruct (key x <? key y) eqn:E.
    + apply Z.ltb_lt in E. constructor; [assumption|].
      rewrite Forall_forall in *. intros z Hz.
      apply (Permutation_in _ (insert_desc_perm x l)) in Hz.
      destruct Hz as [<-|Hz]; [lia | now apply Hy].
    + apply Z.ltb_ge in E. constructor; [now constructor|].
      constructor; [assumption|].
      rewrite Forall_forall in *. intros z Hz. specialize (Hy z Hz). lia.
Qed.

Lemma sorted_desc_sorted l :
  StronglySorted (fun a b => key b <= key a) (Py.sorted_desc key l).
Proof.
  induction l as [|x l IH]; simpl; [constructor | now apply insert_desc_sorted].
Qed.

(** The sort is stable: elements of equal key keep their order. *)
Lemma insert_desc_stable k x l :
  filter (fun a => key a =? k) (Py.insert_desc key x l)
    = filter (fun a => key a =? k) (x :: l).
Proof.
  induction l as [|y l IH]; [reflexivity|].
  simpl Py.insert_desc. destruct (key x <? key y) eqn:E; [|reflexivity].
  apply Z.ltb_lt in E. simpl in *. rewrite IH.
  destruct (key x =? k) eqn:Ex, (key y =? k) eqn:Ey; try reflexivity.
  apply Z.eqb_eq in Ex, Ey. lia.
Qed.

Lemma sorted_desc_stable k l :
  filter (fun a => key a =? k) (Py.sorted_desc key l)
    = filter (fun a => key a =? k) l.
Proof.
  induction l as [|x l IH]; [reflexivity|].
  simpl Py.sorted_desc. rewrite insert_desc_stable. simpl. now rewrite IH.
Qed.

End SortedDesc.

(** ** The tally of [get_popular_items] *)

Lemma item_counts_flat h os : forall c,
  fold_left (fun counts o => fold_left (tally h) (items o) counts) os c
    = fold_left (tally h) (all_lines os) c.
Proof.
  unfold all_lines.
  induction os as [|o os IH]; intros c; simpl; [reflexivity|].
  now rewrite fold_left_app, IH.
Qed.


Lemma dict_set_keys {V} (d : Py.dict V) k v :
  map fst (Py.dict_set d k v)
    = if Py.dict_mem d k then map fst d else map fst d ++ [k].
Proof.
  unfold Py.dict_mem. induction d as [|[k' v'] d IH]; simpl; [reflexivity|].
  destruct (k' =? k) eqn:E; simpl.
  - apply Z.eqb_eq in E. now subst.
  - rewrite IH. now destruct (existsb _ d).
Qed.

Lemma dict_set_keys_NoDup {V} (d : Py.dict V) k v :
  NoDup (map fst d) -> NoDup (map fst (Py.dict_set d k v)).
Proof.
  intros H. rewrite dict_set_keys.
  destruct (Py.dict_mem d k) eqn:M; [assumption|].
  apply NoDup_snoc; [assumption|]. intros Hin.
  apply in_map_iff in Hin. destruct Hin as [[k' v'] [E Hin]]. simpl in E. subst k'.
  assert (Py.dict_mem d k = true) by (apply dict_mem_true_iff; now exists v').
  congruence.
Qed.


Lemma dict_set_not_nil {V} (d : Py.dict V) k v : Py.dict_set d k v <> [].
Proof. destruct d as [|[k' v'] d]; simpl; [|destruct (k' =? k)]; discriminate. Qed.

Lemma tally_not_nil h ls : forall c, c <> [] -> fold_left (tally h) ls c <> [].
Proof.
  induction ls as [|l ls IH]; intros c H; simpl; [assumption|].
  apply IH. apply dict_set_not_nil.
Qed.

Lemma item_counts_nil_iff h os : item_counts h os = [] <-> all_lines os = [].
Proof.
  unfold item_counts. rewrite item_counts_flat. split.
  - destruct (all_lines os) as [|l ls]; [reflexivity|]. simpl. intros H.
    exfalso. revert H. apply tally_not_nil, dict_set_not_nil.
  - now intros ->.
Qed.


Lemma slice_to_nonneg {A} (l : list A) n :
  0 <= n -> Py.slice_to l n = firstn (Z.to_nat n) l.
Proof.
  intros H. unfold Py.slice_to.
  destruct (0 <=? n) eqn:E; [reflexivity|]. apply Z.leb_gt in E. lia.
Qed.

(** ** Popular items *)

(** The call behind the cache.  A stored answer is given back, whoever calls
    and whatever the menu and the ledger have become. *)
Lemma cached_call_hit current limit r s :
  cache_answers limit r s ->
  cached_get_popular_items current limit s = (Returns r, s).
Proof.
  intros (e & Hf & <-). unfold cached_get_popular_items. now rewrite Hf.
Qed.

(** Without a stored answer the body runs; its result is returned and stored
    when it pickles, and the call raises otherwise. *)
Lemma cached_call_miss current limit s :
  find (fun e => fst e =? limit) (popular_cache s) = None ->
  let popular_items :=
    get_popular_items (heap s) (menu_items s) (orders s) limit in
  cached_get_popular_items current limit s
    = if pickles current popular_items
      then (Returns (map (deref (heap s)) popular_items),
            set_cache ((limit, map (deref (heap s)) popular_items)
                         :: popular_cache s) s)
      else (Raises UnserializableReturnValueError, s).
Proof.
  intros Hf. unfold cached_get_popular_items. rewrite Hf. reflexivity.
Qed.

(** A call that returns leaves its answer in the cache. *)
Lemma cached_call_stores current limit r s :
  fst (cached_get_popular_items current limit s) = Returns r ->
  cache_answers limit r (snd (cached_get_popular_items current limit s)).
Proof.
  unfold cached_get_popular_items, cache_answers.
  destruct (find (fun e => fst e =? limit) (popular_cache s)) as [e|] eqn:Ef.
  - simpl. intros [= <-]. exists e. split; [exact Ef | reflexivity].
  - destruct (pickles current _); simpl; [|discriminate].
    intros [= <-]. rewrite Z.eqb_refl. eexists. split; reflexivity.
Qed.

(** A call that raises leaves the session as it was. *)
Lemma cached_call_raises current limit exc s :
  fst (cached_get_popular_items current limit s) = Raises exc ->
  cached_get_popular_items current limit s
    = (Raises UnserializableReturnValueError, s).
Proof.
  unfold cached_get_popular_items.
  destruct (find (fun e => fst e =? limit) (popular_cache s)); [discriminate|].
  destruct (pickles current _); [discriminate | reflexivity].
Qed.

(** A call keeps the answers that the cache holds. *)
Lemma cached_call_keeps current limit limit' r s :
  cache_answers limit r s ->
  cache_answers limit r (snd (cached_get_popular_items current limit' s)).
Proof.
  intros (e & Hf & He). unfold cached_get_popular_items.
  destruct (find (fun e => fst e =? limit') (popular_cache s)) as [e'|] eqn:Ef'; simpl.
  - exists e. split; assumption.
  - destruct (pickles current _); simpl; [|exists e; split; assumption].
    exists e. split; [|assumption]. unfold cache_answers. simpl.
    destruct (Z.eqb_spec limit' limit) as [->|Hne]; [congruence | exact Hf].
Qed.




(** ** Reading back what the CSV writer wrote *)

Lemma append_assoc (a b c : string) : ((a ++ b) ++ c = a ++ (b ++ c))%string.
Proof. induction a as [|x a IH]; simpl; [reflexivity | now rewrite IH]. Qed.

Lemma append_nil_r (a : string) : (a ++ EmptyString)%string = a.
Proof. induction a as [|x a IH]; simpl; [reflexivity | now rewrite IH]. Qed.

Lemma string_of_rev_acc (f : string) (acc : list ascii) :
  string_of_list_ascii (rev (rev (list_ascii_of_string f) ++ acc))
    = (string_of_list_ascii (rev acc) ++ f)%string.
Proof.
  rewrite rev_app_distr, rev_involutive.
  induction (rev acc) as [|x l IH]; simpl.
  - apply string_of_list_ascii_of_string.
  - now rewrite IH.
Qed.

(** Inside quotes the reader takes every character, a doubled quote for
    one, up to the closing quote. *)
Lemma read_quoted (f : string) : forall acc row rest,
  Csv.read Csv.InQuoted acc row
    (Csv.double_quotes f ++ String Csv.dquote rest)
  = Csv.read Csv.QuoteInQuoted (rev (list_ascii_of_string f) ++ acc) row rest.
Proof.
  induction f as [|c f IH]; intros acc row rest.
  - reflexivity.
  - simpl Csv.double_quotes. destruct (Ascii.eqb c Csv.dquote) eqn:E.
    + apply Ascii.eqb_eq in E. subst c. simpl. rewrite IH.
      now rewrite <- app_assoc.
    + simpl. rewrite E. rewrite IH. now rewrite <- app_assoc.
Qed.

(** Outside quotes the reader takes every character that is neither the
    delimiter nor a line break. *)
Lemma read_unquoted (f : string) : forall acc row rest,
  Csv.needs_quotes f = false -> no_line_break f = true ->
  Csv.read Csv.InField acc row (f ++ rest)
  = Csv.read Csv.InField (rev (list_ascii_of_string f) ++ acc) row rest.
Proof.
  induction f as [|c f IH]; intros acc row rest Hq Hb.
  - reflexivity.
  - simpl in Hq, Hb. apply orb_false_iff in Hq. destruct Hq as [Hc Hq].
    apply andb_true_iff in Hb. destruct Hb as [Hb Hb'].
    apply andb_true_iff in Hb. destruct Hb as [Hlf Hcr].
    apply negb_true_iff in Hlf, Hcr.
    unfold Csv.special in Hc.
    apply orb_false_iff in Hc. destruct Hc as [Hc _].
    apply orb_false_iff in Hc. destruct Hc as [Hcomma _].
    simpl. rewrite Hlf, Hcr, Hcomma. rewrite IH by assumption.
    now rewrite <- app_assoc.
Qed.

(** The reader's moves on the characters that end a field. *)
Lemma read_start_dquote row s :
  Csv.read Csv.StartField [] row (String Csv.dquote s)
    = Csv.read Csv.InQuoted [] row s.
Proof. reflexivity. Qed.

Lemma read_start_comma row s :
  Csv.read Csv.StartField [] row (String Csv.comma s)
    = Csv.read Csv.StartField [] (EmptyString :: row) s.
Proof. reflexivity. Qed.

Lemma read_start_lf row s :
  Csv.read Csv.StartField [] row (String Csv.LF s)
    = rev (EmptyString :: row) :: Csv.read Csv.StartRecord [] [] s.
Proof. reflexivity. Qed.

Lemma read_closed_comma fld row s :
  Csv.read Csv.QuoteInQuoted fld row (String Csv.comma s)
    = Csv.read Csv.StartField [] (Csv.save fld row) s.
Proof. reflexivity. Qed.

Lemma read_closed_lf fld row s :
  Csv.read Csv.QuoteInQuoted fld row (String Csv.LF s)
    = rev (Csv.save fld row) :: Csv.read Csv.StartRecord [] [] s.
Proof. reflexivity. Qed.

Lemma read_infield_comma fld row s :
  Csv.read Csv.InField fld row (String Csv.comma s)
    = Csv.read Csv.StartField [] (Csv.save fld row) s.
Proof. reflexivity. Qed.

Lemma read_infield_lf fld row s :
  Csv.read Csv.InField fld row (String Csv.LF s)
    = rev (Csv.save fld row) :: Csv.read Csv.StartRecord [] [] s.
Proof. reflexivity. Qed.

(** A first character that needs no quote and is no line break opens an
    unquoted field. *)
Lemma read_start_plain c f row s :
  Csv.needs_quotes (String c f) = false -> no_line_break (String c f) = true ->
  Csv.read Csv.StartField [] row (String c s) = Csv.read Csv.InField [c] row s.
Proof.
  intros Hq Hb.
  simpl in Hq, Hb. apply orb_false_iff in Hq. destruct Hq as [Hc Hq].
  apply andb_true_iff in Hb. destruct Hb as [Hb Hb'].
  apply andb_true_iff in Hb. destruct Hb as [Hlf Hcr].
  apply negb_true_iff in Hlf, Hcr.
  unfold Csv.special in Hc.
  apply orb_false_iff in Hc. destruct Hc as [Hc Hlf'].
  apply orb_false_iff in Hc. destruct Hc as [Hcomma Hdq].
  cbn [Csv.read Csv.next]. unfold Csv.at_start_field.
  now rewrite Hlf, Hcr, Hdq, Hcomma.
Qed.

Lemma plain_tail c f :
  Csv.needs_quotes (String c f) = false -> no_line_break (String c f) = true ->
  Csv.needs_quotes f = false /\ no_line_break f = true.
Proof.
  simpl. intros Hq Hb. apply orb_false_iff in Hq.
  apply andb_true_iff in Hb. now split.
Qed.

(** A written field, up to the character that ends it: the reader is in a
    field, quoted or not, holding the text of the field. *)
Lemma read_field (f : string) (row : list string) (d : ascii) (rest : string) :
  no_line_break f = true ->
  f <> EmptyString ->
  exists st fld,
    Csv.read Csv.StartField [] row (Csv.write_field f ++ String d rest)
      = Csv.read st fld row (String d rest) /\
    (st = Csv.InField \/ st = Csv.QuoteInQuoted) /\
    Csv.save fld row = f :: row.
Proof.
  intros Hb Hne. unfold Csv.write_field.
  destruct (Csv.needs_quotes f) eqn:Hq.
  - exists Csv.QuoteInQuoted, (rev (list_ascii_of_string f) ++ []).
    split; [|split; [now right|]].
    + cbn [String.append]. rewrite append_assoc. cbn [String.append].
      rewrite read_start_dquote. apply read_quoted.
    + unfold Csv.save. now rewrite string_of_rev_acc.
  - destruct f as [|c f]; [congruence|].
    exists Csv.InField, (rev (list_ascii_of_string f) ++ [c]).
    split; [|split; [now left|]].
    + cbn [String.append]. rewrite (read_start_plain c f) by assumption.
      destruct (plain_tail c f Hq Hb) as [Hq' Hb'].
      now apply read_unquoted.
    + unfold Csv.save. now rewrite (string_of_rev_acc f [c]).
Qed.

(** A written field followed by the delimiter: the reader saves the field
    and starts the next one. *)
Lemma read_field_comma (f : string) (row : list string) (rest : string) :
  no_line_break f = true ->
  Csv.read Csv.StartField [] row
    (Csv.write_field f ++ String Csv.comma rest)
  = Csv.read Csv.StartField [] (f :: row) rest.
Proof.
  intros Hb. destruct f as [|c f].
  - reflexivity.
  - destruct (read_field (String c f) row Csv.comma rest Hb) as (st & fld & E & Hst & Hs);
      [discriminate|].
    rewrite E. destruct Hst as [->| ->].
    + now rewrite read_infield_comma, Hs.
    + now rewrite read_closed_comma, Hs.
Qed.

(** A written field followed by the line end: the reader saves the field
    and hands over the record. *)
Lemma read_field_lf (f : string) (row : list string) (rest : string) :
  no_line_break f = true ->
  Csv.read Csv.StartField [] row
    (Csv.write_field f ++ String Csv.LF rest)
  = rev (f :: row) :: Csv.read Csv.StartRecord [] [] rest.
Proof.
  intros Hb. destruct f as [|c f].
  - reflexivity.
  - destruct (read_field (String c f) row Csv.LF rest Hb) as (st & fld & E & Hst & Hs);
      [discriminate|].
    rewrite E. destruct Hst as [->| ->].
    + now rewrite read_infield_lf, Hs.
    + now rewrite read_closed_lf, Hs.
Qed.

Lemma no_line_break_app a b :
  no_line_break (a ++ b) = no_line_break a && no_line_break b.
Proof.
  induction a as [|c a IH]; simpl; [reflexivity|].
  rewrite IH. now rewrite andb_assoc.
Qed.

Lemma join_cons2 sep x y l :
  Csv.join sep (x :: y :: l) = (x ++ sep ++ Csv.join sep (y :: l))%string.
Proof. reflexivity. Qed.

(** A written row of plain fields is read back as these fields. *)
Lemma read_fields (fs : list string) : forall row rest,
  fs <> [] -> Forall (fun f => no_line_break f = true) fs ->
  Csv.read Csv.StartField [] row
    (Csv.join (String Csv.comma EmptyString) (map Csv.write_field fs)
       ++ String Csv.LF rest)
  = (rev row ++ fs) :: Csv.read Csv.StartRecord [] [] rest.
Proof.
  induction fs as [|f fs IH]; intros row rest Hne Hp; [congruence|].
  inversion Hp as [|? ? Hf Hfs]; subst.
  destruct fs as [|f2 fs].
  - simpl map. simpl Csv.join. now rewrite read_field_lf.
  - simpl map. rewrite join_cons2. rewrite !append_assoc. cbn [String.append].
    rewrite read_field_comma by assumption.
    change (Csv.write_field f2 :: map Csv.write_field fs)
      with (map Csv.write_field (f2 :: fs)).
    rewrite IH by (assumption || discriminate).
    simpl rev. now rewrite <- app_assoc.
Qed.

Lemma read_record_start c s :
  Ascii.eqb c Csv.LF = false -> Ascii.eqb c Csv.CR = false ->
  Csv.read Csv.StartRecord [] [] (String c s)
    = Csv.read Csv.StartField [] [] (String c s).
Proof.
  intros Hlf Hcr. cbn [Csv.read Csv.next]. unfold Csv.at_start_record.
  now rewrite Hlf, Hcr.
Qed.

Lemma write_field_head f rest :
  f <> EmptyString -> no_line_break f = true ->
  exists c s, (Csv.write_field f ++ rest)%string = String c s /\
              Ascii.eqb c Csv.LF = false /\ Ascii.eqb c Csv.CR = false.
Proof.
  intros Hne Hb. unfold Csv.write_field. destruct (Csv.needs_quotes f).
  - eexists _, _. cbn [String.append]. repeat split.
  - destruct f as [|c f]; [congruence|].
    simpl in Hb. apply andb_true_iff in Hb. destruct Hb as [Hb _].
    apply andb_true_iff in Hb. destruct Hb as [Hlf Hcr].
    apply negb_true_iff in Hlf, Hcr.
    exists c, (f ++ rest)%string. now repeat split.
Qed.

(** [reader] inverts [write_row] on rows of plain fields. *)
Lemma read_row (fs : list string) (rest : string) :
  fs <> [] -> Forall (fun f => no_line_break f = true) fs ->
  Csv.read Csv.StartRecord [] [] (Csv.write_row fs ++ rest)
    = fs :: Csv.read Csv.StartRecord [] [] rest.
Proof.
  intros Hne Hp. destruct fs as [|f fs]; [congruence|].
  inversion Hp as [|? ? Hf Hfs]; subst.
  destruct f as [|c f].
  - destruct fs as [|f2 fs]; [reflexivity|].
    unfold Csv.write_row. rewrite append_assoc. cbn [String.append].
    simpl map. rewrite join_cons2. cbn [Csv.write_field Csv.needs_quotes].
    cbn [String.append].
    rewrite read_record_start by reflexivity.
    rewrite read_start_comma.
    change (Csv.write_field f2 :: map Csv.write_field fs)
      with (map Csv.write_field (f2 :: fs)).
    now rewrite read_fields by (assumption || discriminate).
  - assert (E : Csv.write_row (String c f :: fs)
                = (Csv.join (String Csv.comma EmptyString)
                     (map Csv.write_field (String c f :: fs))
                   ++ String Csv.LF EmptyString)%string) by reflexivity.
    rewrite E, append_assoc. cbn [String.append].
    assert (H : exists c' s',
               (Csv.join (String Csv.comma EmptyString)
                  (map Csv.write_field (String c f :: fs))
                ++ String Csv.LF rest)%string = String c' s' /\
               Ascii.eqb c' Csv.LF = false /\ Ascii.eqb c' Csv.CR = false).
    { destruct fs as [|f2 fs].
      - simpl map. simpl Csv.join. apply write_field_head; [discriminate|assumption].
      - simpl map. rewrite join_cons2, append_assoc.
        apply write_field_head; [discriminate|assumption]. }
    destruct H as (c' & s' & Es & Hlf & Hcr).
    rewrite Es, read_record_start by assumption. rewrite <- Es.
    now rewrite read_fields by (assumption || discriminate).
Qed.

Lemma concat_cons_empty x l :
  String.concat EmptyString (x :: l) = (x ++ String.concat EmptyString l)%string.
Proof.
  destruct l as [|y l]; simpl; [now rewrite append_nil_r | reflexivity].
Qed.

Lemma read_rows (rows : list (list string)) :
  Forall (fun fs => fs <> [] /\ Forall (fun f => no_line_break f = true) fs) rows ->
  Csv.read Csv.StartRecord [] [] (Csv.write_rows rows) = rows.
Proof.
  unfold Csv.write_rows.
  induction 1 as [|fs rows [Hne Hp] _ IH]; [reflexivity|].
  simpl map. rewrite concat_cons_empty, read_row by assumption.
  now rewrite IH.
Qed.

(** ** Counting the lines *)

Lemma count_lines_app a b :
  Csv.count_lines (a ++ b) = (Csv.count_lines a + Csv.count_lines b)%nat.
Proof.
  induction a as [|c a IH]; simpl; [reflexivity|].
  destruct (Ascii.eqb c Csv.LF); simpl; now rewrite IH.
Qed.

Lemma count_lines_plain f : no_line_break f = true -> Csv.count_lines f = O.
Proof.
  induction f as [|c f IH]; simpl; [reflexivity|].
  intros H. apply andb_true_iff in H. destruct H as [H H'].
  apply andb_true_iff in H. destruct H as [Hlf _].
  apply negb_true_iff in Hlf. rewrite Hlf. now apply IH.
Qed.

Lemma count_lines_double_quotes f :
  Csv.count_lines (Csv.double_quotes f) = Csv.count_lines f.
Proof.
  induction f as [|c f IH]; simpl; [reflexivity|].
  destruct (Ascii.eqb c Csv.dquote) eqn:E.
  - apply Ascii.eqb_eq in E. subst c. simpl. exact IH.
  - simpl. now rewrite IH.
Qed.

Lemma count_lines_field f :
  no_line_break f = true -> Csv.count_lines (Csv.write_field f) = O.
Proof.
  intros H. unfold Csv.write_field. destruct (Csv.needs_quotes f).
  - change (String Csv.dquote (Csv.double_quotes f ++ String Csv.dquote EmptyString))
      with (String Csv.dquote EmptyString
              ++ (Csv.double_quotes f ++ String Csv.dquote EmptyString))%string.
    rewrite !count_lines_app, count_lines_double_quotes.
    rewrite (count_lines_plain f H). reflexivity.
  - now apply count_lines_plain.
Qed.

Lemma count_lines_join fs :
  Forall (fun f => no_line_break f = true) fs ->
  Csv.count_lines
    (Csv.join (String Csv.comma EmptyString) (map Csv.write_field fs)) = O.
Proof.
  induction 1 as [|f fs Hf Hfs IH]; [reflexivity|].
  destruct fs as [|f2 fs].
  - simpl. now apply count_lines_field.
  - simpl map. rewrite join_cons2, !count_lines_app.
    rewrite count_lines_field by assumption. simpl map in IH. now rewrite IH.
Qed.

Lemma count_lines_row fs :
  Forall (fun f => no_line_break f = true) fs ->
  Csv.count_lines (Csv.write_row fs) = 1%nat.
Proof.
  intros Hp. destruct fs as [|f fs]; [reflexivity|].
  destruct f as [|c f].
  - destruct fs as [|f2 fs]; [reflexivity|].
    unfold Csv.write_row. rewrite count_lines_app, count_lines_join by assumption.
    reflexivity.
  - unfold Csv.write_row. rewrite count_lines_app, count_lines_join by assumption.
    reflexivity.
Qed.

Lemma count_lines_rows rows :
  Forall (Forall (fun f => no_line_break f = true)) rows ->
  Csv.count_lines (Csv.write_rows rows) = List.length rows.
Proof.
  unfold Csv.write_rows.
  induction 1 as [|fs rows Hp _ IH]; [reflexivity|].
  simpl map. rewrite concat_cons_empty, count_lines_app.
  rewrite count_lines_row by assumption. simpl. now rewrite IH.
Qed.

(** ** The numerals hold no line break *)

Lemma no_line_break_list s :
  no_line_break s = forallb safe_char (list_ascii_of_string s).
Proof. induction s as [|c s IH]; simpl; [reflexivity | now rewrite IH]. Qed.

Lemma no_line_break_of_list l :
  no_line_break (string_of_list_ascii l) = forallb safe_char l.
Proof.
  now rewrite no_line_break_list, list_ascii_of_string_of_list_ascii.
Qed.

Lemma forallb_sub {A} (p : A -> bool) (l l' : list A) :
  (forall x, In x l' -> In x l) -> forallb p l = true -> forallb p l' = true.
Proof.
  intros Hin H. rewrite forallb_forall in *. auto.
Qed.

Lemma In_firstn {A} (l : list A) n x : In x (firstn n l) -> In x l.
Proof.
  intros H. rewrite <- (firstn_skipn n l). apply in_or_app. now left.
Qed.

Lemma In_skipn {A} (l : list A) n x : In x (skipn n l) -> In x l.
Proof.
  intros H. rewrite <- (firstn_skipn n l). apply in_or_app. now right.
Qed.

Lemma In_strip_zeros r x : In x (PyFloat.strip_zeros r) -> In x r.
Proof.
  induction r as [|c r IH]; simpl; [auto|].
  destruct (Ascii.ascii_dec c "0"%char) as [->|Hne].
  - intros H. right. now apply IH.
  - assert (E : PyFloat.strip_zeros (c :: r) = c :: r).
    { destruct c as [[] [] [] [] [] [] [] []]; try reflexivity.
      now contradiction Hne. }
    simpl in E. now rewrite E.
Qed.

Lemma uint_digits_plain d : no_line_break (NilEmpty.string_of_uint d) = true.
Proof. induction d; simpl; auto. Qed.

Lemma str_int_plain z : no_line_break (PyFloat.str_int z) = true.
Proof.
  unfold PyFloat.str_int, NilZero.string_of_int, NilZero.string_of_uint.
  destruct (Z.to_int z) as [d|d]; destruct d; simpl;
    auto using uint_digits_plain.
Qed.

Lemma digit_chars_safe z : forallb safe_char (PyFloat.digit_chars z) = true.
Proof.
  unfold PyFloat.digit_chars. rewrite <- no_line_break_list. apply str_int_plain.
Qed.

Lemma forallb_cons {A} (p : A -> bool) x l :
  forallb p (x :: l) = p x && forallb p l.
Proof. reflexivity. Qed.

Lemma repeat_zero_safe n : forallb safe_char (repeat "0"%char n) = true.
Proof. induction n as [|k IH]; simpl; [reflexivity | exact IH]. Qed.

Lemma format_short_safe d q : forallb safe_char (PyFloat.format_short d q) = true.
Proof.
  unfold PyFloat.format_short.
  set (all := PyFloat.digit_chars d).
  set (ds := rev (PyFloat.strip_zeros (rev all))).
  assert (Hds : forallb safe_char ds = true).
  { apply (forallb_sub _ all).
    - intros x Hx. unfold ds in Hx. apply in_rev in Hx.
      apply In_strip_zeros in Hx. now apply in_rev in Hx.
    - apply digit_chars_safe. }
  assert (Hf : forall n, forallb safe_char (firstn n ds) = true).
  { intros n. apply (forallb_sub _ ds); [intros x; apply In_firstn | exact Hds]. }
  assert (Hs : forall n, forallb safe_char (skipn n ds) = true).
  { intros n. apply (forallb_sub _ ds); [intros x; apply In_skipn | exact Hds]. }
  assert (Hs1 := Hs 1%nat).
  destruct (skipn 1 ds) as [|c1 t1]; rewrite ?forallb_cons in Hs1;
    repeat match goal with
           | |- context [if ?b then _ else _] => destruct b
           end;
    repeat (rewrite forallb_app || rewrite forallb_cons);
    rewrite ?Hds, ?Hf, ?Hs, ?Hs1, ?digit_chars_safe, ?repeat_zero_safe;
    reflexivity.
Qed.

Lemma repr_plain f : no_line_break (PyFloat.repr f) = true.
Proof.
  unfold PyFloat.repr. rewrite no_line_break_of_list.
  destruct (Prim2SF f) as [s|s| |s m e].
  - now destruct s.
  - now destruct s.
  - reflexivity.
  - destruct (PyFloat.shortest m e) as [d q].
    rewrite forallb_app, format_short_safe. now destruct s.
Qed.

Lemma cell_text_float_plain f : no_line_break (cell_text (CFloat f)) = true.
Proof.
  unfold cell_text. destruct (Prim2SF f) eqn:E; try reflexivity;
    apply repr_plain.
Qed.

Lemma join_plain sep l :
  no_line_break sep = true -> Forall (fun s => no_line_break s = true) l ->
  no_line_break (Csv.join sep l) = true.
Proof.
  intros Hsep. induction 1 as [|x l Hx Hl IH]; [reflexivity|].
  destruct l as [|y l]; [exact Hx|].
  rewrite join_cons2, !no_line_break_app, Hx, Hsep. exact IH.
Qed.

Lemma line_str_plain h l :
  no_line_break (name (deref h (fst l))) = true ->
  no_line_break (line_str h l) = true.
Proof.
  intros H. unfold line_str. rewrite !no_line_break_app, H, str_int_plain.
  reflexivity.
Qed.

Lemma csv_fields_plain h o :
  order_texts_plain h o ->
  Forall (fun f => no_line_break f = true) (csv_fields h o).
Proof.
  intros (Hc & Hd & Hi). unfold csv_fields, csv_record.
  cbn [map]. repeat constructor.
  - apply str_int_plain.
  - exact Hc.
  - now destruct (is_teacher o).
  - unfold cell_text, items_str. apply join_plain; [reflexivity|].
    apply Forall_map. eapply Forall_impl; [|exact Hi].
    intros l Hl. now apply line_str_plain.
  - apply cell_text_float_plain.
  - exact Hd.
Qed.

(** [int] reads back what [str] wrote. *)
Lemma int_of_str_int z : PyFloat.int_of_str (PyFloat.str_int z) = Some z.
Proof.
  unfold PyFloat.int_of_str, PyFloat.str_int.
  rewrite NilZero.isi.
  - simpl. now rewrite DecimalZ.of_to.
  - destruct z; simpl; try discriminate.
    intros [= H]. now apply (DecimalPos.Unsigned.to_uint_nonnil p).
  - destruct z; simpl; try discriminate.
    intros [= H]. now apply (DecimalPos.Unsigned.to_uint_nonnil p).
Qed.

(** ** Rounding a rational to the nearest float *)

Lemma pow2_pos e : (0 < PyFloat.pow2 e)%Q.
Proof. unfold PyFloat.pow2. apply Qpower_0_lt. reflexivity. Qed.

Lemma pow2_succ e : (PyFloat.pow2 (e + 1) == 2 * PyFloat.pow2 e)%Q.
Proof.
  unfold PyFloat.pow2. rewrite Qpower_plus by discriminate.
  change ((2 # 1) ^ 1)%Q with (2 # 1)%Q. ring.
Qed.

Lemma pow2_pred e : (PyFloat.pow2 (e - 1) == PyFloat.pow2 e / 2)%Q.
Proof.
  assert (H := pow2_succ (e - 1)). replace (e - 1 + 1) with e in H by lia.
  rewrite H. field.
Qed.

Lemma pow2_le a b : a <= b -> (PyFloat.pow2 a <= PyFloat.pow2 b)%Q.
Proof. intros H. unfold PyFloat.pow2. apply Qpower_le_compat_l; [assumption|]. discriminate. Qed.

Lemma pow2_lt a b : a < b -> (PyFloat.pow2 a < PyFloat.pow2 b)%Q.
Proof. intros H. unfold PyFloat.pow2. apply Qpower_lt_compat_l; [assumption|]. reflexivity. Qed.

Lemma pow2_Z n : 0 <= n -> (inject_Z (2 ^ n) == PyFloat.pow2 n)%Q.
Proof. intros H. unfold PyFloat.pow2. now rewrite Zpower_Qpower. Qed.

Lemma pow2_minus a b : (PyFloat.pow2 (a - b) == PyFloat.pow2 a / PyFloat.pow2 b)%Q.
Proof. unfold PyFloat.pow2. apply Qpower_minus. discriminate. Qed.

Lemma floor_log2_spec (x : Q) :
  (0 < x)%Q ->
  (PyFloat.pow2 (PyFloat.floor_log2 x) <= x /\ x < PyFloat.pow2 (PyFloat.floor_log2 x + 1))%Q.
Proof.
  intros Hx. destruct x as [n d].
  assert (Hn : 0 < n) by (unfold Qlt in Hx; simpl in Hx; lia).
  unfold PyFloat.floor_log2. cbn [Qnum Qden].
  set (a := Z.log2 n). set (b := Z.log2 (Zpos d)).
  destruct (Z.log2_spec n Hn) as [Ha1 Ha2]. fold a in Ha1, Ha2.
  destruct (Z.log2_spec (Zpos d) (Pos2Z.is_pos d)) as [Hb1 Hb2]. fold b in Hb1, Hb2.
  assert (Ha0 : 0 <= a) by apply Z.log2_nonneg.
  assert (Hb0 : 0 <= b) by apply Z.log2_nonneg.
  assert (EA := pow2_Z a Ha0). assert (EB := pow2_Z b Hb0).
  assert (PA := pow2_pos a). assert (PB := pow2_pos b).
  assert (Exd : ((n # d) * inject_Z (Zpos d) == inject_Z n)%Q).
  { rewrite (Qmake_Qdiv n d). field. discriminate. }
  assert (HA1 : (PyFloat.pow2 a <= inject_Z n)%Q) by (rewrite <- EA; now rewrite <- Zle_Qle).
  assert (HA2 : (inject_Z n < 2 * PyFloat.pow2 a)%Q).
  { rewrite <- EA. change 2%Q with (inject_Z 2). rewrite <- inject_Z_mult, <- Zlt_Qlt.
    rewrite Z.pow_succ_r in Ha2 by assumption. exact Ha2. }
  assert (HB1 : (PyFloat.pow2 b <= inject_Z (Zpos d))%Q) by (rewrite <- EB; now rewrite <- Zle_Qle).
  assert (HB2 : (inject_Z (Zpos d) < 2 * PyFloat.pow2 b)%Q).
  { rewrite <- EB. change 2%Q with (inject_Z 2). rewrite <- inject_Z_mult, <- Zlt_Qlt.
    rewrite Z.pow_succ_r in Hb2 by assumption. exact Hb2. }
  set (X := (n # d)%Q) in *. set (N := inject_Z n) in *. set (D := inject_Z (Zpos d)) in *.
  set (A := PyFloat.pow2 a) in *. set (B := PyFloat.pow2 b) in *.
  destruct (Qle_bool (PyFloat.pow2 (a - b)) X) eqn:E.
  - apply Qle_bool_iff in E. split; [exact E|].
    rewrite pow2_succ, pow2_minus. fold A B.
    assert (R : (2 * (A / B) == 2 * A / B)%Q) by (field; lra). rewrite R.
    apply Qlt_shift_div_l; [lra|]. nra.
  - assert (E' : (X < PyFloat.pow2 (a - b))%Q).
    { apply Qnot_le_lt. intros H. apply Qle_bool_iff in H. congruence. }
    replace (a - b - 1 + 1) with (a - b) by lia. split; [|exact E'].
    rewrite pow2_pred, pow2_minus. fold A B.
    assert (R : (A / B / 2 == A / (2 * B))%Q) by (field; lra). rewrite R.
    apply Qle_shift_div_r; [lra|]. nra.
Qed.

Lemma log2_unique (x : Q) (L a : Z) :
  (PyFloat.pow2 L <= x)%Q -> (x < PyFloat.pow2 (L + 1))%Q ->
  (PyFloat.pow2 a <= x)%Q -> (x < PyFloat.pow2 (a + 1))%Q -> L = a.
Proof.
  intros H1 H2 H3 H4.
  destruct (Z.lt_trichotomy L a) as [H|[H|H]]; [|assumption|].
  - assert (P := pow2_le (L + 1) a ltac:(lia)). lra.
  - assert (P := pow2_le (a + 1) L ltac:(lia)). lra.
Qed.

Lemma inject_Z_minus (a b : Z) : (inject_Z (a - b) == inject_Z a - inject_Z b)%Q.
Proof. unfold Z.sub. rewrite inject_Z_plus, inject_Z_opp. reflexivity. Qed.

Lemma Z_of_Q_lt (a b : Z) : (inject_Z a < inject_Z b + 1)%Q -> a <= b.
Proof.
  intros H. change 1%Q with (inject_Z 1) in H.
  rewrite <- inject_Z_plus, <- Zlt_Qlt in H. lia.
Qed.

(** [round_half_even] returns the integer within one half of its argument,
    and the even one at a tie. *)
Lemma round_half_even_spec (y : Q) (m : Z) :
  (if Z.even m
   then inject_Z m - (1 # 2) <= y /\ y <= inject_Z m + (1 # 2)
   else inject_Z m - (1 # 2) < y /\ y < inject_Z m + (1 # 2))%Q ->
  PyFloat.round_half_even y = m.
Proof.
  intros H. unfold PyFloat.round_half_even.
  assert (F1 := Qfloor_le y). assert (F2 := Qlt_floor y).
  rewrite inject_Z_plus in F2. change (inject_Z 1) with 1%Q in F2.
  set (fl := Qfloor y) in *.
  assert (Hlo : (inject_Z m - (1 # 2) <= y)%Q) by (destruct (Z.even m); lra).
  assert (Hhi : (y <= inject_Z m + (1 # 2))%Q) by (destruct (Z.even m); lra).
  assert (B1 : m - 1 <= fl).
  { apply Z_of_Q_lt. rewrite inject_Z_minus. change (inject_Z 1) with 1%Q. lra. }
  assert (B2 : fl <= m).
  { apply Z_of_Q_lt. lra. }
  assert (C : fl = m \/ fl = m - 1) by lia.
  destruct C as [C|C].
  - rewrite C in *. destruct (Qcompare_spec (y - inject_Z m) (1 # 2)) as [E|E|E].
    + destruct (Z.even m) eqn:Ev; [reflexivity|]. lra.
    + reflexivity.
    + lra.
  - assert (Ef : (inject_Z fl == inject_Z m - 1)%Q).
    { rewrite C, inject_Z_minus. reflexivity. }
    destruct (Qcompare_spec (y - inject_Z fl) (1 # 2)) as [E|E|E].
    + destruct (Z.even m) eqn:Ev; [|lra].
      assert (Eo : Z.even fl = false).
      { rewrite C. rewrite Z.even_sub. rewrite Ev. reflexivity. }
      rewrite Eo. lia.
    + lra.
    + lia.
Qed.

Lemma pow2_plus a b : (PyFloat.pow2 (a + b) == PyFloat.pow2 a * PyFloat.pow2 b)%Q.
Proof. unfold PyFloat.pow2. apply Qpower_plus. discriminate. Qed.

Lemma Qlt_bool_iff x y : PyFloat.Qlt_bool x y = true <-> (x < y)%Q.
Proof.
  unfold PyFloat.Qlt_bool. rewrite negb_true_iff. split.
  - intros H. apply Qnot_le_lt. intros H'. apply Qle_bool_iff in H'. congruence.
  - intros H. destruct (Qle_bool y x) eqn:E; [|reflexivity].
    apply Qle_bool_iff in E. lra.
Qed.

Lemma nearest_at neg x e0 mz :
  Z.max (-1074) (PyFloat.floor_log2 x - 52) = e0 ->
  PyFloat.round_half_even (x / PyFloat.pow2 e0) = mz ->
  PyFloat.nearest neg x =
    (let '(m, e) := if mz =? 2 ^ 53 then (2 ^ 52, e0 + 1) else (mz, e0) in
     match m with
     | Zpos p => if 971 <? e then S754_infinity neg else S754_finite neg p e
     | _ => S754_zero neg
     end).
Proof. intros H1 H2. unfold PyFloat.nearest. now rewrite H1, H2. Qed.

Lemma div_pow2_bounds (x : Q) (e : Z) :
  exists y, (y == x / PyFloat.pow2 e /\ x == y * PyFloat.pow2 e)%Q.
Proof.
  exists (x / PyFloat.pow2 e)%Q. split; [reflexivity|].
  field. assert (H := pow2_pos e). lra.
Qed.

Theorem nearest_rounds (neg : bool) (m : positive) (e : Z) (x : Q) :
  canonical m e -> PyFloat.rounds_to m e x = true ->
  PyFloat.nearest neg x = S754_finite neg m e.
Proof.
  intros [He Hc] Hr.
  set (u := PyFloat.pow2 e). assert (Hu : (0 < u)%Q) by apply pow2_pos.
  set (M := inject_Z (Zpos m)).
  assert (HM1 : (1 <= M)%Q).
  { unfold M. change 1%Q with (inject_Z 1). rewrite <- Zle_Qle. lia. }
  assert (HM53 : (M <= inject_Z (2 ^ 53) - 1)%Q).
  { unfold M. change 1%Q with (inject_Z 1). rewrite <- inject_Z_minus, <- Zle_Qle.
    destruct Hc as [[_ H]|[[_ H] _]]; lia. }
  assert (E1 : (PyFloat.pow2 (e - 1) == u * (1 # 2))%Q)
    by (rewrite pow2_pred; unfold u; field).
  assert (E2 : (PyFloat.pow2 (e - 2) == u * (1 # 4))%Q).
  { replace (e - 2) with (e - 1 - 1) by lia. rewrite pow2_pred, E1. field. }
  assert (E52 : (PyFloat.pow2 (e + 52) == inject_Z (2 ^ 52) * u)%Q).
  { rewrite Z.add_comm, pow2_plus, <- pow2_Z by lia. reflexivity. }
  assert (E53 : (PyFloat.pow2 (e + 53) == inject_Z (2 ^ 53) * u)%Q).
  { rewrite Z.add_comm, pow2_plus, <- pow2_Z by lia. reflexivity. }
  assert (E51 : (PyFloat.pow2 (e + 51) == inject_Z (2 ^ 51) * u)%Q).
  { rewrite Z.add_comm, pow2_plus, <- pow2_Z by lia. reflexivity. }
  assert (Hup : (x <= (2 * M + 1) * (u * (1 # 2)))%Q).
  { unfold PyFloat.rounds_to in Hr. destruct (Z.even (Zpos m));
      apply andb_true_iff in Hr; destruct Hr as [_ Hr];
      [apply Qle_bool_iff in Hr | apply Qlt_bool_iff in Hr; apply Qlt_le_weak in Hr];
      unfold PyFloat.upper_mid in Hr; rewrite E1 in Hr;
      rewrite inject_Z_plus, inject_Z_mult in Hr; exact Hr. }
  assert (Hx53 : (x < PyFloat.pow2 (e + 53))%Q).
  { rewrite E53. change (inject_Z (2 ^ 53)) with (9007199254740992 # 1)%Q in *.
    assert (HMu : (M * u <= ((9007199254740992 # 1) - 1) * u)%Q)
      by (apply Qmult_le_compat_r; lra).
    lra. }
  destruct (Pos.eqb m (2 ^ 52) && (-1074 <? e)) eqn:Eb.
  - (* the least mantissa of a binade *)
    apply andb_true_iff in Eb. destruct Eb as [Em Ee].
    apply Pos.eqb_eq in Em. apply Z.ltb_lt in Ee. subst m.
    unfold PyFloat.rounds_to in Hr. cbn [Z.even] in Hr.
    change (Z.even (Z.pos (2 ^ 52))) with true in Hr.
    apply andb_true_iff in Hr. destruct Hr as [Hlo _].
    apply Qle_bool_iff in Hlo. unfold PyFloat.lower_mid in Hlo.
    change (Pos.eqb (2 ^ 52) (2 ^ 52)) with true in Hlo.
    assert (Ee' : (-1074 <? e) = true) by now apply Z.ltb_lt.
    rewrite Ee' in Hlo. cbn [andb] in Hlo. rewrite E2 in Hlo.
    change (inject_Z (4 * Z.pos (2 ^ 52) - 1)) with (18014398509481983 # 1)%Q in Hlo.
    change M with (4503599627370496 # 1)%Q in *.
    change (inject_Z (2 ^ 52)) with (4503599627370496 # 1)%Q in *.
    change (inject_Z (2 ^ 53)) with (9007199254740992 # 1)%Q in *.
    change (inject_Z (2 ^ 51)) with (2251799813685248 # 1)%Q in *.
    destruct (floor_log2_spec x ltac:(lra)) as [L1 L2].
    destruct (Qlt_le_dec x ((4503599627370496 # 1) * u)) as [Hlt|Hge].
    + assert (EL : PyFloat.floor_log2 x = e + 51).
      { apply (log2_unique x); try assumption.
        - rewrite E51. lra.
        - replace (e + 51 + 1) with (e + 52) by lia. rewrite E52. exact Hlt. }
      rewrite (nearest_at neg x (e - 1) (2 ^ 53)).
      * change (2 ^ 53 =? 2 ^ 53) with true. cbn iota.
        replace (e - 1 + 1) with e by lia.
        change (2 ^ 52) with (Z.pos (2 ^ 52)).
        destruct (971 <? e) eqn:E9; [apply Z.ltb_lt in E9; lia | reflexivity].
      * rewrite EL. lia.
      * apply round_half_even_spec. change (Z.even (2 ^ 53)) with true. cbv iota.
        rewrite E1.
        change (inject_Z (2 ^ 53)) with (9007199254740992 # 1)%Q.
        assert (R : (x / (u * (1 # 2)) == 2 * x / u)%Q) by (field; lra). rewrite R.
        split.
        -- apply Qle_shift_div_l; [assumption|]. lra.
        -- apply Qle_shift_div_r; [assumption|]. lra.
    + assert (EL : PyFloat.floor_log2 x = e + 52).
      { apply (log2_unique x); try assumption.
        - rewrite E52. exact Hge.
        - replace (e + 52 + 1) with (e + 53) by lia. exact Hx53. }
      rewrite (nearest_at neg x e (Z.pos (2 ^ 52))).
      * change (Z.pos (2 ^ 52) =? 2 ^ 53) with false. cbn iota.
        destruct (971 <? e) eqn:E9; [apply Z.ltb_lt in E9; lia | reflexivity].
      * rewrite EL. lia.
      * apply round_half_even_spec. change (Z.even (Z.pos (2 ^ 52))) with true. cbv iota.
        fold u.
        change (inject_Z (Z.pos (2 ^ 52))) with (4503599627370496 # 1)%Q.
        split.
        -- apply Qle_shift_div_l; [assumption|]. lra.
        -- apply Qle_shift_div_r; [assumption|]. lra.
  - (* every other mantissa *)
    assert (Hlo : (if Z.even (Zpos m)
                   then (2 * M - 1) * (u * (1 # 2)) <= x /\ x <= (2 * M + 1) * (u * (1 # 2))
                   else (2 * M - 1) * (u * (1 # 2)) < x /\ x < (2 * M + 1) * (u * (1 # 2)))%Q).
    { unfold PyFloat.rounds_to in Hr. unfold PyFloat.lower_mid, PyFloat.upper_mid in Hr.
      rewrite Eb in Hr.
      destruct (Z.even (Zpos m)); apply andb_true_iff in Hr; destruct Hr as [Ha Hb];
        [apply Qle_bool_iff in Ha, Hb | apply Qlt_bool_iff in Ha, Hb];
        rewrite E1 in Ha, Hb;
        rewrite inject_Z_minus in Ha; rewrite inject_Z_plus in Hb;
        rewrite inject_Z_mult in Ha, Hb;
        change (inject_Z 2) with 2%Q in Ha, Hb;
        change (inject_Z 1) with 1%Q in Ha, Hb;
        fold M in Ha, Hb; split; assumption. }
    assert (Hlo' : ((2 * M - 1) * (u * (1 # 2)) <= x)%Q) by (destruct (Z.even (Zpos m)); lra).
    assert (Hx0 : (0 < x)%Q) by nra.
    destruct (floor_log2_spec x Hx0) as [L1 L2].
    assert (Ee : Z.max (-1074) (PyFloat.floor_log2 x - 52) = e).
    { assert (HL : PyFloat.floor_log2 x < e + 53).
      { destruct (Z.lt_ge_cases (PyFloat.floor_log2 x) (e + 53)) as [H|H]; [assumption|].
        assert (P := pow2_le (e + 53) (PyFloat.floor_log2 x) H). lra. }
      destruct Hc as [[He0 _]|[[Hm1 Hm2] He0]]; [lia|].
      destruct (Z.eq_dec e (-1074)) as [->|Hne]; [lia|].
      assert (Hm : 2 ^ 52 < Zpos m).
      { destruct (Z.eq_dec (Zpos m) (2 ^ 52)) as [Em|Em]; [|lia].
        exfalso. assert (m = (2 ^ 52)%positive) by (injection Em; auto).
        subst m. rewrite Pos.eqb_refl in Eb. cbn [andb] in Eb.
        apply Z.ltb_ge in Eb. lia. }
      assert (HM52 : (inject_Z (2 ^ 52) + 1 <= M)%Q).
      { unfold M. change 1%Q with (inject_Z 1). rewrite <- inject_Z_plus, <- Zle_Qle. lia. }
      assert (HL2 : e + 52 <= PyFloat.floor_log2 x).
      { destruct (Z.lt_ge_cases (PyFloat.floor_log2 x) (e + 52)) as [H|H]; [|assumption].
        exfalso. assert (P := pow2_le (PyFloat.floor_log2 x + 1) (e + 52) ltac:(lia)).
        rewrite E52 in P.
        change (inject_Z (2 ^ 52)) with (4503599627370496 # 1)%Q in *. nra. }
      lia. }
    rewrite (nearest_at neg x e (Zpos m)).
    + assert (Hne : (Zpos m =? 2 ^ 53) = false).
      { apply Z.eqb_neq. destruct Hc as [[_ H]|[[_ H] _]]; lia. }
      rewrite Hne. destruct (971 <? e) eqn:E9; [apply Z.ltb_lt in E9; lia | reflexivity].
    + exact Ee.
    + apply round_half_even_spec. fold M. fold u.
      destruct (Z.even (Zpos m)); destruct Hlo as [Ha Hb]; split.
      * apply Qle_shift_div_l; [assumption|]. lra.
      * apply Qle_shift_div_r; [assumption|]. lra.
      * apply Qlt_shift_div_l; [assumption|]. lra.
      * apply Qlt_shift_div_r; [assumption|]. lra.
Qed.

(** ** The shortest numeral rounds back *)

Lemma digits2_bounds (m : positive) :
  2 ^ (Zpos (digits2_pos m) - 1) <= Zpos m < 2 ^ Zpos (digits2_pos m).
Proof.
  induction m as [m IH|m IH|]; cbn [digits2_pos].
  - rewrite Pos2Z.inj_succ. replace (Z.succ (Zpos (digits2_pos m)) - 1)
      with (Z.succ (Zpos (digits2_pos m) - 1)) by lia.
    rewrite !Z.pow_succ_r by lia. lia.
  - rewrite Pos2Z.inj_succ. replace (Z.succ (Zpos (digits2_pos m)) - 1)
      with (Z.succ (Zpos (digits2_pos m) - 1)) by lia.
    rewrite !Z.pow_succ_r by lia. lia.
  - simpl. lia.
Qed.

Lemma Prim2SF_canonical (f : float) s m e :
  Prim2SF f = S754_finite s m e -> canonical m e.
Proof.
  intros E. assert (V := Prim2SF_valid f). rewrite E in V.
  unfold valid_binary, bounded in V. apply andb_true_iff in V.
  destruct V as [C B]. apply Z.leb_le in B.
  unfold canonical_mantissa in C. apply Z.eqb_eq in C.
  unfold fexp, emin in C.
  change prec with 53 in *. change emax with 1024 in *.
  change IntDef.Z.max with Z.max in C. change IntDef.Z.sub with Z.sub in C.
  change IntDef.Z.add with Z.add in C.
  assert (D := digits2_bounds m).
  set (dg := Zpos (digits2_pos m)) in *. clearbody dg.
  split; [lia|].
  destruct (Z.le_gt_cases (-1074) (dg + e - 53)) as [H|H].
  - right. assert (Hd : dg = 53) by lia. subst dg.
    change (2 ^ (53 - 1)) with (2 ^ 52) in D. lia.
  - left. assert (He : e = -1074) by lia. split; [assumption|].
    assert (Hd : dg <= 52) by lia.
    assert (2 ^ dg <= 2 ^ 52) by (apply Z.pow_le_mono_r; lia). lia.
Qed.

Lemma rounds_to_compat m e x y : (x == y)%Q -> PyFloat.rounds_to m e x = PyFloat.rounds_to m e y.
Proof.
  intros E. unfold PyFloat.rounds_to, PyFloat.Qlt_bool.
  destruct (Z.even (Zpos m)); now rewrite E.
Qed.

Lemma rounds_to_exact m e : PyFloat.rounds_to m e (PyFloat.exact m e) = true.
Proof.
  assert (Hu := pow2_pos e). 
  assert (E1 : (PyFloat.pow2 (e - 1) == PyFloat.pow2 e * (1 # 2))%Q)
    by (rewrite pow2_pred; field).
  assert (E2 : (PyFloat.pow2 (e - 2) == PyFloat.pow2 e * (1 # 4))%Q).
  { replace (e - 2) with (e - 1 - 1) by lia. rewrite pow2_pred, E1. field. }
  set (u := PyFloat.pow2 e) in *.
  assert (HM1 : (1 <= inject_Z (Zpos m))%Q).
  { change 1%Q with (inject_Z 1). rewrite <- Zle_Qle. lia. }
  assert (Lo : (PyFloat.lower_mid m e < PyFloat.exact m e)%Q).
  { unfold PyFloat.lower_mid, PyFloat.exact. fold u.
    destruct (Pos.eqb m (2 ^ 52) && (-1074 <? e)).
    - rewrite E2, inject_Z_minus, inject_Z_mult.
      change (inject_Z 4) with 4%Q. change (inject_Z 1) with 1%Q.
      set (M := inject_Z (Zpos m)) in *. nra.
    - rewrite E1, inject_Z_minus, inject_Z_mult.
      change (inject_Z 2) with 2%Q. change (inject_Z 1) with 1%Q.
      set (M := inject_Z (Zpos m)) in *. nra. }
  assert (Hi : (PyFloat.exact m e < PyFloat.upper_mid m e)%Q).
  { unfold PyFloat.upper_mid, PyFloat.exact. fold u.
    rewrite E1, inject_Z_plus, inject_Z_mult.
    change (inject_Z 2) with 2%Q. change (inject_Z 1) with 1%Q.
    set (M := inject_Z (Zpos m)) in *. nra. }
  unfold PyFloat.rounds_to. destruct (Z.even (Zpos m)); apply andb_true_iff; split.
  - apply Qle_bool_iff. lra.
  - apply Qle_bool_iff. lra.
  - now apply Qlt_bool_iff.
  - now apply Qlt_bool_iff.
Qed.

Lemma rounds_to_pos m e x : PyFloat.rounds_to m e x = true -> (0 < x)%Q.
Proof.
  intros H. assert (Hu := pow2_pos (e - 1)). assert (Hu2 := pow2_pos (e - 2)).
  assert (HM1 : (1 <= inject_Z (Zpos m))%Q).
  { change 1%Q with (inject_Z 1). rewrite <- Zle_Qle. lia. }
  assert (Lo : (0 < PyFloat.lower_mid m e)%Q).
  { unfold PyFloat.lower_mid. destruct (Pos.eqb m (2 ^ 52) && (-1074 <? e)).
    - rewrite inject_Z_minus, inject_Z_mult.
      change (inject_Z 4) with 4%Q. change (inject_Z 1) with 1%Q.
      set (M := inject_Z (Zpos m)) in *. nra.
    - rewrite inject_Z_minus, inject_Z_mult.
      change (inject_Z 2) with 2%Q. change (inject_Z 1) with 1%Q.
      set (M := inject_Z (Zpos m)) in *. nra. }
  unfold PyFloat.rounds_to in H. destruct (Z.even (Zpos m));
    apply andb_true_iff in H; destruct H as [H _].
  - apply Qle_bool_iff in H. lra.
  - apply Qlt_bool_iff in H. lra.
Qed.

Lemma pow10_pos k : (0 < PyFloat.pow10 k)%Q.
Proof. unfold PyFloat.pow10. apply Qpower_0_lt. reflexivity. Qed.

Lemma candidate_rounds m e k n d q :
  PyFloat.candidate m e k n = Some (d, q) ->
  PyFloat.rounds_to m e (inject_Z d * PyFloat.pow10 q) = true.
Proof.
  unfold PyFloat.candidate.
  set (v := PyFloat.exact m e). set (lo := Qfloor (v / PyFloat.pow10 (k - n))).
  destruct (PyFloat.rounds_to m e (inject_Z lo * PyFloat.pow10 (k - n))) eqn:E1;
  destruct (PyFloat.rounds_to m e (inject_Z (lo + 1) * PyFloat.pow10 (k - n))) eqn:E2;
    try discriminate.
  - destruct (Qcompare _ _); [destruct (Z.even lo)| |]; intros [= <- <-]; assumption.
  - intros [= <- <-]; assumption.
  - intros [= <- <-]; assumption.
Qed.

Lemma first_some_spec {A B} (f : A -> option B) l y :
  PyFloat.first_some f l = Some y -> exists x, In x l /\ f x = Some y.
Proof.
  induction l as [|x l IH]; simpl; [discriminate|].
  destruct (f x) eqn:E.
  - intros [= <-]. exists x. split; [now left | assumption].
  - intros H. destruct (IH H) as [x' [Hin Hx]]. exists x'. split; [now right | assumption].
Qed.

Lemma pow10_neg k : 0 <= k ->
  (PyFloat.pow10 (- k) * inject_Z (5 ^ k) == PyFloat.pow2 (- k))%Q.
Proof.
  intros Hk. unfold PyFloat.pow10, PyFloat.pow2.
  rewrite !Qpower_opp. rewrite (Zpower_Qpower 5 k Hk).
  assert (E : ((10 # 1) == (2 # 1) * inject_Z 5)%Q) by reflexivity.
  rewrite E, Qmult_power.
  assert (P2 : (0 < (2 # 1) ^ k)%Q) by (apply Qpower_0_lt; reflexivity).
  assert (P5 : (0 < inject_Z 5 ^ k)%Q) by (apply Qpower_0_lt; reflexivity).
  field. split; lra.
Qed.

Lemma shortest_rounds m e d q :
  PyFloat.shortest m e = (d, q) ->
  PyFloat.rounds_to m e (inject_Z d * PyFloat.pow10 q) = true.
Proof.
  unfold PyFloat.shortest.
  destruct (PyFloat.first_some _ _) as [[d' q']|] eqn:E.
  - intros [= <- <-]. apply first_some_spec in E. destruct E as [n [_ Hn]].
    now apply candidate_rounds in Hn.
  - destruct (0 <=? e) eqn:Ee; intros H; injection H as Hd Hq; subst q.
    + change (Zpos m * 2 ^ e = d) in Hd. subst d.
      apply Z.leb_le in Ee. rewrite <- (rounds_to_exact m e).
      apply rounds_to_compat. unfold PyFloat.exact.
      rewrite inject_Z_mult, pow2_Z by assumption.
      change (PyFloat.pow10 0) with 1%Q. ring.
    + change (Zpos m * 5 ^ (- e) = d) in Hd. subst d.
      apply Z.leb_gt in Ee. rewrite <- (rounds_to_exact m e).
      apply rounds_to_compat. unfold PyFloat.exact.
      rewrite inject_Z_mult.
      assert (H := pow10_neg (- e) ltac:(lia)). rewrite Z.opp_involutive in H.
      rewrite <- H. ring.
Qed.

Lemma shortest_pos m e d q : PyFloat.shortest m e = (d, q) -> 0 < d.
Proof.
  intros H. apply shortest_rounds in H. apply rounds_to_pos in H.
  assert (P := pow10_pos q).
  destruct (Z.lt_ge_cases 0 d) as [Hd|Hd]; [assumption|].
  assert (inject_Z d <= 0)%Q by (change 0%Q with (inject_Z 0); now rewrite <- Zle_Qle).
  nra.
Qed.

(** ** Runs of digits *)

Lemma digits_from_shift l : forall acc,
  PyFloat.digits_from acc l
    = option_map (fun v => acc * 10 ^ Z.of_nat (List.length l) + v)
        (PyFloat.digits_from 0 l).
Proof.
  induction l as [|c l IH]; intros acc.
  - simpl. f_equal. lia.
  - cbn [PyFloat.digits_from]. destruct (PyFloat.digit_value c) as [k|]; [|reflexivity].
    rewrite (IH (10 * acc + k)), (IH (10 * 0 + k)).
    destruct (PyFloat.digits_from 0 l) as [v|]; [|reflexivity].
    cbn [option_map]. f_equal.
    replace (Z.of_nat (List.length (c :: l))) with (Z.succ (Z.of_nat (List.length l)))
      by (simpl List.length; lia).
    rewrite Z.pow_succ_r by lia. ring.
Qed.

Lemma digits_from_app l1 l2 acc :
  PyFloat.digits_from acc (l1 ++ l2)
    = match PyFloat.digits_from acc l1 with
      | Some a => PyFloat.digits_from a l2
      | None => None
      end.
Proof.
  revert acc. induction l1 as [|c l1 IH]; intros acc; [reflexivity|].
  simpl. destruct (PyFloat.digit_value c); [apply IH | reflexivity].
Qed.

Lemma digits_from_total l :
  forallb is_digit l = true -> forall acc, exists v, PyFloat.digits_from acc l = Some v.
Proof.
  induction l as [|c l IH]; intros H acc; [now exists acc|].
  simpl in H. apply andb_true_iff in H. destruct H as [Hc Hl].
  unfold is_digit in Hc. cbn [PyFloat.digits_from].
  destruct (PyFloat.digit_value c); [|discriminate]. now apply IH.
Qed.

Lemma digits_total l :
  forallb is_digit l = true -> PyFloat.digits l = Some (val l).
Proof.
  intros H. destruct (digits_from_total l H 0) as [v E].
  unfold val, PyFloat.digits. now rewrite E.
Qed.

Lemma digit_value_range c k : PyFloat.digit_value c = Some k -> 0 <= k <= 9.
Proof.
  unfold PyFloat.digit_value.
  destruct ((48 <=? Z.of_N (N_of_ascii c)) && (Z.of_N (N_of_ascii c) <=? 57)) eqn:E;
    [|discriminate].
  apply andb_true_iff in E. destruct E as [E1 E2].
  apply Z.leb_le in E1, E2. intros [= <-]. lia.
Qed.

Lemma val_nonneg_from l : forall acc, 0 <= acc ->
  match PyFloat.digits_from acc l with Some v => 0 <= v | None => True end.
Proof.
  induction l as [|c l IH]; intros acc H; cbn [PyFloat.digits_from]; [assumption|].
  destruct (PyFloat.digit_value c) as [k|] eqn:E; [|exact I].
  apply digit_value_range in E. apply IH. lia.
Qed.

Lemma val_nonneg l : 0 <= val l.
Proof.
  unfold val, PyFloat.digits. assert (H := val_nonneg_from l 0 ltac:(lia)).
  destruct (PyFloat.digits_from 0 l); [assumption | lia].
Qed.

Lemma val_app l1 l2 :
  forallb is_digit l1 = true -> forallb is_digit l2 = true ->
  val (l1 ++ l2) = val l1 * 10 ^ Z.of_nat (List.length l2) + val l2.
Proof.
  intros H1 H2.
  assert (H12 : forallb is_digit (l1 ++ l2) = true) by (rewrite forallb_app; now rewrite H1, H2).
  assert (E := digits_total _ H12). unfold PyFloat.digits in E.
  rewrite digits_from_app in E.
  assert (E1 := digits_total _ H1). unfold PyFloat.digits in E1. rewrite E1 in E.
  rewrite digits_from_shift in E.
  assert (E2 := digits_total _ H2). unfold PyFloat.digits in E2. rewrite E2 in E.
  cbn [option_map] in E. now injection E.
Qed.

Lemma val_zeros n : val (repeat "0"%char n) = 0 /\ forallb is_digit (repeat "0"%char n) = true.
Proof.
  induction n as [|n [IH1 IH2]]; [split; reflexivity|].
  split.
  - change (repeat "0"%char (S n)) with (["0"%char] ++ repeat "0"%char n).
    rewrite val_app by (reflexivity || assumption). rewrite IH1. reflexivity.
  - simpl. exact IH2.
Qed.

Lemma uint_chars_digits u : forall acc,
  PyFloat.digits_from acc (list_ascii_of_string (NilEmpty.string_of_uint u))
    = Some (uval u acc) /\
  forallb is_digit (list_ascii_of_string (NilEmpty.string_of_uint u)) = true.
Proof.
  induction u; intros acc; simpl; try (split; reflexivity);
    destruct (IHu (10 * acc + 0)), (IHu (10 * acc + 1)), (IHu (10 * acc + 2)),
      (IHu (10 * acc + 3)), (IHu (10 * acc + 4)), (IHu (10 * acc + 5)),
      (IHu (10 * acc + 6)), (IHu (10 * acc + 7)), (IHu (10 * acc + 8)),
      (IHu (10 * acc + 9)); split; assumption.
Qed.

Lemma of_uint_acc_uval u : forall acc,
  Zpos (Pos.of_uint_acc u acc) = uval u (Zpos acc).
Proof.
  induction u; intros acc; cbn [Pos.of_uint_acc uval]; try lia;
    rewrite IHu; f_equal; lia.
Qed.

Lemma of_uint_uval u : Z.of_N (Pos.of_uint u) = uval u 0.
Proof.
  induction u; cbn [Pos.of_uint uval Z.of_N]; try reflexivity; try assumption;
    rewrite of_uint_acc_uval; reflexivity.
Qed.

Lemma digit_chars_pos (p : positive) :
  PyFloat.digits (PyFloat.digit_chars (Zpos p)) = Some (Zpos p) /\
  forallb is_digit (PyFloat.digit_chars (Zpos p)) = true.
Proof.
  unfold PyFloat.digit_chars, PyFloat.str_int. simpl Z.to_int.
  unfold NilZero.string_of_int, NilZero.string_of_uint.
  assert (Hn := DecimalPos.Unsigned.to_uint_nonnil p).
  assert (E : NilEmpty.string_of_uint (Pos.to_uint p)
              = match Pos.to_uint p with
                | Decimal.Nil => "0"%string
                | _ => NilEmpty.string_of_uint (Pos.to_uint p)
                end) by (destruct (Pos.to_uint p); congruence).
  rewrite <- E. destruct (uint_chars_digits (Pos.to_uint p) 0) as [H1 H2].
  split; [|exact H2]. unfold PyFloat.digits. rewrite H1. f_equal.
  rewrite <- of_uint_uval, DecimalPos.Unsigned.of_to. reflexivity.
Qed.

Lemma forallb_not_In {A} (p : A -> bool) l c :
  forallb p l = true -> p c = false -> ~ In c l.
Proof.
  intros H Hc Hin. rewrite forallb_forall in H. apply H in Hin. congruence.
Qed.

Lemma partition_none c l : ~ In c l -> PyFloat.partition c l = (l, None).
Proof.
  induction l as [|a l IH]; intros H; [reflexivity|].
  cbn [PyFloat.partition]. destruct (Ascii.eqb a c) eqn:E.
  - apply Ascii.eqb_eq in E. subst a. exfalso. apply H. now left.
  - rewrite IH; [reflexivity|]. intros Hin. apply H. now right.
Qed.

Lemma partition_found c l1 l2 :
  ~ In c l1 -> PyFloat.partition c (l1 ++ c :: l2) = (l1, Some l2).
Proof.
  induction l1 as [|a l1 IH]; intros H.
  - cbn [app PyFloat.partition]. now rewrite Ascii.eqb_refl.
  - cbn [app PyFloat.partition]. destruct (Ascii.eqb a c) eqn:E.
    + apply Ascii.eqb_eq in E. subst a. exfalso. apply H. now left.
    + rewrite IH; [reflexivity|]. intros Hin. apply H. now right.
Qed.

Lemma signed_digit c l :
  is_digit c = true -> PyFloat.signed (c :: l) = (false, c :: l).
Proof.
  destruct c as [[] [] [] [] [] [] [] []]; intros H; try discriminate H; reflexivity.
Qed.

Lemma digit_not_word c l w :
  is_digit c = true -> is_digit w = false ->
  String.eqb (string_of_list_ascii (c :: l)) (String w EmptyString) = false /\
  forall t, String.eqb (string_of_list_ascii (c :: l)) (String w t) = false.
Proof.
  intros Hc Hw.
  assert (E : Ascii.eqb c w = false).
  { destruct (Ascii.eqb_spec c w) as [->|]; [congruence | reflexivity]. }
  split; [|intros t]; cbn [string_of_list_ascii String.eqb]; now rewrite E.
Qed.

Lemma float_of_numeral neg ip fp pt ex :
  forallb is_digit ip = true -> forallb is_digit fp = true -> ip <> [] ->
  (pt = false -> fp = []) ->
  match ex with
  | None => True
  | Some (ne, u) => forallb is_digit u = true /\ u <> []
  end ->
  PyFloat.float_of_chars (PyFloat.sign neg ++ numeral ip fp pt ex)
  = Some (PyFloat.of_decimal neg
            (val ip * 10 ^ Z.of_nat (List.length fp) + val fp)
            (exponent_value ex - Z.of_nat (List.length fp))).
Proof.
  intros Hip Hfp Hne Hpt Hex.
  destruct ip as [|c ip]; [congruence|].
  assert (Hc : is_digit c = true) by (simpl in Hip; now apply andb_true_iff in Hip).
  set (body := numeral (c :: ip) fp pt ex).
  assert (Hb : body = c :: (ip ++ (if pt then "."%char :: fp else [])
                     ++ match ex with
                        | None => []
                        | Some (ne, u) =>
                            "e"%char :: (if ne then "-"%char else "+"%char) :: u
                        end)) by reflexivity.
  assert (Es : PyFloat.signed (PyFloat.sign neg ++ body) = (neg, body)).
  { destruct neg; [reflexivity|]. cbn [PyFloat.sign app]. rewrite Hb.
    now apply signed_digit. }
  unfold PyFloat.float_of_chars. rewrite Es.
  assert (Einf : String.eqb (string_of_list_ascii body) "inf" = false).
  { rewrite Hb. now apply digit_not_word. }
  assert (Enan : String.eqb (string_of_list_ascii body) "nan" = false).
  { rewrite Hb. now apply digit_not_word. }
  rewrite Einf, Enan.
  set (mant := (c :: ip) ++ (if pt then "."%char :: fp else [])).
  assert (Hmant_e : ~ In "e"%char mant).
  { unfold mant. intros Hin. apply in_app_or in Hin. destruct Hin as [Hin|Hin].
    - revert Hin. now apply (forallb_not_In is_digit).
    - destruct pt; [|exact Hin]. destruct Hin as [Hin|Hin]; [discriminate|].
      revert Hin. now apply (forallb_not_In is_digit). }
  assert (Epe : PyFloat.partition "e" body
                = (mant, match ex with
                         | None => None
                         | Some (ne, u) => Some ((if ne then "-"%char else "+"%char) :: u)
                         end)).
  { unfold body, numeral. rewrite app_assoc. fold mant. destruct ex as [[ne u]|].
    - now apply partition_found.
    - rewrite app_nil_r. now apply partition_none. }
  rewrite Epe.
  assert (Hip_pt : ~ In "."%char (c :: ip)) by now apply (forallb_not_In is_digit).
  assert (Epp : PyFloat.partition "." mant
                = (c :: ip, if pt then Some fp else None)).
  { unfold mant. destruct pt.
    - now apply partition_found.
    - rewrite app_nil_r. now apply partition_none. }
  rewrite Epp.
  assert (Efp : match (if pt then Some fp else None) with
                | Some t => t
                | None => []
                end = fp).
  { destruct pt; [reflexivity|]. symmetry. now apply Hpt. }
  rewrite Efp.
  rewrite (digits_total (c :: ip) Hip), (digits_total fp Hfp).
  destruct ex as [[ne u]|].
  - destruct Hex as [Hu Hune].
    assert (Eu : PyFloat.signed ((if ne then "-"%char else "+"%char) :: u) = (ne, u))
      by now destruct ne.
    rewrite Eu. destruct u as [|cu u]; [congruence|].
    rewrite (digits_total _ Hu). reflexivity.
  - reflexivity.
Qed.

(** ** [float] inverts [repr] *)

Lemma strip_zeros_nonzero c r :
  c <> "0"%char -> PyFloat.strip_zeros (c :: r) = c :: r.
Proof.
  intros Hne. destruct c as [[] [] [] [] [] [] [] []]; try reflexivity.
  now contradiction Hne.
Qed.

Lemma strip_zeros_spec r :
  exists k, r = repeat "0"%char k ++ PyFloat.strip_zeros r.
Proof.
  induction r as [|c r [k IH]]; [now exists O|].
  destruct (Ascii.ascii_dec c "0"%char) as [->|Hne].
  - exists (S k). cbn [PyFloat.strip_zeros repeat app]. now rewrite <- IH.
  - exists O. cbn [repeat app]. symmetry. now apply strip_zeros_nonzero.
Qed.

Lemma rev_repeat {A} (x : A) n : rev (repeat x n) = repeat x n.
Proof.
  induction n as [|n IH]; [reflexivity|].
  simpl. rewrite IH. clear IH.
  induction n as [|n IH]; [reflexivity|]. simpl. now rewrite IH.
Qed.

Lemma pow10_plus a b : (PyFloat.pow10 (a + b) == PyFloat.pow10 a * PyFloat.pow10 b)%Q.
Proof. unfold PyFloat.pow10. apply Qpower_plus. discriminate. Qed.

Lemma pow10_Z n : 0 <= n -> (inject_Z (10 ^ n) == PyFloat.pow10 n)%Q.
Proof. intros H. unfold PyFloat.pow10. now rewrite Zpower_Qpower. Qed.

(** The digits of a positive number without their trailing zeros. *)
Lemma significant_digits (p : positive) :
  let all := PyFloat.digit_chars (Zpos p) in
  let ds := rev (PyFloat.strip_zeros (rev all)) in
  exists k,
    all = ds ++ repeat "0"%char k /\
    forallb is_digit ds = true /\
    val ds * 10 ^ Z.of_nat k = Zpos p /\
    0 < val ds /\ ds <> [].
Proof.
  intros all ds.
  destruct (digit_chars_pos p) as [Hv Hd]. fold all in Hv, Hd.
  destruct (strip_zeros_spec (rev all)) as [k Hk].
  assert (Ea : all = ds ++ repeat "0"%char k).
  { unfold ds. rewrite <- (rev_involutive all) at 1. rewrite Hk at 1.
    rewrite rev_app_distr, rev_repeat. reflexivity. }
  assert (Hds : forallb is_digit ds = true).
  { rewrite Ea, forallb_app in Hd. now apply andb_true_iff in Hd. }
  assert (Ev : val ds * 10 ^ Z.of_nat k = Zpos p).
  { assert (E := digits_total all Hd). rewrite Hv in E. injection E as E.
    rewrite Ea in E. destruct (val_zeros k) as [Z1 Z2].
    rewrite val_app in E by assumption. rewrite Z1, repeat_length in E. lia. }
  exists k. split; [exact Ea|]. split; [exact Hds|]. split; [exact Ev|].
  assert (Hpos : 0 < val ds).
  { assert (N := val_nonneg ds).
    destruct (Z.eq_dec (val ds) 0) as [E0|]; [rewrite E0 in Ev; lia | lia]. }
  split; [exact Hpos|]. intros E. rewrite E in Hpos. now compute in Hpos.
Qed.

Lemma forallb_firstn_skipn {A} (p : A -> bool) n l :
  forallb p l = true ->
  forallb p (firstn n l) = true /\ forallb p (skipn n l) = true.
Proof.
  intros H. rewrite <- (firstn_skipn n l), forallb_app in H.
  now apply andb_true_iff in H.
Qed.

Lemma val_firstn_skipn n l :
  forallb is_digit l = true ->
  val (firstn n l) * 10 ^ Z.of_nat (List.length (skipn n l)) + val (skipn n l) = val l.
Proof.
  intros H. destruct (forallb_firstn_skipn is_digit n l H) as [H1 H2].
  rewrite <- val_app by assumption. now rewrite firstn_skipn.
Qed.

Lemma layout_exponent neg ds x :
  forallb is_digit ds = true -> ds <> [] -> 0 < val ds -> 5 <= Z.abs x ->
  parses_to neg
    (firstn 1 ds
       ++ match skipn 1 ds with [] => [] | a :: t => "."%char :: a :: t end
       ++ "e"%char :: (if x <? 0 then "-"%char else "+"%char)
            :: (if Z.abs x <? 10 then ["0"%char] else [])
            ++ PyFloat.digit_chars (Z.abs x))
    (val ds) (x - (Z.of_nat (List.length ds) - 1)).
Proof.
  intros Hds Hne Hpos Hx.
  destruct (forallb_firstn_skipn is_digit 1 ds Hds) as [H1 H2].
  set (ip := firstn 1 ds) in *. set (fp := skipn 1 ds) in *.
  set (pad := if Z.abs x <? 10 then ["0"%char] else []).
  destruct (Z.abs x) as [|ax|ax] eqn:Eax; try lia.
  destruct (digit_chars_pos ax) as [Hv Hd].
  set (u := pad ++ PyFloat.digit_chars (Zpos ax)).
  assert (Hpad : forallb is_digit pad = true /\ val pad = 0).
  { unfold pad. destruct (Zpos ax <? 10); split; reflexivity. }
  assert (Hu : forallb is_digit u = true).
  { unfold u. rewrite forallb_app. destruct Hpad as [-> _]. now rewrite Hd. }
  assert (Vu : val u = Zpos ax).
  { unfold u. rewrite val_app by (apply Hpad || assumption).
    destruct Hpad as [_ ->]. assert (E := digits_total _ Hd). rewrite Hv in E.
    injection E as E. lia. }
  assert (Hune : u <> []).
  { intros E. rewrite E in Vu. compute in Vu. discriminate. }
  set (pt := match fp with [] => false | _ => true end).
  set (ex := Some (x <? 0, u)).
  assert (Et : ip ++ match fp with [] => [] | a :: t => "."%char :: a :: t end
                  ++ "e"%char :: (if x <? 0 then "-"%char else "+"%char) :: u
               = numeral ip fp pt ex).
  { unfold numeral, pt, ex. destruct fp; reflexivity. }
  fold pad. fold u. rewrite Et.
  exists (val ip * 10 ^ Z.of_nat (List.length fp) + val fp),
         (exponent_value ex - Z.of_nat (List.length fp)).
  assert (Hipne : ip <> []).
  { unfold ip. destruct ds; [congruence | discriminate]. }
  split; [|split].
  - apply float_of_numeral; try assumption.
    + unfold pt. now destruct fp.
    + split; assumption.
  - unfold ip, fp. rewrite val_firstn_skipn by assumption. exact Hpos.
  - unfold ip, fp. rewrite val_firstn_skipn by assumption.
    assert (Ex : exponent_value ex = x).
    { unfold ex, exponent_value. rewrite Vu.
      destruct (x <? 0) eqn:Es; [apply Z.ltb_lt in Es | apply Z.ltb_ge in Es]; lia. }
    rewrite Ex. rewrite length_skipn.
    assert (El : (1 <= List.length ds)%nat) by (destruct ds; [congruence | simpl; lia]).
    replace (Z.of_nat (List.length ds - 1)) with (Z.of_nat (List.length ds) - 1) by lia.
    reflexivity.
Qed.

Lemma layout_small neg ds n :
  forallb is_digit ds = true -> 0 < val ds ->
  parses_to neg ("0"%char :: "."%char :: repeat "0"%char n ++ ds)
    (val ds) (- Z.of_nat n - Z.of_nat (List.length ds)).
Proof.
  intros Hds Hpos. destruct (val_zeros n) as [Z1 Z2].
  set (fp := repeat "0"%char n ++ ds).
  assert (Hfp : forallb is_digit fp = true).
  { unfold fp. rewrite forallb_app. now rewrite Z2, Hds. }
  assert (Vfp : val fp = val ds).
  { unfold fp. rewrite val_app by assumption. rewrite Z1. lia. }
  assert (Et : "0"%char :: "."%char :: fp = numeral ["0"%char] fp true None).
  { unfold numeral. now rewrite app_nil_r. }
  rewrite Et.
  exists (val ["0"%char] * 10 ^ Z.of_nat (List.length fp) + val fp),
         (exponent_value None - Z.of_nat (List.length fp)).
  split; [|split].
  - apply float_of_numeral; try assumption; try reflexivity; try discriminate.
  - rewrite Vfp. change (val ["0"%char]) with 0. lia.
  - rewrite Vfp. change (val ["0"%char]) with 0. cbn [exponent_value].
    unfold fp. rewrite length_app, repeat_length.
    replace (0 * 10 ^ Z.of_nat (n + List.length ds) + val ds) with (val ds) by lia.
    replace (0 - Z.of_nat (n + List.length ds))
      with (- Z.of_nat n - Z.of_nat (List.length ds)) by lia.
    reflexivity.
Qed.

Lemma layout_integer neg ds n :
  forallb is_digit ds = true -> ds <> [] -> 0 < val ds ->
  parses_to neg (ds ++ repeat "0"%char n ++ ["."%char; "0"%char])
    (val ds) (Z.of_nat n).
Proof.
  intros Hds Hne Hpos. destruct (val_zeros n) as [Z1 Z2].
  set (ip := ds ++ repeat "0"%char n).
  assert (Hip : forallb is_digit ip = true).
  { unfold ip. rewrite forallb_app. now rewrite Z2, Hds. }
  assert (Vip : val ip = val ds * 10 ^ Z.of_nat n).
  { unfold ip. rewrite val_app by assumption. rewrite Z1, repeat_length. lia. }
  assert (Et : ds ++ repeat "0"%char n ++ ["."%char; "0"%char]
               = numeral ip ["0"%char] true None).
  { unfold numeral, ip. rewrite app_nil_r. now rewrite <- app_assoc. }
  rewrite Et.
  exists (val ip * 10 ^ Z.of_nat (List.length ["0"%char]) + val ["0"%char]),
         (exponent_value None - Z.of_nat (List.length ["0"%char])).
  assert (P : 0 < 10 ^ Z.of_nat n) by (apply Z.pow_pos_nonneg; lia).
  split; [|split].
  - apply float_of_numeral; try assumption; try reflexivity; try discriminate.
    unfold ip. destruct ds; [congruence | discriminate].
  - rewrite Vip. change (val ["0"%char]) with 0. cbn [List.length]. nia.
  - rewrite Vip. change (val ["0"%char]) with 0. cbn [List.length exponent_value].
    change (Z.of_nat 1) with 1. change (10 ^ 1) with 10.
    replace (val ds * 10 ^ Z.of_nat n * 10 + 0) with (val ds * 10 ^ Z.of_nat n * 10) by lia.
    rewrite !inject_Z_mult, pow10_Z by lia.
    change (PyFloat.pow10 (0 - 1)) with (1 # 10)%Q. change (inject_Z 10) with (10 # 1)%Q.
    field.
Qed.

Lemma layout_fixed neg ds n :
  forallb is_digit ds = true -> 0 < val ds -> (0 < n < List.length ds)%nat ->
  parses_to neg (firstn n ds ++ "."%char :: skipn n ds)
    (val ds) (Z.of_nat n - Z.of_nat (List.length ds)).
Proof.
  intros Hds Hpos Hn.
  destruct (forallb_firstn_skipn is_digit n ds Hds) as [H1 H2].
  set (ip := firstn n ds) in *. set (fp := skipn n ds) in *.
  assert (Et : ip ++ "."%char :: fp = numeral ip fp true None).
  { unfold numeral. now rewrite app_nil_r. }
  rewrite Et.
  exists (val ip * 10 ^ Z.of_nat (List.length fp) + val fp),
         (exponent_value None - Z.of_nat (List.length fp)).
  split; [|split].
  - apply float_of_numeral; try assumption; try discriminate; try exact I.
    unfold ip. destruct ds; [simpl in Hn; lia|]. destruct n; [lia | discriminate].
  - unfold ip, fp. rewrite val_firstn_skipn by assumption. exact Hpos.
  - unfold ip, fp. rewrite val_firstn_skipn by assumption.
    cbn [exponent_value]. rewrite length_skipn.
    replace (0 - Z.of_nat (List.length ds - n))
      with (Z.of_nat n - Z.of_nat (List.length ds)) by lia.
    reflexivity.
Qed.

Lemma parses_to_value neg text v t v' t' :
  parses_to neg text v t ->
  (inject_Z v * PyFloat.pow10 t == inject_Z v' * PyFloat.pow10 t')%Q ->
  parses_to neg text v' t'.
Proof.
  intros (D & q' & E & HD & HQ) Hv. exists D, q'.
  split; [exact E|]. split; [exact HD|]. now rewrite HQ.
Qed.

(** Every layout of [repr] parses back to the number it was given. *)
Lemma format_short_parses neg (p : positive) (q : Z) :
  parses_to neg (PyFloat.format_short (Zpos p) q) (Zpos p) q.
Proof.
  destruct (significant_digits p) as (k & Ea & Hds & Ev & Hpos & Hne).
  unfold PyFloat.format_short.
  set (all := PyFloat.digit_chars (Zpos p)) in *.
  set (ds := rev (PyFloat.strip_zeros (rev all))) in *.
  assert (El : Z.of_nat (List.length all)
               = Z.of_nat (List.length ds) + Z.of_nat k).
  { rewrite Ea at 1. rewrite length_app, repeat_length. lia. }
  assert (Hnd : (1 <= List.length ds)%nat) by (destruct ds; [congruence | simpl; lia]).
  set (nd := Z.of_nat (List.length ds)) in *.
  set (decpt := Z.of_nat (List.length all) + q).
  assert (T : forall t, t = Z.of_nat k + q ->
              (inject_Z (val ds) * PyFloat.pow10 t
               == inject_Z (Zpos p) * PyFloat.pow10 q)%Q).
  { intros t ->. rewrite <- Ev, inject_Z_mult, pow10_Z, pow10_plus by lia. ring. }
  destruct ((decpt <=? -4) || (16 <? decpt)) eqn:B1.
  - eapply parses_to_value.
    + apply (layout_exponent neg ds (decpt - 1)); try assumption.
      apply orb_true_iff in B1. destruct B1 as [B|B];
        [apply Z.leb_le in B | apply Z.ltb_lt in B]; lia.
    + apply T. fold nd. unfold decpt. lia.
  - apply orb_false_iff in B1. destruct B1 as [B1 B1'].
    apply Z.leb_gt in B1. apply Z.ltb_ge in B1'.
    destruct (decpt <=? 0) eqn:B2.
    + apply Z.leb_le in B2. eapply parses_to_value.
      * apply (layout_small neg ds (Z.to_nat (- decpt))); assumption.
      * apply T. fold nd. unfold decpt in *. lia.
    + apply Z.leb_gt in B2. destruct (nd <=? decpt) eqn:B3.
      * apply Z.leb_le in B3. eapply parses_to_value.
        -- apply (layout_integer neg ds (Z.to_nat (decpt - nd))); assumption.
        -- apply T. unfold decpt in *. lia.
      * apply Z.leb_gt in B3. eapply parses_to_value.
        -- apply (layout_fixed neg ds (Z.to_nat decpt)); try assumption.
           unfold nd in B3. lia.
        -- apply T. fold nd. unfold decpt in *. lia.
Qed.

(** [float] reads back the float that [repr] wrote. *)
Theorem float_of_str_repr (f : float) :
  PyFloat.float_of_str (PyFloat.repr f) = Some f.
Proof.
  unfold PyFloat.float_of_str, PyFloat.repr.
  rewrite list_ascii_of_string_of_list_ascii.
  destruct (Prim2SF f) as [s|s| |s m e] eqn:E.
  - rewrite <- (SF2Prim_Prim2SF f), E. now destruct s.
  - rewrite <- (SF2Prim_Prim2SF f), E. now destruct s.
  - rewrite <- (SF2Prim_Prim2SF f), E. reflexivity.
  - destruct (PyFloat.shortest m e) as [d q] eqn:Es.
    assert (Hd := shortest_pos m e d q Es).
    assert (Hr := shortest_rounds m e d q Es).
    destruct d as [|p|p]; try lia.
    destruct (format_short_parses s p q) as (D & q' & EP & HD & HQ).
    rewrite EP. f_equal.
    destruct D as [|pd|pd]; try lia.
    unfold PyFloat.of_decimal.
    rewrite (nearest_rounds s m e).
    + rewrite <- E. apply SF2Prim_Prim2SF.
    + now apply (Prim2SF_canonical f s).
    + rewrite (rounds_to_compat m e _ _ HQ). exact Hr.
Qed.


(** ** The CSV export *)

(** C5, the claim as stated fails: exported to CSV, the two orders of the
    scenario carry the totals [210.66000000000003] and [70.2], the [repr] of
    the floats, where two decimal places would read [210.66] and [70.20];
    the items are joined with the letter [x]. *)
Lemma csv_total_is_not_two_decimals :
  let s := fst scenario_second in
  Csv.reader (export_csv (heap s) (orders s)) =
    [ csv_columns;
      ["1"; "Alice"; "Student"; "Burgerx2; Coffeex1"; "210.66000000000003";
       "03-11-2026 12:00"];
      ["2"; "Bob"; "Student"; "Coffeex1"; "70.2"; "03-11-2026 12:05"] ]%string /\
  map (fun o => PyFloat.format_2f (total_amount o)) (orders s)
    = ["210.66"; "70.20"]%string /\
  ~ (forall o, In o (orders s) ->
       field 4 (csv_fields (heap s) o) = PyFloat.format_2f (total_amount o)).
Proof.
  split; [vm_compute; reflexivity|]. split; [vm_compute; reflexivity|].
  intros H. specialize (H scenario_order).
  assert (Hin : In scenario_order (orders (fst scenario_second)))
    by (left; vm_compute; reflexivity).
  apply H in Hin. vm_compute in Hin. discriminate.
Qed.

(** C5, amended.  For a ledger of N >= 1 orders whose customers, dates and
    dish names hold no line break, the CSV text has N + 1 lines, and reading it
    back gives the header row [Order ID, Customer, Type, Items, Total, Date]
    followed by one row per order, in ledger order, with the fields: the
    identifier in decimal, the customer, [Teacher] or [Student], the lines
    [<name>x<qty>] joined by [; ], the total as [repr] writes the float (the
    shortest numeral that reads back as it, not a two-decimal rendering; empty
    for nan), and the date.  [int] of the first field is the order
    identifier, the second field is the customer, and [float] of the fifth is
    the total of the order, whenever that total is a number. *)
Theorem export_csv_reads_back (h : heap_t) (os : list OrderHistory) :
  os <> [] -> Forall (order_texts_plain h) os ->
  let text := export_csv h os in
  Csv.count_lines text = S (List.length os) /\
  Csv.reader text = csv_columns :: map (csv_fields h) os /\
  (forall o,
     csv_fields h o =
       [ PyFloat.str_int (order_id o);
         customer_name o;
         (if is_teacher o then "Teacher" else "Student")%string;
         Csv.join "; "
           (map (fun l => (name (deref h (fst l)) ++ "x"
                             ++ PyFloat.str_int (snd l))%string) (items o));
         cell_text (CFloat (total_amount o));
         date o ] /\
     PyFloat.int_of_str (field 0 (csv_fields h o)) = Some (order_id o) /\
     field 1 (csv_fields h o) = customer_name o /\
     (Prim2SF (total_amount o) <> S754_nan ->
        field 4 (csv_fields h o) = PyFloat.repr (total_amount o) /\
        PyFloat.float_of_str (field 4 (csv_fields h o)) = Some (total_amount o))).
Proof.
  intros Hne Hp text.
  assert (Hrows : Forall (fun fs => fs <> [] /\
                     Forall (fun f => no_line_break f = true) fs)
                    (map (csv_fields h) os)).
  { apply Forall_map. eapply Forall_impl; [|exact Hp].
    intros o Ho. split; [discriminate | now apply csv_fields_plain]. }
  assert (Etext : text = (Csv.write_row csv_columns
                            ++ Csv.write_rows (map (csv_fields h) os))%string).
  { unfold text, export_csv, to_csv, csv_fields.
    rewrite map_map. destruct os; [congruence | reflexivity]. }
  split; [|split].
  - rewrite Etext, count_lines_app, count_lines_rows, length_map.
    + reflexivity.
    + eapply Forall_impl; [|exact Hrows]. now intros fs [_ H].
  - unfold Csv.reader. rewrite Etext, read_row.
    + now rewrite read_rows.
    + discriminate.
    + repeat constructor.
  - intros o. split; [reflexivity|]. split; [apply int_of_str_int|].
    split; [reflexivity|]. intros Hnan.
    assert (E : field 4 (csv_fields h o) = PyFloat.repr (total_amount o)).
    { unfold field, csv_fields, csv_record. cbn [map nth cell_text].
      destruct (Prim2SF (total_amount o)); try reflexivity. congruence. }
    split; [exact E|]. rewrite E. apply float_of_str_repr.
Qed.

Lemma export_csv_reads_back_witness :
  let s := fst scenario_second in
  let h := heap s in
  let text := export_csv h (orders s) in
  Csv.count_lines text = S (List.length (orders s)) /\
  Csv.reader text = csv_columns :: map (csv_fields h) (orders s) /\
  (forall o,
     csv_fields h o =
       [ PyFloat.str_int (order_id o);
         customer_name o;
         (if is_teacher o then "Teacher" else "Student")%string;
         Csv.join "; "
           (map (fun l => (name (deref h (fst l)) ++ "x"
                             ++ PyFloat.str_int (snd l))%string) (items o));
         cell_text (CFloat (total_amount o));
         date o ] /\
     PyFloat.int_of_str (field 0 (csv_fields h o)) = Some (order_id o) /\
     field 1 (csv_fields h o) = customer_name o /\
     (Prim2SF (total_amount o) <> S754_nan ->
        field 4 (csv_fields h o) = PyFloat.repr (total_amount o) /\
        PyFloat.float_of_str (field 4 (csv_fields h o)) = Some (total_amount o))).
Proof.
  apply (export_csv_reads_back (heap (fst scenario_second))
           (orders (fst scenario_second))).
  - vm_compute. discriminate.
  - vm_compute. repeat constructor.
Defined.

(** ** The order of the floats *)

Lemma scaled_bounds m e :
  canonical m e -> 0 < Zpos m * 2 ^ (e + 1074) < 2 ^ 2100.
Proof.
  intros [He Hc].
  assert (Hm : Zpos m < 2 ^ 53) by (destruct Hc as [[_ H]|[[_ H] _]]; exact H).
  assert (Hlo : -1074 <= e) by (destruct Hc as [[-> _]|[_ H]]; lia).
  split.
  - apply Z.mul_pos_pos; [lia | apply Z.pow_pos_nonneg; lia].
  - apply Z.lt_le_trans with (2 ^ 53 * 2 ^ (e + 1074)).
    + apply Z.mul_lt_mono_pos_r; [apply Z.pow_pos_nonneg; lia | exact Hm].
    + rewrite <- Z.pow_add_r by lia. apply Z.pow_le_mono_r; lia.
Qed.

Lemma scaled_lt m1 e1 m2 e2 :
  canonical m1 e1 -> canonical m2 e2 -> e1 < e2 ->
  Zpos m1 * 2 ^ (e1 + 1074) < Zpos m2 * 2 ^ (e2 + 1074).
Proof.
  intros [He1 Hc1] [He2 Hc2] Hlt.
  assert (Hm1 : Zpos m1 < 2 ^ 53) by (destruct Hc1 as [[_ H]|[[_ H] _]]; exact H).
  assert (Hlo1 : -1074 <= e1) by (destruct Hc1 as [[-> _]|[_ H]]; lia).
  assert (Hm2 : 2 ^ 52 <= Zpos m2) by (destruct Hc2 as [[E _]|[[H _] _]]; [lia | exact H]).
  replace (e2 + 1074) with ((e2 - e1) + (e1 + 1074)) by lia.
  rewrite (Z.pow_add_r 2 (e2 - e1) (e1 + 1074)) by lia. rewrite Z.mul_assoc.
  apply Z.mul_lt_mono_pos_r; [apply Z.pow_pos_nonneg; lia|].
  apply Z.lt_le_trans with (2 ^ 53); [exact Hm1|].
  change (2 ^ 53) with (2 ^ 52 * 2 ^ 1).
  apply Z.mul_le_mono_nonneg; try lia.
  apply Z.pow_le_mono_r; lia.
Qed.

Lemma compare_cont_Eq m1 m2 : PosDef.Pos.compare_cont Eq m1 m2 = (Zpos m1 ?= Zpos m2).
Proof. reflexivity. Qed.

Ltac by_compare :=
  symmetry;
  first [apply Z.compare_eq_iff; lia | apply Z.compare_lt_iff; lia
        | apply Z.compare_gt_iff; lia].

Lemma scaled_compare m1 m2 e :
  -1074 <= e ->
  (Zpos m1 * 2 ^ (e + 1074) ?= Zpos m2 * 2 ^ (e + 1074)) = (Zpos m1 ?= Zpos m2).
Proof.
  intros H.
  assert (P : 0 < 2 ^ (e + 1074)) by (apply Z.pow_pos_nonneg; lia).
  destruct (Z.compare_spec (Zpos m1) (Zpos m2)) as [E|L|G].
  - rewrite E. apply Z.compare_refl.
  - apply Z.compare_lt_iff. now apply Z.mul_lt_mono_pos_r.
  - apply Z.compare_gt_iff. now apply Z.mul_lt_mono_pos_r.
Qed.

Lemma canonical_low m e : canonical m e -> -1074 <= e.
Proof. intros [_ [[-> _]|[_ H]]]; lia. Qed.

(** On numbers, the comparison of two floats is that of their ranks. *)
Lemma SFcompare_rank x y :
  is_number x -> is_number y ->
  SFcompare (Prim2SF x) (Prim2SF y) = Some (float_rank x ?= float_rank y).
Proof.
  unfold is_number, float_rank. intros Hx Hy.
  assert (P : 0 < 2 ^ 2100) by (apply Z.pow_pos_nonneg; lia).
  set (top := 2 ^ 2100) in *.
  destruct (Prim2SF x) as [sx|sx| |sx mx ex] eqn:Ex;
    destruct (Prim2SF y) as [sy|sy| |sy my ey] eqn:Ey;
    try congruence; simpl SFcompare;
    try (apply Prim2SF_canonical in Ex; pose proof (scaled_bounds _ _ Ex) as Bx);
    try (apply Prim2SF_canonical in Ey; pose proof (scaled_bounds _ _ Ey) as By);
    fold top in Bx, By || fold top in Bx || fold top in By || idtac;
    f_equal;
    try solve [reflexivity
              | destruct sx; by_compare | destruct sy; by_compare
              | destruct sx, sy; by_compare].
  destruct (Z.compare_spec ex ey) as [E|L|G].
  - subst ey.
    destruct sx, sy; try by_compare.
    + rewrite compare_cont_Eq, Z.compare_opp, scaled_compare
        by now apply canonical_low in Ex.
      symmetry. apply Z.compare_antisym.
    + rewrite compare_cont_Eq, scaled_compare by now apply canonical_low in Ex.
      reflexivity.
  - pose proof (scaled_lt _ _ _ _ Ex Ey L). destruct sx, sy; by_compare.
  - assert (G' : ey < ex) by lia.
    pose proof (scaled_lt _ _ _ _ Ey Ex G'). destruct sx, sy; by_compare.
Qed.

Lemma leb_numbers x y : PrimFloat.leb x y = true -> is_number x /\ is_number y.
Proof.
  rewrite leb_spec. unfold SFleb, is_number.
  destruct (Prim2SF x), (Prim2SF y); simpl; try discriminate; split; discriminate.
Qed.

Lemma ltb_rank x y :
  is_number x -> is_number y -> PrimFloat.ltb x y = (float_rank x <? float_rank y).
Proof.
  intros Hx Hy. rewrite ltb_spec. unfold SFltb. rewrite SFcompare_rank by assumption.
  unfold Z.ltb. now destruct (float_rank x ?= float_rank y).
Qed.

Lemma leb_rank x y :
  is_number x -> is_number y -> PrimFloat.leb x y = (float_rank x <=? float_rank y).
Proof.
  intros Hx Hy. rewrite leb_spec. unfold SFleb. rewrite SFcompare_rank by assumption.
  unfold Z.leb. now destruct (float_rank x ?= float_rank y).
Qed.

Lemma eqb_rank x y :
  is_number x -> is_number y -> PrimFloat.eqb x y = (float_rank x =? float_rank y).
Proof.
  intros Hx Hy. rewrite eqb_spec. unfold SFeqb. rewrite SFcompare_rank by assumption.
  destruct (Z.compare_spec (float_rank x) (float_rank y)) as [E|L|G]; symmetry.
  - now apply Z.eqb_eq.
  - apply Z.eqb_neq. lia.
  - apply Z.eqb_neq. lia.
Qed.

(** ** Sorting by a float key *)

Section FloatKey.
Context {A : Type} (key : A -> float).

Lemma insert_desc_float_rank x l :
  is_number (key x) -> Forall (fun a => is_number (key a)) l ->
  PySeq.insert_desc_float key x l = Py.insert_desc (fun a => float_rank (key a)) x l.
Proof.
  intros Hx Hl. induction Hl as [|y l Hy Hl IH]; [reflexivity|].
  simpl. rewrite <- ltb_rank by assumption.
  now rewrite IH.
Qed.

Lemma sorted_desc_float_rank l :
  Forall (fun a => is_number (key a)) l ->
  PySeq.sorted_desc_float key l = Py.sorted_desc (fun a => float_rank (key a)) l.
Proof.
  intros Hl. induction Hl as [|x l Hx Hl IH]; [reflexivity|].
  unfold PySeq.sorted_desc_float, Py.sorted_desc in *. simpl. rewrite IH.
  apply insert_desc_float_rank; [assumption|].
  rewrite Forall_forall in *. intros a Ha. apply Hl.
  eapply Permutation_in; [apply (sorted_desc_perm (fun a => float_rank (key a)))|exact Ha].
Qed.

Lemma insert_asc_float_rank x l :
  is_number (key x) -> Forall (fun a => is_number (key a)) l ->
  PySeq.insert_asc_float key x l = Py.insert_desc (fun a => - float_rank (key a)) x l.
Proof.
  intros Hx Hl. induction Hl as [|y l Hy Hl IH]; [reflexivity|].
  simpl. rewrite IH. rewrite ltb_rank by assumption.
  replace (- float_rank (key x) <? - float_rank (key y))
    with (float_rank (key y) <? float_rank (key x)); [reflexivity|].
  destruct (Z.ltb_spec (float_rank (key y)) (float_rank (key x)));
    symmetry; [apply Z.ltb_lt | apply Z.ltb_ge]; lia.
Qed.

Lemma sorted_asc_float_rank l :
  Forall (fun a => is_number (key a)) l ->
  PySeq.sorted_asc_float key l = Py.sorted_desc (fun a => - float_rank (key a)) l.
Proof.
  intros Hl. induction Hl as [|x l Hx Hl IH]; [reflexivity|].
  unfold PySeq.sorted_asc_float, Py.sorted_desc in *. simpl. rewrite IH.
  apply insert_asc_float_rank; [assumption|].
  rewrite Forall_forall in *. intros a Ha. apply Hl.
  eapply Permutation_in; [apply (sorted_desc_perm (fun a => - float_rank (key a)))|exact Ha].
Qed.

End FloatKey.

(** ** The first elements of a sorted list *)

Lemma StronglySorted_app_inv {A} (R : A -> A -> Prop) l1 l2 :
  StronglySorted R (l1 ++ l2) ->
  StronglySorted R l1 /\ forall a b, In a l1 -> In b l2 -> R a b.
Proof.
  induction l1 as [|x l1 IH]; simpl; intros H.
  - split; [constructor | intros a b []].
  - inversion H as [|? ? Hs Hall]; subst. destruct (IH Hs) as [H1 H2].
    rewrite Forall_forall in Hall. split.
    + constructor; [assumption|]. rewrite Forall_forall. intros y Hy.
      apply Hall. apply in_or_app. now left.
    + intros a b [<-|Ha] Hb; [|now apply H2].
      apply Hall. apply in_or_app. now right.
Qed.

Lemma StronglySorted_weaken {A} (R R' : A -> A -> Prop) (P : A -> Prop) l :
  (forall a b, P a -> P b -> R a b -> R' a b) ->
  Forall P l -> StronglySorted R l -> StronglySorted R' l.
Proof.
  intros HR HP Hs. induction Hs as [|x l Hs IH Hall]; [constructor|].
  inversion HP as [|? ? Px Pl]; subst. constructor; [now apply IH|].
  rewrite Forall_forall in *. intros y Hy. apply HR; auto.
Qed.

Lemma filter_firstn {A} (f : A -> bool) n (l : list A) :
  exists m, filter f (firstn n l) = firstn m (filter f l).
Proof.
  revert n. induction l as [|x l IH]; intros [|n]; simpl;
    try (exists O; reflexivity).
  destruct (IH n) as [m Hm]. destruct (f x).
  - exists (S m). simpl. now rewrite Hm.
  - exists m. exact Hm.
Qed.

Section TopOfSorted.
Context {A : Type} (key : A -> Z).

(** What the [n] first elements of a list sorted by decreasing key are: as
    many as asked or all there are, in decreasing order of key, no smaller
    than any element left out, and, among equal keys, the earliest of the
    list in the order of the list. *)
Lemma top_of_sorted (l : list A) (n : nat) :
  let top := firstn n (Py.sorted_desc key l) in
  List.length top = Nat.min n (List.length l) /\
  (forall a, In a top -> In a l) /\
  StronglySorted (fun a b => key b <= key a) top /\
  (exists rest, Permutation (top ++ rest) l /\
     forall a b, In a top -> In b rest -> key b <= key a) /\
  (forall k, exists m,
     filter (fun a => key a =? k) top = firstn m (filter (fun a => key a =? k) l)).
Proof.
  intros top.
  pose proof (sorted_desc_perm key l) as Hp.
  pose proof (sorted_desc_sorted key l) as Hs.
  rewrite <- (firstn_skipn n (Py.sorted_desc key l)) in Hs.
  apply StronglySorted_app_inv in Hs. destruct Hs as [Hs1 Hs2].
  split; [|split; [|split; [|split]]].
  - unfold top. rewrite length_firstn. now rewrite (Permutation_length Hp).
  - intros a Ha. apply (Permutation_in a Hp). eapply In_firstn. exact Ha.
  - exact Hs1.
  - exists (skipn n (Py.sorted_desc key l)). split; [|exact Hs2].
    unfold top. now rewrite firstn_skipn.
  - intros k. destruct (filter_firstn (fun a => key a =? k) n (Py.sorted_desc key l))
      as [m Hm].
    exists m. unfold top. rewrite Hm. now rewrite sorted_desc_stable.
Qed.

End TopOfSorted.

(** ** Highly rated and budget dishes *)

Lemma eqb_not_number x k : ~ is_number k -> PrimFloat.eqb x k = false.
Proof.
  intros Hk. rewrite eqb_spec. unfold SFeqb.
  destruct (Prim2SF k) eqn:E; try (exfalso; apply Hk; unfold is_number; congruence).
  now destruct (Prim2SF x).
Qed.

Lemma is_number_dec x : {is_number x} + {~ is_number x}.
Proof.
  unfold is_number. destruct (Prim2SF x); try (left; discriminate).
  right. intros H. now apply H.
Qed.

Lemma filter_nothing {A} (f : A -> bool) l :
  (forall a, In a l -> f a = false) -> filter f l = [].
Proof.
  induction l as [|x l IH]; intros H; [reflexivity|]. simpl.
  rewrite (H x) by now left. apply IH. intros a Ha. apply H. now right.
Qed.

(** X1.  For a limit that is not negative, [get_highly_rated_items] returns
    dishes of the menu rated at least [min_rating], as many as the limit or
    all there are, in decreasing order of rating; no dish left out is rated
    higher than one returned; and dishes of equal rating come in menu order,
    the earliest of the menu first. *)
Theorem highly_rated_items_ranked
  (h : heap_t) (menu : list ref) (min_rating : float) (limit : Z) :
  0 <= limit ->
  let rate := fun item => rating (deref h item) in
  let candidates := filter (fun item => PrimFloat.leb min_rating (rate item)) menu in
  let result := get_highly_rated_items h menu min_rating limit in
  List.length result = Nat.min (Z.to_nat limit) (List.length candidates) /\
  (forall item, In item result ->
     In item menu /\ PrimFloat.leb min_rating (rate item) = true) /\
  StronglySorted (fun a b => PrimFloat.leb (rate b) (rate a) = true) result /\
  (exists rest,
     Permutation (result ++ rest) candidates /\
     forall a b, In a result -> In b rest -> PrimFloat.leb (rate b) (rate a) = true) /\
  (forall k, exists n,
     filter (fun item => PrimFloat.eqb (rate item) k) result
       = firstn n (filter (fun item => PrimFloat.eqb (rate item) k) candidates)).
Proof.
  intros Hl rate candidates result.
  assert (Hnum : Forall (fun item => is_number (rate item)) candidates).
  { rewrite Forall_forall. intros item Hi. apply filter_In in Hi.
    destruct Hi as [_ Hi]. now apply leb_numbers in Hi. }
  assert (E : result = firstn (Z.to_nat limit)
                         (Py.sorted_desc (fun a => float_rank (rate a)) candidates)).
  { unfold result, get_highly_rated_items. rewrite slice_to_nonneg by assumption.
    fold rate. fold candidates. now rewrite sorted_desc_float_rank. }
  destruct (top_of_sorted (fun a => float_rank (rate a)) candidates (Z.to_nat limit))
    as (H1 & H2 & H3 & (rest & H4 & H5) & H6).
  rewrite <- E in H1, H2, H3, H4, H5, H6.
  assert (Hres : Forall (fun item => is_number (rate item)) result).
  { rewrite Forall_forall in *. intros item Hi. apply Hnum. now apply H2. }
  split; [exact H1|]. split; [|split; [|split]].
  - intros item Hi. apply H2 in Hi. now apply filter_In in Hi.
  - eapply StronglySorted_weaken; [|exact Hres|exact H3].
    intros a b Ha Hb Hab. simpl in Hab. rewrite leb_rank by assumption.
    now apply Z.leb_le.
  - exists rest. split; [exact H4|]. intros a b Ha Hb.
    rewrite Forall_forall in Hnum.
    rewrite leb_rank.
    + apply Z.leb_le. now apply H5.
    + apply Hnum. apply (Permutation_in b H4). apply in_or_app. now right.
    + apply Hnum. apply (Permutation_in a H4). apply in_or_app. now left.
  - intros k. destruct (is_number_dec k) as [Hk|Hk].
    + destruct (H6 (float_rank k)) as [n Hn]. exists n.
      rewrite Forall_forall in Hnum, Hres.
      rewrite (filter_ext_in (fun item => PrimFloat.eqb (rate item) k)
                 (fun a => float_rank (rate a) =? float_rank k) result)
        by (intros a Ha; apply eqb_rank; auto).
      rewrite (filter_ext_in (fun item => PrimFloat.eqb (rate item) k)
                 (fun a => float_rank (rate a) =? float_rank k) candidates)
        by (intros a Ha; apply eqb_rank; auto).
      exact Hn.
    + exists O. simpl. apply filter_nothing. intros a _. now apply eqb_not_number.
Qed.

(** X2.  For a limit that is not negative, [get_budget_friendly_items] returns
    dishes of the menu priced at most [max_price], as many as the limit or all
    there are, in increasing order of price; no dish left out is cheaper than
    one returned; and dishes of equal price come in menu order, the earliest
    of the menu first. *)
Theorem budget_items_ranked
  (h : heap_t) (menu : list ref) (max_price : float) (limit : Z) :
  0 <= limit ->
  let cost := fun item => price (deref h item) in
  let candidates := filter (fun item => PrimFloat.leb (cost item) max_price) menu in
  let result := get_budget_friendly_items h menu max_price limit in
  List.length result = Nat.min (Z.to_nat limit) (List.length candidates) /\
  (forall item, In item result ->
     In item menu /\ PrimFloat.leb (cost item) max_price = true) /\
  StronglySorted (fun a b => PrimFloat.leb (cost a) (cost b) = true) result /\
  (exists rest,
     Permutation (result ++ rest) candidates /\
     forall a b, In a result -> In b rest -> PrimFloat.leb (cost a) (cost b) = true) /\
  (forall k, exists n,
     filter (fun item => PrimFloat.eqb (cost item) k) result
       = firstn n (filter (fun item => PrimFloat.eqb (cost item) k) candidates)).
Proof.
  intros Hl cost candidates result.
  assert (Hnum : Forall (fun item => is_number (cost item)) candidates).
  { rewrite Forall_forall. intros item Hi. apply filter_In in Hi.
    destruct Hi as [_ Hi]. now apply leb_numbers in Hi. }
  assert (E : result = firstn (Z.to_nat limit)
                         (Py.sorted_desc (fun a => - float_rank (cost a)) candidates)).
  { unfold result, get_budget_friendly_items. rewrite slice_to_nonneg by assumption.
    fold cost. fold candidates. now rewrite sorted_asc_float_rank. }
  destruct (top_of_sorted (fun a => - float_rank (cost a)) candidates (Z.to_nat limit))
    as (H1 & H2 & H3 & (rest & H4 & H5) & H6).
  rewrite <- E in H1, H2, H3, H4, H5, H6.
  assert (Hres : Forall (fun item => is_number (cost item)) result).
  { rewrite Forall_forall in *. intros item Hi. apply Hnum. now apply H2. }
  split; [exact H1|]. split; [|split; [|split]].
  - intros item Hi. apply H2 in Hi. now apply filter_In in Hi.
  - eapply StronglySorted_weaken; [|exact Hres|exact H3].
    intros a b Ha Hb Hab. simpl in Hab. rewrite leb_rank by assumption.
    apply Z.leb_le. lia.
  - exists rest. split; [exact H4|]. intros a b Ha Hb.
    rewrite Forall_forall in Hnum.
    rewrite leb_rank.
    + apply Z.leb_le. specialize (H5 a b Ha Hb). simpl in H5. lia.
    + apply Hnum. apply (Permutation_in a H4). apply in_or_app. now left.
    + apply Hnum. apply (Permutation_in b H4). apply in_or_app. now right.
  - intros k. destruct (is_number_dec k) as [Hk|Hk].
    + destruct (H6 (- float_rank k)) as [n Hn]. exists n.
      rewrite Forall_forall in Hnum, Hres.
      assert (Q : forall a, is_number (cost a) ->
                    PrimFloat.eqb (cost a) k = (- float_rank (cost a) =? - float_rank k)).
      { intros a Ha. rewrite eqb_rank by assumption.
        destruct (Z.eqb_spec (float_rank (cost a)) (float_rank k)) as [Q|Q];
          symmetry; [apply Z.eqb_eq | apply Z.eqb_neq]; lia. }
      rewrite (filter_ext_in (fun item => PrimFloat.eqb (cost item) k)
                 (fun a => - float_rank (cost a) =? - float_rank k) result)
        by (intros a Ha; apply Q; auto).
      rewrite (filter_ext_in (fun item => PrimFloat.eqb (cost item) k)
                 (fun a => - float_rank (cost a) =? - float_rank k) candidates)
        by (intros a Ha; apply Q; auto).
      exact Hn.
    + exists O. simpl. apply filter_nothing. intros a _. now apply eqb_not_number.
Qed.

Lemma highly_rated_items_ranked_witness :
  let h := heap fresh_session in
  let menu := menu_items fresh_session in
  let rate := fun item => rating (deref h item) in
  let candidates := filter (fun item => PrimFloat.leb 4.3 (rate item)) menu in
  let result := get_highly_rated_items h menu 4.3 3 in
  map (fun item => name (deref h item)) result = ["Pizza"; "Ice Cream"; "Burger"]%string /\
  List.length result = Nat.min (Z.to_nat 3) (List.length candidates) /\
  (forall item, In item result ->
     In item menu /\ PrimFloat.leb 4.3 (rate item) = true) /\
  StronglySorted (fun a b => PrimFloat.leb (rate b) (rate a) = true) result /\
  (exists rest,
     Permutation (result ++ rest) candidates /\
     forall a b, In a result -> In b rest -> PrimFloat.leb (rate b) (rate a) = true) /\
  (forall k, exists n,
     filter (fun item => PrimFloat.eqb (rate item) k) result
       = firstn n (filter (fun item => PrimFloat.eqb (rate item) k) candidates)).
Proof.
  split; [vm_compute; reflexivity|].
  apply (highly_rated_items_ranked (heap fresh_session) (menu_items fresh_session)
           4.3 3).
  lia.
Defined.

Lemma budget_items_ranked_witness :
  let h := heap fresh_session in
  let menu := menu_items fresh_session in
  let cost := fun item => price (deref h item) in
  let candidates := filter (fun item => PrimFloat.leb (cost item) 100) menu in
  let result := get_budget_friendly_items h menu 100 3 in
  map (fun item => name (deref h item)) result = ["Ice Cream"; "Fries"; "Coffee"]%string /\
  List.length result = Nat.min (Z.to_nat 3) (List.length candidates) /\
  (forall item, In item result ->
     In item menu /\ PrimFloat.leb (cost item) 100 = true) /\
  StronglySorted (fun a b => PrimFloat.leb (cost a) (cost b) = true) result /\
  (exists rest,
     Permutation (result ++ rest) candidates /\
     forall a b, In a result -> In b rest -> PrimFloat.leb (cost a) (cost b) = true) /\
  (forall k, exists n,
     filter (fun item => PrimFloat.eqb (cost item) k) result
       = firstn n (filter (fun item => PrimFloat.eqb (cost item) k) candidates)).
Proof.
  split; [vm_compute; reflexivity|].
  apply (budget_items_ranked (heap fresh_session) (menu_items fresh_session) 100 3).
  lia.
Defined.

(** ** The lines and the total of a cart *)

Lemma resolve_fold h menu c : forall lines total,
  fold_left (resolve_entry h menu) c (lines, total) =
    (lines ++ flat_map (resolved_line h menu) c,
     fold_left
       (fun t l =>
          PrimFloat.add t
            (PrimFloat.mul (price (deref h (fst l))) (Py.float_of_int (snd l))))
       (flat_map (resolved_line h menu) c) total).
Proof.
  induction c as [|[fid qty] c IH]; intros lines total; simpl.
  - now rewrite app_nil_r.
  - unfold resolved_line at 1 3. simpl fst. simpl snd.
    destruct (find_item h menu fid) as [item|]; simpl.
    + rewrite IH. now rewrite <- app_assoc.
    + apply IH.
Qed.

Lemma cart_snapshot_lines s :
  cart_snapshot s = flat_map (resolved_line (heap s) (menu_items s)) (cart s) /\
  cart_subtotal s = lines_total (heap s) (cart_snapshot s).
Proof.
  unfold cart_snapshot, cart_subtotal, resolve_cart, lines_total.
  rewrite resolve_fold. simpl. split; reflexivity.
Qed.

(** ** What one interaction does to the store, the ledger and the cart *)

Lemma step_heap a s : exists extra, heap (fst (step a s)) = heap s ++ extra.
Proof.
  assert (Same : exists extra, heap s = heap s ++ extra)
    by (exists []; now rewrite app_nil_r).
  destruct a as [op|customer teacher now| | |nm pr cat rt image|item|i|]; simpl;
    try exact Same.
  - unfold click_place_order. destruct (cart s); [exact Same|].
    destruct customer; [exact Same|].
    unfold place_order.
    destruct (resolve_cart (heap s) (menu_items s) (cart s)) as [[|l ls] total];
      exact Same.
  - destruct (show_quick_recommendations_effect s) as [E|[E|E]]; rewrite E;
      exact Same.
  - unfold add_dish.
    destruct (negb (String.eqb nm EmptyString) && PrimFloat.ltb 0 pr); simpl;
      [eexists; reflexivity | exact Same].
  - unfold delete_dish. destruct (existsb (Nat.eqb item) (menu_items s)); exact Same.
  - unfold delete_order.
    destruct (Nat.ltb i (List.length (orders s))
              && Nat.leb (List.length (orders s) - 10) i); exact Same.
Qed.

(** An interaction leaves the ledger and the counter as they are, or deletes
    one order, or appends the order made of the cart under the counter's
    value. *)
Lemma step_orders a s :
  (orders (fst (step a s)) = orders s /\
   order_index (fst (step a s)) = order_index s) \/
  (exists i, a = ADeleteOrder i /\
     (i < List.length (orders s))%nat /\
     orders (fst (step a s)) = Py.list_remove_at (orders s) i /\
     order_index (fst (step a s)) = order_index s) \/
  (exists customer teacher now,
     a = APlaceOrder customer teacher now /\
     cart_snapshot s <> [] /\
     orders (fst (step a s)) =
       orders s ++ [mkOrderHistory (order_index s) customer (cart_snapshot s)
                      (cart_subtotal s) now teacher] /\
     order_index (fst (step a s)) = order_index s + 1).
Proof.
  destruct a as [op|customer teacher now| | |nm pr cat rt image|item|i|]; simpl;
    try (left; split; reflexivity).
  - unfold click_place_order. destruct (cart s) eqn:Ec; [left; split; reflexivity|].
    destruct customer as [|ch customer]; [left; split; reflexivity|].
    destruct (list_eq_dec (prod_eq_dec Nat.eq_dec Z.eq_dec) (cart_snapshot s) [])
      as [E|E].
    + rewrite (place_order_empty _ _ _ _ E). left; split; reflexivity.
    + right. right. exists (String ch customer), teacher, now.
      rewrite place_order_nonempty by assumption. simpl. repeat split. exact E.
  - left. now destruct (show_quick_recommendations_effect s) as [E|[E|E]]; rewrite E.
  - left. unfold add_dish.
    destruct (negb (String.eqb nm EmptyString) && PrimFloat.ltb 0 pr); simpl;
      split; reflexivity.
  - left. unfold delete_dish. destruct (existsb (Nat.eqb item) (menu_items s)); split; reflexivity.
  - unfold delete_order.
    destruct (Nat.ltb i (List.length (orders s))) eqn:Ei; simpl;
      [|left; split; reflexivity].
    destruct (Nat.leb (List.length (orders s) - 10) i); simpl;
      [|left; split; reflexivity].
    right. left. exists i. apply Nat.ltb_lt in Ei. repeat split. exact Ei.
Qed.

Lemma step_cart_positive a s :
  cart_positive (cart s) -> cart_positive (cart (fst (step a s))).
Proof.
  intros Hc.
  destruct a as [op|customer teacher now| | |nm pr cat rt image|item|i|]; simpl;
    try exact Hc; try constructor.
  - now apply cart_step_positive.
  - unfold click_place_order. destruct (cart s) as [|entry c] eqn:Ec; simpl;
      [rewrite Ec; exact Hc|].
    destruct customer; simpl; [rewrite Ec; exact Hc|].
    unfold place_order. rewrite Ec.
    destruct (resolve_cart (heap s) (menu_items s) (entry :: c)) as [[|l ls] total];
      simpl; [rewrite Ec; exact Hc | constructor].
  - destruct (show_quick_recommendations_effect s) as [E|[E|E]]; rewrite E;
      exact Hc.
  - unfold add_dish.
    destruct (negb (String.eqb nm EmptyString) && PrimFloat.ltb 0 pr); exact Hc.
  - unfold delete_dish. destruct (existsb (Nat.eqb item) (menu_items s)); exact Hc.
  - unfold delete_order.
    destruct (Nat.ltb i (List.length (orders s))
              && Nat.leb (List.length (orders s) - 10) i); exact Hc.
Qed.

(** ** The invariant of a session *)

Lemma lines_total_extend h extra ls :
  Forall (fun l => (fst l < List.length h)%nat) ls ->
  lines_total (h ++ extra) ls = lines_total h ls.
Proof.
  unfold lines_total. generalize 0%float.
  induction ls as [|l ls IH]; intros total H; [reflexivity|].
  inversion H as [|? ? Hl Hls]; subst. simpl.
  rewrite deref_extend by assumption. now apply IH.
Qed.

Lemma order_sound_extend h extra o :
  order_sound h o -> order_sound (h ++ extra) o.
Proof.
  intros (Hne & Hl & Ht). split; [assumption|]. split.
  - eapply Forall_impl; [|exact Hl]. intros l [H1 H2]. split; [|assumption].
    rewrite length_app. lia.
  - rewrite lines_total_extend; [assumption|].
    eapply Forall_impl; [|exact Hl]. now intros l [H1 _].
Qed.

Lemma list_remove_at_map {A B} (f : A -> B) l i :
  map f (Py.list_remove_at l i) = Py.list_remove_at (map f l) i.
Proof.
  revert i. induction l as [|x l IH]; intros [|i]; simpl; try reflexivity.
  now rewrite IH.
Qed.

Lemma list_remove_at_sorted {A} (R : A -> A -> Prop) l i :
  StronglySorted R l -> StronglySorted R (Py.list_remove_at l i).
Proof.
  intros H. revert i. induction H as [|x l Hs IH Hall]; intros [|i]; simpl;
    try constructor; auto.
  rewrite Forall_forall in *. intros y Hy. apply Hall.
  now apply In_list_remove_at in Hy.
Qed.

Lemma list_remove_at_Forall {A} (P : A -> Prop) l i :
  Forall P l -> Forall P (Py.list_remove_at l i).
Proof.
  rewrite !Forall_forall. intros H x Hx. apply H. now apply In_list_remove_at in Hx.
Qed.

Lemma sorted_snoc l x :
  StronglySorted Z.lt l -> Forall (fun y => y < x) l -> StronglySorted Z.lt (l ++ [x]).
Proof.
  intros Hs Hx. induction Hs as [|y l Hs IH Hall].
  - repeat constructor.
  - inversion Hx as [|? ? Hy Hl]; subst. simpl. constructor; [now apply IH|].
    apply Forall_app. split; [assumption | now constructor].
Qed.

Lemma snapshot_sound s :
  wf_state s -> cart_positive (cart s) ->
  Forall (fun l => (fst l < List.length (heap s))%nat /\ 0 < snd l) (cart_snapshot s).
Proof.
  intros [Hm _] Hc. rewrite Forall_forall. intros l Hl. split.
  - rewrite Forall_forall in Hm. apply Hm. now apply cart_snapshot_refs.
  - destruct (cart_snapshot_lines s) as [E _]. rewrite E in Hl.
    apply in_flat_map in Hl. destruct Hl as [[fid qty] [Hin Hl]].
    unfold resolved_line in Hl. simpl in Hl.
    destruct (find_item (heap s) (menu_items s) fid); [|destruct Hl].
    destruct Hl as [<-|[]]. simpl.
    unfold cart_positive in Hc. rewrite Forall_forall in Hc.
    now apply Hc in Hin.
Qed.

Lemma step_session_ok a s : session_ok s -> session_ok (fst (step a s)).
Proof.
  intros (Hcat & Hcart & (Hone & Hsorted & Hids) & Hsound).
  split; [now apply step_catalog_ok|]. split; [now apply step_cart_positive|].
  destruct (step_heap a s) as [extra Eh].
  assert (Hsound' : Forall (order_sound (heap (fst (step a s)))) (orders s)).
  { rewrite Eh. eapply Forall_impl; [|exact Hsound].
    intros o. apply order_sound_extend. }
  destruct (step_orders a s)
    as [[Eo Ei]|[(i & _ & _ & Eo & Ei)|(customer & teacher & now & Ea & Hne & Eo & Ei)]].
  - unfold ledger_sorted. rewrite Eo, Ei. repeat split; assumption.
  - unfold ledger_sorted. rewrite Eo, Ei. split; [split; [|split]|].
    + assumption.
    + rewrite list_remove_at_map. now apply list_remove_at_sorted.
    + now apply list_remove_at_Forall.
    + now apply list_remove_at_Forall.
  - unfold ledger_sorted. rewrite Eo, Ei. split; [split; [|split]|].
    + lia.
    + rewrite map_app. simpl. apply sorted_snoc; [assumption|].
      rewrite Forall_forall in *. intros y Hy. apply in_map_iff in Hy.
      destruct Hy as [o [<- Ho]]. apply Hids in Ho. lia.
    + apply Forall_app. split.
      * eapply Forall_impl; [|exact Hids]. simpl. intros o Ho. lia.
      * constructor; [|constructor]. simpl. lia.
    + apply Forall_app. split; [assumption|]. constructor; [|constructor].
      subst a. rewrite Eh.
      apply order_sound_extend. split; [exact Hne|]. split.
      * apply snapshot_sound; [apply Hcat | assumption].
      * simpl. apply cart_snapshot_lines.
Qed.

Lemma run_session_ok acts : forall s, session_ok s -> session_ok (fst (run acts s)).
Proof.
  induction acts as [|a acts IH]; intros s H; [exact H|].
  rewrite run_cons. simpl fst. apply IH. now apply step_session_ok.
Qed.

Lemma init_session_ok images : session_ok (initialize_session_state images).
Proof.
  split; [apply init_catalog_ok|]. split; [constructor|].
  split; [|constructor].
  split; [simpl; lia|]. split; constructor.
Qed.

Lemma reachable_ok s : reachable s -> session_ok s.
Proof.
  intros (images & acts & ->). apply run_session_ok, init_session_ok.
Qed.

Lemma run_app acts1 : forall acts2 s,
  fst (run (acts1 ++ acts2) s) = fst (run acts2 (fst (run acts1 s))).
Proof.
  induction acts1 as [|a acts1 IH]; intros acts2 s; [reflexivity|].
  rewrite <- app_comm_cons, !run_cons. simpl fst. apply IH.
Qed.

Lemma reachable_run acts s : reachable s -> reachable (fst (run acts s)).
Proof.
  intros (images & acts0 & ->). exists images, (acts0 ++ acts).
  symmetry. apply run_app.
Qed.

(** ** Orders of the ledger *)

(** X3.  In every state of a session, every order of the ledger has at least
    one line, every line holds a dish of the store and a quantity of one or
    more, and the total of the order is the sum of [price * quantity] over its
    lines, as [place_order] added it up: adding dishes, deleting dishes and
    deleting other orders change none of this. *)
Theorem orders_keep_lines_and_total (s : AppState) (o : OrderHistory) :
  reachable s -> In o (orders s) ->
  items o <> [] /\
  Forall (fun l => (fst l < List.length (heap s))%nat /\ 0 < snd l) (items o) /\
  total_amount o = lines_total (heap s) (items o).
Proof.
  intros Hr Ho. apply reachable_ok in Hr.
  destruct Hr as (_ & _ & _ & Hsound).
  rewrite Forall_forall in Hsound. exact (Hsound o Ho).
Qed.

Lemma coffee_state_reachable : reachable coffee_state.
Proof. eexists. eexists. unfold coffee_state. reflexivity. Qed.

Lemma orders_keep_lines_and_total_witness :
  let s := fst (run [AAddDish "Kulfi" 40 "Dessert" 4.5 None; ADeleteDish 1%nat]
                  coffee_state) in
  exists o,
    orders s = [o] /\
    items o = [(1%nat, 5); (0%nat, 1)] /\
    items o <> [] /\
    Forall (fun l => (fst l < List.length (heap s))%nat /\ 0 < snd l) (items o) /\
    total_amount o = lines_total (heap s) (items o).
Proof.
  eexists. split; [vm_compute; reflexivity|]. split; [reflexivity|].
  apply (orders_keep_lines_and_total
           (fst (run [AAddDish "Kulfi" 40 "Dessert" 4.5 None; ADeleteDish 1%nat]
                   coffee_state))).
  - apply reachable_run. exact coffee_state_reachable.
  - left. reflexivity.
Defined.

(** ** The list of orders of the admin *)

Lemma StronglySorted_app_r {A} (R : A -> A -> Prop) l1 l2 :
  StronglySorted R (l1 ++ l2) -> StronglySorted R l2.
Proof.
  induction l1 as [|x l1 IH]; simpl; intros H; [exact H|].
  inversion H; subst. now apply IH.
Qed.

Lemma StronglySorted_snoc {A} (R : A -> A -> Prop) l x :
  StronglySorted R l -> Forall (fun y => R y x) l -> StronglySorted R (l ++ [x]).
Proof.
  intros Hs Hx. induction Hs as [|y l Hs IH Hall].
  - repeat constructor.
  - inversion Hx as [|? ? Hy Hl]; subst. simpl. constructor; [now apply IH|].
    apply Forall_app. split; [assumption | now constructor].
Qed.

Lemma StronglySorted_rev {A} (R : A -> A -> Prop) l :
  StronglySorted R l -> StronglySorted (fun a b => R b a) (rev l).
Proof.
  induction 1 as [|x l Hs IH Hall]; simpl; [constructor|].
  apply StronglySorted_snoc; [exact IH|].
  rewrite Forall_forall in *. intros y Hy. apply Hall. now apply in_rev.
Qed.

Lemma slice_from_last {A} (l : list A) (n : nat) :
  (0 < n)%nat -> PySeq.slice_from l (- Z.of_nat n) = skipn (List.length l - n) l.
Proof.
  intros Hn. unfold PySeq.slice_from.
  destruct (0 <=? - Z.of_nat n) eqn:E; [apply Z.leb_le in E; lia|].
  rewrite Z.opp_involutive. now rewrite Nat2Z.id.
Qed.

Lemma shown_orders_last os :
  shown_orders os = rev (skipn (List.length os - 10) os).
Proof.
  unfold shown_orders. change (-10) with (- Z.of_nat 10).
  now rewrite slice_from_last by lia.
Qed.

Lemma nth_error_rev {A} (l : list A) k :
  (k < List.length l)%nat ->
  nth_error (rev l) k = nth_error l (List.length l - 1 - k).
Proof.
  intros Hk. destruct (nth_error l (List.length l - 1 - k)) as [x|] eqn:E.
  - rewrite (nth_error_nth' (rev l) x) by now rewrite length_rev.
    rewrite rev_nth by assumption.
    replace (List.length l - S k)%nat with (List.length l - 1 - k)%nat by lia.
    f_equal. now apply nth_error_nth.
  - apply nth_error_None in E. lia.
Qed.

Lemma shown_orders_length os :
  List.length (shown_orders os) = Nat.min 10 (List.length os).
Proof. rewrite shown_orders_last, length_rev, length_skipn. lia. Qed.

Lemma shown_orders_nth os k :
  (k < List.length (shown_orders os))%nat ->
  nth_error (shown_orders os) k = nth_error os (shown_position os k).
Proof.
  intros Hk. pose proof (shown_orders_length os) as Hlen.
  rewrite shown_orders_last.
  rewrite nth_error_rev by (rewrite length_skipn; lia).
  rewrite nth_error_skipn. f_equal. unfold shown_position.
  rewrite length_skipn. lia.
Qed.

(** X4.  In every state of a session the admin's list shows the ten latest
    orders (all of them when there are fewer), the latest first: the
    identifiers go down strictly along the list, the [k]-th order listed is
    the [k]-th from the end of the ledger, and every order left out is older
    than every order listed. *)
Theorem shown_orders_newest_first (s : AppState) :
  reachable s ->
  let shown := shown_orders (orders s) in
  List.length shown = Nat.min 10 (List.length (orders s)) /\
  StronglySorted Z.gt (map order_id shown) /\
  (forall k, (k < List.length shown)%nat ->
     nth_error shown k = nth_error (orders s) (shown_position (orders s) k)) /\
  (forall o o', In o shown -> In o' (orders s) -> ~ In o' shown ->
     order_id o' < order_id o).
Proof.
  intros Hr shown. apply reachable_ok in Hr.
  destruct Hr as (_ & _ & (_ & Hsorted & _) & _).
  assert (E : shown = rev (skipn (List.length (orders s) - 10) (orders s)))
    by apply shown_orders_last.
  set (n := (List.length (orders s) - 10)%nat) in *.
  split; [apply shown_orders_length|]. split; [|split].
  - rewrite E, map_rev. rewrite <- (firstn_skipn n (orders s)) in Hsorted.
    rewrite map_app in Hsorted. apply StronglySorted_app_r in Hsorted.
    apply StronglySorted_rev in Hsorted.
    eapply StronglySorted_weaken with (P := fun _ => True); [| |exact Hsorted].
    + intros a b _ _ H. simpl in H. lia.
    + rewrite Forall_forall. auto.
  - intros k Hk. now apply shown_orders_nth.
  - intros o o' Ho Ho' Hn.
    rewrite <- (firstn_skipn n (orders s)) in Hsorted, Ho'.
    rewrite map_app in Hsorted. apply StronglySorted_app_inv in Hsorted.
    destruct Hsorted as [_ Hlt].
    apply in_app_or in Ho'. destruct Ho' as [Ho'|Ho'].
    + apply Hlt; apply in_map; [exact Ho'|]. rewrite E in Ho. now apply in_rev in Ho.
    + exfalso. apply Hn. rewrite E. now apply in_rev in Ho'.
Qed.

Lemma twelve_orders_reachable : reachable twelve_orders.
Proof. eexists. eexists. unfold twelve_orders. reflexivity. Qed.

Lemma shown_orders_newest_first_witness :
  let s := twelve_orders in
  let shown := shown_orders (orders s) in
  map order_id shown = [12; 11; 10; 9; 8; 7; 6; 5; 4; 3] /\
  List.length shown = Nat.min 10 (List.length (orders s)) /\
  StronglySorted Z.gt (map order_id shown) /\
  (forall k, (k < List.length shown)%nat ->
     nth_error shown k = nth_error (orders s) (shown_position (orders s) k)) /\
  (forall o o', In o shown -> In o' (orders s) -> ~ In o' shown ->
     order_id o' < order_id o).
Proof.
  split; [vm_compute; reflexivity|].
  apply (shown_orders_newest_first twelve_orders).
  exact twelve_orders_reachable.
Defined.

Lemma list_remove_at_filter {A} (f : A -> Z) (l : list A) (i : nat) (x : A) :
  NoDup (map f l) -> nth_error l i = Some x ->
  Py.list_remove_at l i = filter (fun y => negb (f y =? f x)) l.
Proof.
  revert i. induction l as [|y l IH]; intros i Hnd Hi.
  - destruct i; discriminate.
  - simpl in Hnd. inversion Hnd as [|? ? Hnin Hnd']; subst.
    destruct i as [|i]; simpl in *.
    + injection Hi as ->. rewrite Z.eqb_refl. simpl.
      symmetry. apply forallb_filter_id. apply forallb_forall.
      intros z Hz. apply negb_true_iff. apply Z.eqb_neq. intros E.
      apply Hnin. rewrite <- E. now apply in_map.
    + destruct (Z.eqb_spec (f y) (f x)) as [E|E]; simpl.
      * exfalso. apply Hnin. rewrite E. apply in_map.
        eapply nth_error_In. exact Hi.
      * f_equal. now apply IH.
Qed.

Lemma list_remove_at_length {A} (l : list A) i :
  (i < List.length l)%nat -> S (List.length (Py.list_remove_at l i)) = List.length l.
Proof.
  revert i. induction l as [|x l IH]; intros i Hi; simpl in *; [lia|].
  destruct i; [reflexivity|]. simpl. rewrite IH by lia. reflexivity.
Qed.

(** X5.  In every state of a session, [Delete] on the [k]-th order listed
    removes that order and no other: the ledger keeps, in their order, the
    orders bearing another identifier, one fewer than before; the counter, the
    menu, the cart and the cached recommendations stay as they were. *)
Theorem delete_order_removes_that_order (s : AppState) (k : nat) (o : OrderHistory) :
  reachable s -> nth_error (shown_orders (orders s)) k = Some o ->
  let s' := fst (delete_order (shown_position (orders s) k) s) in
  orders s' = filter (fun o' => negb (order_id o' =? order_id o)) (orders s) /\
  ~ In (order_id o) (map order_id (orders s')) /\
  S (List.length (orders s')) = List.length (orders s) /\
  order_index s' = order_index s /\
  menu_items s' = menu_items s /\ cart s' = cart s /\
  popular_cache s' = popular_cache s /\
  snd (delete_order (shown_position (orders s) k) s) = [EvRerun].
Proof.
  intros Hr Hk s'.
  assert (Hlt : (k < List.length (shown_orders (orders s)))%nat)
    by (apply nth_error_Some; congruence).
  pose proof (shown_orders_length (orders s)) as Hlen.
  rewrite (shown_orders_nth _ k Hlt) in Hk.
  apply reachable_ok in Hr. destruct Hr as (_ & _ & (_ & Hsorted & _) & _).
  apply strongly_sorted_lt_NoDup in Hsorted.
  set (i := shown_position (orders s) k) in *.
  assert (Hi : (i < List.length (orders s))%nat) by (apply nth_error_Some; congruence).
  assert (Hi' : (List.length (orders s) - 10 <= i)%nat)
    by (unfold i, shown_position; lia).
  assert (E : delete_order i s =
              (mkAppState (heap s) (menu_items s) (Py.list_remove_at (orders s) i)
                 (order_index s) (cart s) (popular_cache s), [EvRerun])).
  { unfold delete_order.
    destruct (Nat.ltb_spec i (List.length (orders s))); [|lia].
    destruct (Nat.leb_spec (List.length (orders s) - 10) i); [reflexivity|lia]. }
  unfold s'. rewrite E. simpl.
  rewrite (list_remove_at_filter order_id _ _ _ Hsorted Hk).
  split; [reflexivity|]. split; [|split; [|repeat split]].
  - intros Hin. apply in_map_iff in Hin. destruct Hin as [o' [Eo Ho']].
    apply filter_In in Ho'. destruct Ho' as [_ Ho'].
    rewrite Eo, Z.eqb_refl in Ho'. discriminate.
  - rewrite <- (list_remove_at_filter order_id _ _ _ Hsorted Hk).
    now apply list_remove_at_length.
Qed.

Lemma delete_order_removes_that_order_witness :
  let s := twelve_orders in
  exists o,
    nth_error (shown_orders (orders s)) 2 = Some o /\ order_id o = 10 /\
    let s' := fst (delete_order (shown_position (orders s) 2) s) in
    map order_id (orders s') = [1; 2; 3; 4; 5; 6; 7; 8; 9; 11; 12] /\
    orders s' = filter (fun o' => negb (order_id o' =? order_id o)) (orders s) /\
    ~ In (order_id o) (map order_id (orders s')) /\
    S (List.length (orders s')) = List.length (orders s) /\
    order_index s' = order_index s /\
    menu_items s' = menu_items s /\ cart s' = cart s /\
    popular_cache s' = popular_cache s /\
    snd (delete_order (shown_position (orders s) 2) s) = [EvRerun].
Proof.
  eexists. split; [vm_compute; reflexivity|]. split; [reflexivity|].
  split; [vm_compute; reflexivity|].
  apply (delete_order_removes_that_order twelve_orders 2).
  - exact twelve_orders_reachable.
  - vm_compute. reflexivity.
Defined.

(** ** The cart when the menu changes *)

Lemma find_item_remove_other h menu item fid :
  food_id (deref h item) <> fid ->
  find_item h (Py.list_remove menu item) fid = find_item h menu fid.
Proof.
  intros Hne. unfold find_item. induction menu as [|y menu IH]; [reflexivity|].
  simpl. destruct (Nat.eqb_spec y item) as [->|Hy].
  - destruct (Z.eqb_spec (food_id (deref h item)) fid); [contradiction | reflexivity].
  - simpl. now rewrite IH.
Qed.

Lemma find_item_absent h menu fid :
  ~ In fid (map (fun r => food_id (deref h r)) menu) -> find_item h menu fid = None.
Proof.
  intros Hn. unfold find_item.
  destruct (find (fun m => food_id (deref h m) =? fid) menu) as [r|] eqn:E;
    [|reflexivity].
  apply find_some in E. destruct E as [Hr E]. apply Z.eqb_eq in E.
  exfalso. apply Hn. rewrite <- E.
  now apply (in_map (fun r => food_id (deref h r))).
Qed.

Lemma find_item_unique h menu item :
  NoDup (map (fun r => food_id (deref h r)) menu) -> In item menu ->
  find_item h menu (food_id (deref h item)) = Some item /\
  find_item h (Py.list_remove menu item) (food_id (deref h item)) = None.
Proof.
  unfold find_item. induction menu as [|y menu IH]; intros Hnd Hin; [destruct Hin|].
  simpl in Hnd. inversion Hnd as [|? ? Hnin Hnd']; subst. simpl.
  destruct (Nat.eqb_spec y item) as [->|Hy].
  - rewrite Z.eqb_refl. split; [reflexivity|].
    now apply (find_item_absent h menu).
  - destruct Hin as [->|Hin]; [congruence|].
    destruct (Z.eqb_spec (food_id (deref h y)) (food_id (deref h item))) as [E|E].
    + exfalso. apply Hnin. rewrite E.
      now apply (in_map (fun r => food_id (deref h r))).
    + simpl. apply Z.eqb_neq in E. rewrite E. now apply IH.
Qed.

Lemma flat_map_filter {A B} (f g : A -> list B) (p : B -> bool) l :
  (forall a, In a l -> g a = filter p (f a)) ->
  flat_map g l = filter p (flat_map f l).
Proof.
  induction l as [|a l IH]; intros H; [reflexivity|]. simpl.
  rewrite filter_app, <- (H a) by now left. f_equal.
  apply IH. intros b Hb. apply H. now right.
Qed.

(** X6.  In every state of a session, deleting a dish from the menu leaves the
    cart as it is and takes the dish's line, and no other, out of what the
    cart resolves to: the entry stays in the cart, orphaned. The ledger is
    untouched, and no dish of the menu bears the identifier any more. *)
Theorem delete_dish_orphans_cart_entry (s : AppState) (item : ref) :
  reachable s -> In item (menu_items s) ->
  let s' := fst (delete_dish item s) in
  cart s' = cart s /\
  cart_snapshot s' =
    filter (fun l => negb (Nat.eqb (fst l) item)) (cart_snapshot s) /\
  ~ In (food_id (deref (heap s) item)) (catalog_ids s') /\
  find_item (heap s') (menu_items s') (food_id (deref (heap s) item)) = None /\
  orders s' = orders s.
Proof.
  intros Hr Hin s'. apply reachable_ok in Hr.
  destruct Hr as ((_ & Hnd) & _).
  assert (E : delete_dish item s =
              (mkAppState (heap s) (Py.list_remove (menu_items s) item)
                 (orders s) (order_index s) (cart s) (popular_cache s), [EvRerun])).
  { unfold delete_dish.
    destruct (existsb (Nat.eqb item) (menu_items s)) eqn:Ex; [reflexivity|].
    assert (Hx : existsb (Nat.eqb item) (menu_items s) = true)
      by (apply existsb_exists; exists item; split; [assumption | apply Nat.eqb_refl]).
    congruence. }
  destruct (find_item_unique (heap s) (menu_items s) item Hnd Hin) as [Hu1 Hu2].
  unfold s'. rewrite E. simpl.
  split; [reflexivity|]. split; [|split; [|split; [exact Hu2|reflexivity]]].
  - destruct (cart_snapshot_lines s) as [-> _].
    unfold cart_snapshot, resolve_cart. simpl. rewrite resolve_fold. simpl.
    apply flat_map_filter. intros [fid qty] _. unfold resolved_line. simpl fst. simpl snd.
    destruct (Z.eq_dec (food_id (deref (heap s) item)) fid) as [<-|Hne].
    + rewrite Hu1, Hu2. simpl. now rewrite Nat.eqb_refl.
    + rewrite find_item_remove_other by assumption.
      destruct (find_item (heap s) (menu_items s) fid) as [r|] eqn:Ef; [|reflexivity].
      simpl. destruct (Nat.eqb_spec r item) as [->|Hr]; [|reflexivity].
      apply find_item_Some in Ef. destruct Ef as [_ Ef]. congruence.
  - unfold catalog_ids. simpl. intros Hc. apply in_map_iff in Hc.
    destruct Hc as [r [Er Hr]].
    unfold find_item in Hu2. apply (find_none _ _ Hu2) in Hr.
    apply Z.eqb_neq in Hr. congruence.
Qed.

Lemma delete_dish_orphans_cart_entry_witness :
  let s := burger_coffee_cart in
  let s' := fst (delete_dish 0%nat s) in
  (cart s = [(1, 2); (2, 1)] /\ cart_snapshot s = [(0%nat, 2); (1%nat, 1)] /\
   cart_snapshot s' = [(1%nat, 1)]) /\
  cart s' = cart s /\
  cart_snapshot s' =
    filter (fun l => negb (Nat.eqb (fst l) 0%nat)) (cart_snapshot s) /\
  ~ In (food_id (deref (heap s) 0%nat)) (catalog_ids s') /\
  find_item (heap s') (menu_items s') (food_id (deref (heap s) 0%nat)) = None /\
  orders s' = orders s.
Proof.
  split; [repeat split; reflexivity|].
  apply (delete_dish_orphans_cart_entry burger_coffee_cart 0%nat).
  - eexists. eexists. unfold burger_coffee_cart. reflexivity.
  - left. reflexivity.
Defined.

Lemma find_item_alloc h x menu fid :
  Forall (fun r => (r < List.length h)%nat) menu ->
  find_item (h ++ [x]) (menu ++ [List.length h]) fid =
    match find_item h menu fid with
    | Some r => Some r
    | None => if food_id x =? fid then Some (List.length h) else None
    end.
Proof.
  unfold find_item. induction 1 as [|r menu Hr Hm IH]; simpl.
  - now rewrite deref_new.
  - rewrite deref_alloc by assumption.
    destruct (food_id (deref h r) =? fid); [reflexivity | exact IH].
Qed.

Lemma flat_map_ext_in {A B} (f g : A -> list B) l :
  (forall a, In a l -> f a = g a) -> flat_map f l = flat_map g l.
Proof.
  induction l as [|a l IH]; intros H; [reflexivity|]. simpl.
  rewrite (H a) by now left. f_equal. apply IH. intros b Hb. apply H. now right.
Qed.

Lemma snapshot_sound_refs s :
  wf_state s ->
  Forall (fun l => (fst l < List.length (heap s))%nat) (cart_snapshot s).
Proof.
  intros [Hm _]. rewrite Forall_forall. intros l Hl.
  rewrite Forall_forall in Hm. apply Hm. now apply cart_snapshot_refs.
Qed.

(** X7.  In every state of a session, adding a dish leaves the cart as it is
    and keeps every line the cart resolved to; a cart entry left orphaned
    under the identifier that the new dish receives now resolves to the new
    dish, with the quantity it had. A cart without that identifier resolves to
    what it did, with the same subtotal. *)
Theorem add_dish_adopts_orphan_entry
  (s : AppState) (nm : string) (pr : float) (cat : string) (rt : float)
  (image : option string) :
  reachable s -> nm <> EmptyString -> PrimFloat.ltb 0 pr = true ->
  let new_id := Py.max_default (catalog_ids s) 0 + 1 in
  let new_item := List.length (heap s) in
  let s' := fst (add_dish nm pr cat rt image s) in
  cart s' = cart s /\
  cart_snapshot s' =
    flat_map (fun entry =>
                if fst entry =? new_id then [(new_item, snd entry)]
                else resolved_line (heap s) (menu_items s) entry) (cart s) /\
  (forall qty, In (new_id, qty) (cart s) ->
     In (new_item, qty) (cart_snapshot s') /\
     name (deref (heap s') new_item) = nm /\
     forall l, In l (cart_snapshot s) -> food_id (deref (heap s) (fst l)) <> new_id) /\
  (Py.dict_mem (cart s) new_id = false ->
     cart_snapshot s' = cart_snapshot s /\ cart_subtotal s' = cart_subtotal s).
Proof.
  intros Hr Hn Hp new_id new_item s'. apply reachable_ok in Hr.
  destruct Hr as (([Hm Ho] & Hnd) & _).
  assert (Hfresh : find_item (heap s) (menu_items s) new_id = None).
  { apply find_item_absent. intros Hin.
    apply (max_default_ge _ 0) in Hin. unfold new_id, catalog_ids in *. lia. }
  assert (Hfind : forall fid,
            find_item (heap s') (menu_items s') fid =
              if fid =? new_id then Some new_item
              else find_item (heap s) (menu_items s) fid).
  { intros fid. unfold s'. rewrite add_dish_accepted by assumption. simpl.
    rewrite find_item_alloc by assumption. simpl. fold new_id.
    rewrite (Z.eqb_sym new_id fid).
    destruct (Z.eqb_spec fid new_id) as [->|Hne].
    - now rewrite Hfresh.
    - now destruct (find_item (heap s) (menu_items s) fid). }
  assert (Hcart : cart s' = cart s)
    by (unfold s'; now rewrite add_dish_accepted by assumption).
  assert (Hsnap : cart_snapshot s' =
                  flat_map (fun entry =>
                              if fst entry =? new_id then [(new_item, snd entry)]
                              else resolved_line (heap s) (menu_items s) entry)
                    (cart s)).
  { destruct (cart_snapshot_lines s') as [-> _]. rewrite Hcart.
    apply flat_map_ext. intros [fid qty]. unfold resolved_line. simpl fst. simpl snd.
    rewrite Hfind. now destruct (fid =? new_id). }
  split; [exact Hcart|]. split; [exact Hsnap|]. split.
  - intros qty Hin. split; [|split].
    + rewrite Hsnap. apply in_flat_map. exists (new_id, qty).
      split; [exact Hin|]. simpl. rewrite Z.eqb_refl. now left.
    + unfold s', new_item. rewrite add_dish_accepted by assumption. simpl.
      now rewrite deref_new.
    + intros l Hl E. destruct (cart_snapshot_lines s) as [Es _]. rewrite Es in Hl.
      apply in_flat_map in Hl. destruct Hl as [[fid q] [_ Hl]].
      unfold resolved_line in Hl. simpl in Hl.
      destruct (find_item (heap s) (menu_items s) fid) as [r|] eqn:Ef; [|destruct Hl].
      destruct Hl as [<-|[]]. simpl in E.
      destruct (find_item_Some _ _ _ _ Ef) as [_ Ef'].
      rewrite E in Ef'. subst fid. congruence.
  - intros Hmem.
    assert (Es : cart_snapshot s' = cart_snapshot s).
    { rewrite Hsnap. destruct (cart_snapshot_lines s) as [-> _].
      apply flat_map_ext_in. intros [fid qty] Hin. simpl fst.
      destruct (Z.eqb_spec fid new_id) as [->|Hne]; [|reflexivity].
      exfalso. apply not_true_iff_false in Hmem. apply Hmem.
      unfold Py.dict_mem. apply existsb_exists. exists (new_id, qty).
      split; [exact Hin | apply Z.eqb_refl]. }
    split; [exact Es|].
    destruct (cart_snapshot_lines s') as [_ ->].
    destruct (cart_snapshot_lines s) as [_ ->]. rewrite Es.
    unfold s'. rewrite add_dish_accepted by assumption. simpl.
    apply lines_total_extend.
    eapply Forall_impl; [|apply snapshot_sound_refs; split; assumption].
    now intros l Hl.
Qed.

Lemma add_dish_adopts_orphan_entry_witness :
  let s := orphan_ice_cream in
  let new_id := Py.max_default (catalog_ids s) 0 + 1 in
  let new_item := List.length (heap s) in
  let s' := fst (add_dish "Kulfi" 40 "Dessert" 4.5 None s) in
  (cart s = [(8, 1)] /\ cart_snapshot s = [] /\ new_id = 8 /\
   order_lines (heap s') (cart_snapshot s') = [("Kulfi"%string, 1)]) /\
  cart s' = cart s /\
  cart_snapshot s' =
    flat_map (fun entry =>
                if fst entry =? new_id then [(new_item, snd entry)]
                else resolved_line (heap s) (menu_items s) entry) (cart s) /\
  (forall qty, In (new_id, qty) (cart s) ->
     In (new_item, qty) (cart_snapshot s') /\
     name (deref (heap s') new_item) = "Kulfi"%string /\
     forall l, In l (cart_snapshot s) -> food_id (deref (heap s) (fst l)) <> new_id) /\
  (Py.dict_mem (cart s) new_id = false ->
     cart_snapshot s' = cart_snapshot s /\ cart_subtotal s' = cart_subtotal s).
Proof.
  split; [repeat split; reflexivity|].
  apply (add_dish_adopts_orphan_entry orphan_ice_cream "Kulfi" 40 "Dessert" 4.5 None).
  - eexists. eexists. unfold orphan_ice_cream. reflexivity.
  - discriminate.
  - reflexivity.
Defined.

(** ** Placing the cart *)

Lemma click_place_order_accepted customer teacher now s :
  customer <> EmptyString -> cart_snapshot s <> [] ->
  click_place_order customer teacher now s = place_order customer teacher now s.
Proof.
  intros Hc Hs. unfold click_place_order.
  destruct (cart s) as [|entry c] eqn:Ec.
  - exfalso. apply Hs. unfold cart_snapshot. now rewrite Ec.
  - destruct customer; [congruence | reflexivity].
Qed.

Lemma resolves_some s :
  (exists entry, In entry (cart s) /\
     find_item (heap s) (menu_items s) (fst entry) <> None) ->
  cart_snapshot s <> [].
Proof.
  intros (entry & Hin & Hf) E. destruct (cart_snapshot_lines s) as [Es _].
  rewrite E in Es.
  destruct (find_item (heap s) (menu_items s) (fst entry)) as [r|] eqn:Ef;
    [|congruence].
  assert (Hl : In (r, snd entry)
                 (flat_map (resolved_line (heap s) (menu_items s)) (cart s))).
  { apply in_flat_map. exists entry. split; [exact Hin|].
    unfold resolved_line. rewrite Ef. now left. }
  rewrite <- Es in Hl. destruct Hl.
Qed.

(** X8.  In every state of a session, [Place Order] with a name, on a cart of
    which at least one entry resolves, appends one order to the ledger and
    changes no other: it bears the counter's value, an identifier that no
    order of the ledger bears, the name and the customer type given, the lines
    that the cart resolves to in cart order (orphaned entries are left out)
    and their total; the counter grows by one, the cart and the cached
    recommendations are emptied, the menu stays. *)
Theorem place_order_commits_the_cart
  (s : AppState) (customer : string) (teacher : bool) (now : string) :
  reachable s -> customer <> EmptyString ->
  (exists entry, In entry (cart s) /\
     find_item (heap s) (menu_items s) (fst entry) <> None) ->
  let r := click_place_order customer teacher now s in
  exists o,
    orders (fst r) = orders s ++ [o] /\
    order_id o = order_index s /\
    ~ In (order_id o) (map order_id (orders s)) /\
    customer_name o = customer /\ is_teacher o = teacher /\ date o = now /\
    items o = flat_map (resolved_line (heap s) (menu_items s)) (cart s) /\
    total_amount o = lines_total (heap s) (items o) /\
    order_index (fst r) = order_index s + 1 /\
    cart (fst r) = [] /\ popular_cache (fst r) = [] /\
    menu_items (fst r) = menu_items s /\
    snd r = [EvOrderPlaced (order_index s); EvBalloons].
Proof.
  intros Hr Hc Hres r. apply resolves_some in Hres.
  apply reachable_ok in Hr. destruct Hr as (_ & _ & (_ & _ & Hids) & _).
  unfold r. rewrite click_place_order_accepted by assumption.
  rewrite place_order_nonempty by assumption. simpl.
  eexists. split; [reflexivity|]. simpl.
  split; [reflexivity|]. split.
  - intros Hin. apply in_map_iff in Hin. destruct Hin as [o [Eo Ho]].
    rewrite Forall_forall in Hids. apply Hids in Ho. lia.
  - destruct (cart_snapshot_lines s) as [E1 E2].
    repeat split; assumption.
Qed.

Lemma place_order_commits_the_cart_witness :
  let s := fst (run [ACart (Plus 2)] orphan_ice_cream) in
  let r := click_place_order "Alice" true "03-11-2026 12:00" s in
  cart s = [(8, 1); (2, 1)] /\
  exists o,
    items o = [(1%nat, 1)] /\
    orders (fst r) = orders s ++ [o] /\
    order_id o = order_index s /\
    ~ In (order_id o) (map order_id (orders s)) /\
    customer_name o = "Alice"%string /\ is_teacher o = true /\
    date o = "03-11-2026 12:00"%string /\
    items o = flat_map (resolved_line (heap s) (menu_items s)) (cart s) /\
    total_amount o = lines_total (heap s) (items o) /\
    order_index (fst r) = order_index s + 1 /\
    cart (fst r) = [] /\ popular_cache (fst r) = [] /\
    menu_items (fst r) = menu_items s /\
    snd r = [EvOrderPlaced (order_index s); EvBalloons].
Proof.
  split; [reflexivity|].
  destruct (place_order_commits_the_cart
              (fst (run [ACart (Plus 2)] orphan_ice_cream))
              "Alice" true "03-11-2026 12:00") as [o Ho].
  - apply reachable_run. eexists. eexists. unfold orphan_ice_cream. reflexivity.
  - discriminate.
  - exists (2, 1). split; [right; left; reflexivity | discriminate].
  - exists o. split; [|exact Ho].
    destruct Ho as (_ & _ & _ & _ & _ & _ & Hi & _). rewrite Hi. reflexivity.
Defined.

(** ** The cache of popular items *)

Lemma step_keeps_cache a s limit r :
  a <> ACacheExpire -> placed_ids (snd (step a s)) = [] ->
  cache_answers limit r s -> cache_answers limit r (fst (step a s)).
Proof.
  intros Ha Hp Hc.
  destruct a as [op|customer teacher now| | |nm pr cat rt image|item|i|]; simpl;
    try exact Hc; try congruence.
  - simpl in Hp. unfold click_place_order in *.
    destruct (cart s) as [|entry c] eqn:Ec; [exact Hc|].
    destruct customer as [|ch customer]; [exact Hc|].
    destruct (list_eq_dec (prod_eq_dec Nat.eq_dec Z.eq_dec) (cart_snapshot s) [])
      as [E|E].
    + now rewrite (place_order_empty _ _ _ _ E).
    + rewrite place_order_nonempty in Hp by assumption. discriminate.
  - unfold show_quick_recommendations. destruct (orders s); [exact Hc|].
    pose proof (cached_call_keeps script_run limit 3 r s Hc) as Hk.
    destruct (cached_get_popular_items script_run 3 s) as [[popular|exc] s'];
      exact Hk.
  - unfold add_dish.
    destruct (negb (String.eqb nm EmptyString) && PrimFloat.ltb 0 pr); exact Hc.
  - unfold delete_dish. destruct (existsb (Nat.eqb item) (menu_items s)); exact Hc.
  - unfold delete_order.
    destruct (Nat.ltb i (List.length (orders s))
              && Nat.leb (List.length (orders s) - 10) i); exact Hc.
Qed.

Lemma run_keeps_cache acts limit r : forall s,
  Forall (fun a => a <> ACacheExpire) acts ->
  placed_ids (snd (run acts s)) = [] ->
  cache_answers limit r s -> cache_answers limit r (fst (run acts s)).
Proof.
  induction acts as [|a acts IH]; intros s Ha Hp Hc; [exact Hc|].
  inversion Ha as [|? ? Ha1 Ha2]; subst.
  rewrite run_cons in *. simpl fst. simpl snd in Hp.
  rewrite placed_ids_app in Hp. apply app_eq_nil in Hp. destruct Hp as [Hp1 Hp2].
  apply IH; [assumption | assumption |]. now apply step_keeps_cache.
Qed.

(** In the running app the cache never holds a dish: the only answer that
    [show_quick_recommendations] can store is the empty one. *)
Lemma step_cache_holds_no_dish a s :
  cache_holds_no_dish s -> cache_holds_no_dish (fst (step a s)).
Proof.
  unfold cache_holds_no_dish. intros Hc.
  destruct a as [op|customer teacher now| | |nm pr cat rt image|item|i|]; simpl;
    try exact Hc; try constructor.
  - unfold click_place_order.
    destruct (cart s) as [|entry c] eqn:Ec; [exact Hc|].
    destruct customer as [|ch customer]; [exact Hc|].
    destruct (list_eq_dec (prod_eq_dec Nat.eq_dec Z.eq_dec) (cart_snapshot s) [])
      as [E|E].
    + now rewrite (place_order_empty _ _ _ _ E).
    + rewrite place_order_nonempty by assumption. constructor.
  - destruct (show_quick_recommendations_effect s) as [E|[E|E]]; rewrite E;
      try exact Hc.
    simpl. constructor; [reflexivity | exact Hc].
  - unfold add_dish.
    destruct (negb (String.eqb nm EmptyString) && PrimFloat.ltb 0 pr); exact Hc.
  - unfold delete_dish. destruct (existsb (Nat.eqb item) (menu_items s)); exact Hc.
  - unfold delete_order.
    destruct (Nat.ltb i (List.length (orders s))
              && Nat.leb (List.length (orders s) - 10) i); exact Hc.
Qed.

Lemma run_cache_holds_no_dish acts : forall s,
  cache_holds_no_dish s -> cache_holds_no_dish (fst (run acts s)).
Proof.
  induction acts as [|a acts IH]; intros s Hc; [exact Hc|].
  rewrite run_cons. simpl fst. apply IH. now apply step_cache_holds_no_dish.
Qed.

Lemma reachable_cache_holds_no_dish s : reachable s -> cache_holds_no_dish s.
Proof.
  intros (images & acts & ->). apply run_cache_holds_no_dish. constructor.
Qed.

(** What the call of the running app can return in a session. *)
Lemma script_run_returns_no_dish s limit r :
  cache_holds_no_dish s ->
  fst (cached_get_popular_items script_run limit s) = Returns r -> r = [].
Proof.
  unfold cache_holds_no_dish, cached_get_popular_items. intros Hc.
  destruct (find (fun e => fst e =? limit) (popular_cache s)) as [e|] eqn:Ef.
  - simpl. intros [= <-]. apply find_some in Ef. destruct Ef as [Hin _].
    rewrite Forall_forall in Hc. now apply Hc.
  - destruct (pickles script_run _) eqn:Ep; simpl; [|discriminate].
    intros [= <-]. apply pickles_script_run in Ep. now rewrite Ep.
Qed.

(** X9.  Once [get_popular_items] has returned an answer for a limit, it
    returns the same answer again, whoever calls, and leaves the session as
    it is, after any interactions during which no order is placed and the
    cache does not expire: dishes added or deleted, orders deleted and cart
    changes in between do not show in the answer.  In a session of the
    running app the answer returned is the empty list. *)
Theorem popular_items_cache_hit (s : AppState) (limit : Z) (acts : list action)
  (current current' : ref -> bool) (r : list MenuItem) :
  Forall (fun a => a <> ACacheExpire) acts ->
  let first := cached_get_popular_items current limit s in
  let later := run acts (snd first) in
  fst first = Returns r ->
  placed_ids (snd later) = [] ->
  cached_get_popular_items current' limit (fst later) = (Returns r, fst later) /\
  (reachable s -> current = script_run -> r = []).
Proof.
  intros Ha first later Hr Hp. split.
  - apply cached_call_hit.
    apply run_keeps_cache; [assumption | assumption |].
    now apply cached_call_stores.
  - intros Hs ->. apply (script_run_returns_no_dish s limit);
      [now apply reachable_cache_holds_no_dish | exact Hr].
Qed.

Lemma popular_items_cache_hit_witness :
  let s := coffee_state in
  let acts := [ADeleteDish 1%nat; ADeleteOrder 0%nat; ACart (Plus 3)] in
  let first := cached_get_popular_items direct_call 3 s in
  let later := run acts (snd first) in
  let gone :=
    fst (run [ACart (Plus 8); APlaceOrder "Alice" false "03-11-2026 12:00";
              ADeleteDish 7%nat] fresh_session) in
  let acts' := [ARecommend; AAddDish "Kulfi" 40 "Dessert" 4.5 None; ARecommend] in
  let first' := cached_get_popular_items script_run 3 gone in
  let later' := run acts' (snd first') in
  (map name [deref (heap s) 0%nat; deref (heap s) 1%nat]
     = ["Burger"; "Coffee"]%string /\
   orders (fst later) = [] /\
   map (fun r => name (deref (heap (fst later)) r)) (menu_items (fst later))
     = ["Burger"; "Pizza"; "Pasta"; "Sandwich"; "Fries"; "Salad"; "Ice Cream"]%string /\
   List.length (orders (fst later')) = 1%nat /\
   map (fun r => name (deref (heap (fst later')) r))
     (get_popular_items (heap (fst later')) (menu_items (fst later'))
        (orders (fst later')) 3)
     = ["Kulfi"]%string) /\
  cached_get_popular_items direct_call 3 (fst later)
    = (Returns [deref (heap s) 0%nat; deref (heap s) 1%nat], fst later) /\
  cached_get_popular_items script_run 3 (fst later') = (Returns [], fst later').
Proof.
  split; [repeat split; vm_compute; reflexivity|]. split.
  - apply (popular_items_cache_hit coffee_state 3
             [ADeleteDish 1%nat; ADeleteOrder 0%nat; ACart (Plus 3)]
             direct_call direct_call).
    + repeat constructor; discriminate.
    + vm_compute. reflexivity.
    + vm_compute. reflexivity.
  - apply (popular_items_cache_hit
             (fst (run [ACart (Plus 8);
                        APlaceOrder "Alice" false "03-11-2026 12:00";
                        ADeleteDish 7%nat] fresh_session)) 3
             [ARecommend; AAddDish "Kulfi" 40 "Dessert" 4.5 None; ARecommend]
             script_run script_run).
    + repeat constructor; discriminate.
    + vm_compute. reflexivity.
    + vm_compute. reflexivity.
Defined.

Lemma item_counts_snoc h os o :
  item_counts h (os ++ [o]) = fold_left (tally h) (items o) (item_counts h os).
Proof. unfold item_counts. now rewrite fold_left_app. Qed.

(** Every key of the tally is the identifier of a dish of some line. *)
Lemma tally_keys_from h ls : forall c k,
  In k (map fst (fold_left (tally h) ls c)) ->
  In k (map fst c) \/ exists l, In l ls /\ fid_of h (fst l) = k.
Proof.
  induction ls as [|l ls IH]; intros c k Hk; simpl in *; [now left|].
  apply IH in Hk. destruct Hk as [Hk|(l' & Hl' & E)].
  - unfold tally in Hk. rewrite dict_set_keys in Hk.
    destruct (Py.dict_mem c (food_id (deref h (fst l)))); [now left|].
    apply in_app_or in Hk. destruct Hk as [Hk|[<-|[]]]; [now left|].
    right. exists l. split; [now left | reflexivity].
  - right. exists l'. split; [now right | exact E].
Qed.

(** While every dish ever ordered is still on the menu, some dish is
    popular. *)
Lemma popular_items_not_nil h menu os limit :
  1 <= limit -> all_lines os <> [] ->
  (forall l, In l (all_lines os) -> In (fst l) menu) ->
  get_popular_items h menu os limit <> [].
Proof.
  intros Hl Hne Hmenu. unfold get_popular_items.
  destruct (item_counts h os) as [|kv0 counts0] eqn:Ec.
  { apply item_counts_nil_iff in Ec. contradiction. }
  unfold popular_ids. rewrite Ec, slice_to_nonneg by lia.
  pose proof (sorted_desc_perm snd (kv0 :: counts0)) as Hperm.
  destruct (Py.sorted_desc snd (kv0 :: counts0)) as [|kv ranked] eqn:Es.
  { apply Permutation_nil in Hperm. discriminate. }
  assert (Hk : In (fst kv) (map fst (item_counts h os))).
  { rewrite Ec. apply in_map. apply (Permutation_in _ Hperm). now left. }
  unfold item_counts in Hk. rewrite item_counts_flat in Hk.
  apply tally_keys_from in Hk. destruct Hk as [[]|(l & Hin & E)].
  destruct (Z.to_nat limit) as [|n] eqn:En; [lia|].
  intros Hnil.
  assert (Hf : In (fst l) []); [|exact Hf].
  rewrite <- Hnil. apply filter_In. split; [now apply Hmenu|].
  apply existsb_exists. exists (fst kv). split; [simpl; now left|].
  unfold fid_of in E. rewrite E. apply Z.eqb_refl.
Qed.

(** X10.  A placement that succeeds empties the cache: the next call of
    [get_popular_items] computes its answer from the menu and the ledger as
    they now are, the new order included in the tally.  A direct call returns
    that answer and stores it.  In the running app the answer is returned and
    stored only when it is empty; otherwise the call raises, nothing is
    stored, and the run that draws the user panel ends there.  The answer
    is not empty when the ledger was empty before the placement. *)
Theorem popular_items_cache_invalidated
  (s : AppState) (customer : string) (teacher : bool) (now : string) (limit : Z)
  (current : ref -> bool) :
  customer <> EmptyString -> cart_snapshot s <> [] ->
  let s' := fst (click_place_order customer teacher now s) in
  let popular_items :=
    get_popular_items (heap s') (menu_items s') (orders s') limit in
  let fresh := map (deref (heap s')) popular_items in
  popular_cache s' = [] /\
  item_counts (heap s') (orders s') =
    fold_left (tally (heap s)) (cart_snapshot s) (item_counts (heap s) (orders s)) /\
  cached_get_popular_items current limit s'
    = (if pickles current popular_items
       then (Returns fresh, set_cache [(limit, fresh)] s')
       else (Raises UnserializableReturnValueError, s')) /\
  cached_get_popular_items direct_call limit s'
    = (Returns fresh, set_cache [(limit, fresh)] s') /\
  (popular_items = [] ->
     cached_get_popular_items script_run limit s'
       = (Returns [], set_cache [(limit, [])] s')) /\
  (popular_items <> [] ->
     cached_get_popular_items script_run limit s'
       = (Raises UnserializableReturnValueError, s') /\
     (limit = 3 ->
        step ARecommend s' = (s', [EvException UnserializableReturnValueError]))) /\
  (orders s = [] -> 1 <= limit -> popular_items <> []).
Proof.
  intros Hc Hs s' popular_items fresh.
  assert (E : s' = mkAppState (heap s) (menu_items s)
                     (orders s ++ [mkOrderHistory (order_index s) customer
                                     (cart_snapshot s) (cart_subtotal s) now teacher])
                     (order_index s + 1) [] []).
  { unfold s'. rewrite click_place_order_accepted by assumption.
    now rewrite place_order_nonempty by assumption. }
  assert (Ec : popular_cache s' = []) by now rewrite E.
  assert (Hmiss : forall c,
            cached_get_popular_items c limit s'
              = if pickles c popular_items
                then (Returns fresh, set_cache [(limit, fresh)] s')
                else (Raises UnserializableReturnValueError, s')).
  { intros c. rewrite cached_call_miss by now rewrite Ec.
    fold popular_items. fold fresh. now rewrite Ec. }
  split; [exact Ec|]. split; [rewrite E; simpl; apply item_counts_snoc|].
  split; [apply Hmiss|].
  split; [rewrite Hmiss; now rewrite pickles_direct_call|].
  split; [|split].
  - intros Hnil. rewrite Hmiss. unfold fresh. now rewrite Hnil.
  - intros Hne.
    assert (Hp : pickles script_run popular_items = false).
    { destruct (pickles script_run popular_items) eqn:Ep; [|reflexivity].
      apply pickles_script_run in Ep. contradiction. }
    assert (Hraise : cached_get_popular_items script_run limit s'
                     = (Raises UnserializableReturnValueError, s'))
      by now rewrite Hmiss, Hp.
    split; [exact Hraise|]. intros ->. simpl.
    unfold show_quick_recommendations. rewrite Hraise.
    rewrite E. simpl. now destruct (orders s).
  - intros Ho Hl. unfold popular_items. rewrite E. simpl. rewrite Ho. simpl.
    apply popular_items_not_nil; [assumption | |].
    + unfold all_lines. simpl. rewrite app_nil_r. exact Hs.
    + unfold all_lines. simpl. rewrite app_nil_r.
      intros l Hin. now apply cart_snapshot_refs.
Qed.

Lemma popular_items_cache_invalidated_witness :
  let s := fst (run [ACart (Plus 3); ACart (Plus 3)] coffee_state) in
  let s' := fst (click_place_order "Bob" true "03-11-2026 12:05" s) in
  let popular_items :=
    get_popular_items (heap s') (menu_items s') (orders s') 3 in
  let fresh := map (deref (heap s')) popular_items in
  let first := fst (run [ACart (Plus 2)] fresh_session) in
  let first' := fst (click_place_order "Alice" false "03-11-2026 12:00" first) in
  (map name fresh = ["Burger"; "Coffee"; "Pizza"]%string /\
   orders first = [] /\ List.length (orders first') = 1%nat) /\
  popular_cache s' = [] /\
  cached_get_popular_items direct_call 3 s'
    = (Returns fresh, set_cache [(3, fresh)] s') /\
  step ARecommend s' = (s', [EvException UnserializableReturnValueError]) /\
  step ARecommend first' = (first', [EvException UnserializableReturnValueError]).
Proof.
  split; [repeat split; vm_compute; reflexivity|].
  destruct (popular_items_cache_invalidated
              (fst (run [ACart (Plus 3); ACart (Plus 3)] coffee_state))
              "Bob" true "03-11-2026 12:05" 3 direct_call)
    as (H1 & _ & _ & H4 & _ & H6 & _);
    [discriminate | vm_compute; discriminate |].
  destruct (popular_items_cache_invalidated
              (fst (run [ACart (Plus 2)] fresh_session))
              "Alice" false "03-11-2026 12:00" 3 script_run)
    as (_ & _ & _ & _ & _ & H6' & H7');
    [discriminate | vm_compute; discriminate |].
  split; [exact H1|]. split; [exact H4|]. split.
  - apply H6; [vm_compute; discriminate | reflexivity].
  - apply H6'; [|reflexivity]. apply H7'; [reflexivity | lia].
Defined.

(** ** The dishes of a session *)

Lemma fold_max_In l : forall a,
  fold_left Z.max l a = a \/ In (fold_left Z.max l a) l.
Proof.
  induction l as [|y l IH]; intros a; simpl; [now left|].
  destruct (IH (Z.max a y)) as [E|H]; [|right; now right].
  rewrite E. destruct (Z.max_spec a y) as [[_ M]|[_ M]]; rewrite M.
  - right. now left.
  - now left.
Qed.

Lemma max_default_In l d : l <> [] -> In (Py.max_default l d) l.
Proof.
  destruct l as [|x l]; [congruence|]. intros _. simpl.
  destruct (fold_max_In l x) as [E|H]; [left; now symmetry | now right].
Qed.

Lemma step_dishes_valid a s :
  wf_state s -> Forall dish_valid (heap s) -> Forall dish_valid (heap (fst (step a s))).
Proof.
  intros [Hm _] Hv.
  destruct a as [op|customer teacher now| | |nm pr cat rt image|item|i|]; simpl;
    try exact Hv.
  - unfold click_place_order. destruct (cart s) as [|entry c]; [exact Hv|].
    destruct customer; [exact Hv|]. unfold place_order.
    destruct (resolve_cart (heap s) (menu_items s) (cart s)) as [[|l ls] total];
      exact Hv.
  - destruct (show_quick_recommendations_effect s) as [E|[E|E]]; rewrite E;
      exact Hv.
  - unfold add_dish.
    destruct (String.eqb_spec nm EmptyString) as [->|Hn]; [exact Hv|].
    destruct (PrimFloat.ltb 0 pr) eqn:Hp; [|exact Hv]. simpl.
    apply Forall_app. split; [exact Hv|]. constructor; [|constructor].
    split; [exact Hn|]. split; [exact Hp|]. simpl.
    destruct (menu_items s) as [|r menu] eqn:Em; [simpl; lia|].
    assert (Hin : In (Py.max_default (map (fun i => food_id (deref (heap s) i)) (r :: menu)) 0)
                     (map (fun i => food_id (deref (heap s) i)) (r :: menu)))
      by (apply max_default_In; discriminate).
    apply in_map_iff in Hin. destruct Hin as [r' [E Hr']]. rewrite <- E.
    rewrite Forall_forall in Hm, Hv. specialize (Hm r' Hr').
    assert (Hd : dish_valid (deref (heap s) r'))
      by (apply Hv; unfold deref; now apply nth_In).
    destruct Hd as (_ & _ & Hid). lia.
  - unfold delete_dish. destruct (existsb (Nat.eqb item) (menu_items s)); exact Hv.
  - unfold delete_order.
    destruct (Nat.ltb i (List.length (orders s))
              && Nat.leb (List.length (orders s) - 10) i); exact Hv.
Qed.

Lemma run_dishes_valid acts : forall s,
  (wf_state s /\ NoDup (catalog_ids s)) -> Forall dish_valid (heap s) ->
  Forall dish_valid (heap (fst (run acts s))).
Proof.
  induction acts as [|a acts IH]; intros s Hw Hv; [exact Hv|].
  rewrite run_cons. simpl fst. apply IH.
  - now apply step_catalog_ok.
  - apply step_dishes_valid; [apply Hw | exact Hv].
Qed.

Lemma default_menu_valid images : Forall dish_valid (load_default_menu images).
Proof.
  unfold load_default_menu, menu_data, menu_row. simpl.
  repeat constructor; simpl; try discriminate; try lia.
Qed.

(** X11.  In every state of a session, every dish on the menu, and every dish
    in a line of an order, has a name that is not blank, a price above zero
    (so a number) and an identifier from 1 on: [Add Dish] refuses the others,
    and nothing changes a dish. *)
Theorem dishes_are_valid (s : AppState) :
  reachable s ->
  Forall (fun item => dish_valid (deref (heap s) item)) (menu_items s) /\
  Forall (fun o => Forall (fun l => dish_valid (deref (heap s) (fst l))) (items o))
    (orders s).
Proof.
  intros Hr. pose proof (reachable_ok s Hr) as ((W & _) & _).
  destruct Hr as (images & acts & ->).
  pose proof (run_dishes_valid acts _ (init_catalog_ok images)
                (default_menu_valid images)) as Hv.
  set (s := fst (run acts (initialize_session_state images))) in *.
  destruct W as [Hm Ho]. rewrite Forall_forall in Hv.
  split.
  - eapply Forall_impl; [|exact Hm]. intros r Hr. apply Hv.
    unfold deref. now apply nth_In.
  - eapply Forall_impl; [|exact Ho]. intros o Hl.
    eapply Forall_impl; [|exact Hl]. intros l Hr. apply Hv.
    unfold deref. now apply nth_In.
Qed.

Lemma dishes_are_valid_witness :
  let s := fst (run [AAddDish "Kulfi" 40 "Dessert" 4.5 None;
                     AAddDish "Air" 0 "Dessert" 4.5 None;
                     AAddDish EmptyString 10 "Dessert" 4.5 None; ADeleteDish 0%nat]
                  coffee_state) in
  map (fun item => name (deref (heap s) item)) (menu_items s)
    = ["Coffee"; "Pizza"; "Pasta"; "Sandwich"; "Fries"; "Salad"; "Ice Cream";
       "Kulfi"]%string /\
  Forall (fun item => dish_valid (deref (heap s) item)) (menu_items s) /\
  Forall (fun o => Forall (fun l => dish_valid (deref (heap s) (fst l))) (items o))
    (orders s).
Proof.
  split; [vm_compute; reflexivity|].
  apply (dishes_are_valid
           (fst (run [AAddDish "Kulfi" 40 "Dessert" 4.5 None;
                      AAddDish "Air" 0 "Dessert" 4.5 None;
                      AAddDish EmptyString 10 "Dessert" 4.5 None; ADeleteDish 0%nat]
                   coffee_state))).
  apply reachable_run. exact coffee_state_reachable.
Defined.

(** ** Accounts *)

(** The test vectors of the standard (the empty message, one block, two
    blocks), and the two passwords of the demo. *)
Lemma hexdigest_examples :
  Sha256.hexdigest EmptyString
    = "e3b0c44298fc1c149afbf4c8996fb92427ae41e4649b934ca495991b7852b855"%string /\
  Sha256.hexdigest "abc"
    = "ba7816bf8f01cfea414140de5dae2223b00361a396177a9cb410ff61f20015ad"%string /\
  Sha256.hexdigest "abcdbcdecdefdefgefghfghighijhijkijkljklmklmnlmnomnopnopq"
    = "248d6a61d20638b8e5c026930c3e6039a33ce45964ff2167f6ecedd419db06c1"%string /\
  hash_password "admin123"
    = "240be518fabd2724ddb6f04eeb1da5967448d7e831c08c8fa822809f74c720a9"%string /\
  hash_password "user123"
    = "e606e38b0d8c19b24cf0ee3808183162ea7cd63ff7912dbb22b5e803286b4446"%string.
Proof. repeat split; vm_compute; reflexivity. Qed.

Lemma lookup_store_same {V} (d : PyStr.dict V) k v :
  PyStr.lookup (PyStr.store d k v) k = Some v.
Proof.
  induction d as [|[k' v'] d IH]; simpl.
  - now rewrite String.eqb_refl.
  - destruct (String.eqb k' k) eqn:E; simpl.
    + now rewrite String.eqb_refl.
    + now rewrite E.
Qed.

Lemma lookup_store_other {V} (d : PyStr.dict V) k k' v :
  k <> k' -> PyStr.lookup (PyStr.store d k v) k' = PyStr.lookup d k'.
Proof.
  intros Hne. induction d as [|[k0 v0] d IH]; simpl.
  - destruct (String.eqb_spec k k'); [contradiction | reflexivity].
  - destruct (String.eqb_spec k0 k) as [->|Hk]; simpl.
    + destruct (String.eqb_spec k k'); [contradiction | reflexivity].
    + now rewrite IH.
Qed.

Lemma store_new {V} (d : PyStr.dict V) k v :
  PyStr.lookup d k = None -> PyStr.store d k v = d ++ [(k, v)].
Proof.
  induction d as [|[k' v'] d IH]; simpl; [reflexivity|].
  destruct (String.eqb k' k); [discriminate|]. intros H. now rewrite IH.
Qed.

Lemma lookup_In {V} (d : PyStr.dict V) k v :
  PyStr.lookup d k = Some v -> In (k, v) d.
Proof.
  induction d as [|[k' v'] d IH]; simpl; [discriminate|].
  destruct (String.eqb_spec k' k) as [->|Hk].
  - intros [= ->]. now left.
  - intros H. right. now apply IH.
Qed.

Lemma truthy_iff s : PyStr.truthy s = true <-> s <> EmptyString.
Proof. destruct s; simpl; split; congruence. Qed.

Lemma len_nonneg s : 0 <= PyStr.len s.
Proof.
  induction s as [|c s IH]; simpl; [lia|].
  destruct ((128 <=? Z.of_nat (nat_of_ascii c)) && (Z.of_nat (nat_of_ascii c) <? 192)); lia.
Qed.

Lemma len_truthy s : 0 < PyStr.len s -> PyStr.truthy s = true.
Proof. destruct s; simpl; [lia | reflexivity]. Qed.

(** No interaction changes or removes a credential. *)
Lemma interact_keeps_credentials i s user stored :
  PyStr.lookup (users s) user = Some stored ->
  PyStr.lookup (users (interact i s)) user = Some stored.
Proof.
  intros H. destruct i as [u p|u p c|a]; simpl.
  - destruct (authenticated s); [exact H|]. unfold click_login.
    destruct (PyStr.truthy u && PyStr.truthy p); [|exact H].
    destruct (PyStr.lookup (users s) u) as [st|]; [|exact H].
    destruct (String.eqb st (hash_password p)); exact H.
  - destruct (authenticated s); [exact H|]. unfold click_sign_up.
    destruct (PyStr.truthy u && PyStr.truthy p && PyStr.truthy c); [|exact H].
    destruct (negb (String.eqb p c)); [exact H|].
    destruct (PyStr.lookup (users s) u) as [st|] eqn:Eu; [exact H|].
    destruct (PyStr.len p <? 6); [exact H|]. simpl.
    rewrite lookup_store_other; [exact H | congruence].
  - destruct a; simpl; try (destruct (authenticated s); exact H); exact H.
Qed.

Lemma interact_all_keeps_credentials l : forall s user stored,
  PyStr.lookup (users s) user = Some stored ->
  PyStr.lookup (users (interact_all l s)) user = Some stored.
Proof.
  induction l as [|i l IH]; intros s user stored H; [exact H|].
  simpl. apply IH. now apply interact_keeps_credentials.
Qed.

Lemma click_login_accepted user password s :
  user <> EmptyString -> password <> EmptyString ->
  PyStr.lookup (users s) user = Some (hash_password password) ->
  click_login user password s =
    (mkSession true (Some user) (users s) (domain s), [PgRerun]).
Proof.
  intros Hu Hp Hl. unfold click_login.
  apply truthy_iff in Hu. apply truthy_iff in Hp. rewrite Hu, Hp, Hl. simpl.
  now rewrite String.eqb_refl.
Qed.

Lemma click_login_state user password s :
  fst (click_login user password s) = s \/
  (fst (click_login user password s)
     = mkSession true (Some user) (users s) (domain s) /\
   user <> EmptyString /\ password <> EmptyString /\
   PyStr.lookup (users s) user = Some (hash_password password)).
Proof.
  unfold click_login.
  destruct (PyStr.truthy user) eqn:Hu; [|now left].
  destruct (PyStr.truthy password) eqn:Hp; [|now left]. simpl.
  destruct (PyStr.lookup (users s) user) as [stored|] eqn:Hl; [|now left].
  destruct (String.eqb_spec stored (hash_password password)) as [->|Hne];
    [|now left].
  right. apply truthy_iff in Hu. apply truthy_iff in Hp. now repeat split.
Qed.

Lemma click_sign_up_state u p c s :
  fst (click_sign_up u p c s) = s \/
  (fst (click_sign_up u p c s)
     = mkSession (authenticated s) (username s)
         (users s ++ [(u, hash_password p)]) (domain s) /\
   u <> EmptyString /\ p = c /\ 6 <= PyStr.len p /\
   PyStr.lookup (users s) u = None).
Proof.
  unfold click_sign_up.
  destruct (PyStr.truthy u) eqn:Hu; [|now left].
  destruct (PyStr.truthy p); [|now left].
  destruct (PyStr.truthy c); [|now left]. simpl.
  destruct (String.eqb_spec p c) as [->|Hne]; [|now left]. simpl.
  destruct (PyStr.lookup (users s) u) as [stored|] eqn:Hl; [now left|].
  destruct (Z.ltb_spec (PyStr.len c) 6) as [Hlen|Hlen]; [now left|].
  right. simpl. rewrite store_new by assumption.
  apply truthy_iff in Hu. now repeat split.
Qed.

(** ** Signing up and logging in *)

(** X12.  A sign-up under a new name, with a password of at least six
    characters typed twice, registers the name with the hash of the password,
    after the accounts there were, which stay as they are; it reports success
    and logs nobody in. *)
Theorem sign_up_registers_the_account (s : Session) (user password : string) :
  user <> EmptyString -> 6 <= PyStr.len password ->
  PyStr.lookup (users s) user = None ->
  let signed := click_sign_up user password password s in
  snd signed = [PgSuccess "User registered successfully! Please log in."] /\
  users (fst signed) = users s ++ [(user, hash_password password)] /\
  PyStr.lookup (users (fst signed)) user = Some (hash_password password) /\
  (forall other, other <> user ->
     PyStr.lookup (users (fst signed)) other = PyStr.lookup (users s) other) /\
  authenticated (fst signed) = authenticated s /\
  username (fst signed) = username s /\
  domain (fst signed) = domain s.
Proof.
  intros Hu Hlen Hnew signed.
  assert (Hp : PyStr.truthy password = true) by (apply len_truthy; lia).
  assert (E : signed =
              (mkSession (authenticated s) (username s)
                 (PyStr.store (users s) user (hash_password password)) (domain s),
               [PgSuccess "User registered successfully! Please log in."])).
  { unfold signed, click_sign_up. apply truthy_iff in Hu. rewrite Hu, Hp. simpl.
    rewrite String.eqb_refl, Hnew. simpl.
    destruct (Z.ltb_spec (PyStr.len password) 6); [lia | reflexivity]. }
  rewrite E. simpl. split; [reflexivity|]. split; [now apply store_new|].
  split; [apply lookup_store_same|]. split; [|repeat split].
  intros other Ho. apply lookup_store_other. congruence.
Qed.

Lemma sign_up_registers_the_account_witness :
  let s := initial_session (fun _ => None) in
  let signed := click_sign_up "asha" passwort passwort s in
  (String.length passwort = 8%nat /\ PyStr.len passwort = 6) /\
  snd signed = [PgSuccess "User registered successfully! Please log in."] /\
  users (fst signed) = users s ++ [("asha"%string, hash_password passwort)] /\
  PyStr.lookup (users (fst signed)) "asha" = Some (hash_password passwort) /\
  (forall other, other <> "asha"%string ->
     PyStr.lookup (users (fst signed)) other = PyStr.lookup (users s) other) /\
  authenticated (fst signed) = authenticated s /\
  username (fst signed) = username s /\
  domain (fst signed) = domain s.
Proof.
  split; [split; reflexivity|].
  apply (sign_up_registers_the_account (initial_session (fun _ => None))
           "asha" passwort).
  - discriminate.
  - vm_compute. discriminate.
  - reflexivity.
Defined.

(** X13.  A name registered with the hash of a password stays so whatever is
    done next, by anybody: afterwards [Login] with that name and that password
    opens the session under that name, and changes nothing else. *)
Theorem registered_user_can_log_in
  (s : Session) (user password : string) (later : list interaction) :
  user <> EmptyString -> password <> EmptyString ->
  PyStr.lookup (users s) user = Some (hash_password password) ->
  let s' := interact_all later s in
  PyStr.lookup (users s') user = Some (hash_password password) /\
  click_login user password s'
    = (mkSession true (Some user) (users s') (domain s'), [PgRerun]).
Proof.
  intros Hu Hp Hl s'.
  assert (Hl' : PyStr.lookup (users s') user = Some (hash_password password))
    by now apply interact_all_keeps_credentials.
  split; [exact Hl' | now apply click_login_accepted].
Qed.

Lemma registered_user_can_log_in_witness :
  let s := initial_session (fun _ => None) in
  let later := [ISignUp "admin" "secret1" "secret1"; ILogin "user" "user123";
                IApp (ACart (Plus 1)); IApp ALogout] in
  let s' := interact_all later s in
  (authenticated s' = false /\ username s' = Some "user"%string) /\
  PyStr.lookup (users s') "admin" = Some (hash_password "admin123") /\
  click_login "admin" "admin123" s'
    = (mkSession true (Some "admin"%string) (users s') (domain s'), [PgRerun]).
Proof.
  split; [split; vm_compute; reflexivity|].
  apply (registered_user_can_log_in (initial_session (fun _ => None))
           "admin" "admin123").
  - discriminate.
  - discriminate.
  - reflexivity.
Defined.

(** ** The invariant of the accounts *)

Lemma lookup_None_keys {V} (d : PyStr.dict V) k :
  PyStr.lookup d k = None -> ~ In k (map fst d).
Proof.
  induction d as [|[k' v'] d IH]; simpl; [intros _ []|].
  destruct (String.eqb_spec k' k) as [->|Hk]; [discriminate|].
  intros H [E|Hin]; [congruence | now apply IH].
Qed.

Lemma run_one a s : fst (run [a] s) = fst (step a s).
Proof. now rewrite run_cons. Qed.

Lemma interact_accounts_ok i s : accounts_ok s -> accounts_ok (interact i s).
Proof.
  intros Hs. pose proof Hs as (Hc & Hnd & Hauth & Hr).
  assert (Stepped : forall b, accounts_ok (set_domain (fst (step b (domain s))) s)).
  { intros b. split; [exact Hc|]. split; [exact Hnd|]. split; [exact Hauth|].
    simpl. rewrite <- run_one. now apply reachable_run. }
  destruct i as [u p|u p c|a].
  - simpl. destruct (authenticated s) eqn:Ea; [exact Hs|].
    destruct (click_login_state u p s) as [->|(-> & Hu & Hp & Hl)]; [exact Hs|].
    split; [exact Hc|]. split; [exact Hnd|]. split; [|exact Hr].
    intros _. exists u. simpl. repeat split; [assumption | congruence].
  - simpl. destruct (authenticated s) eqn:Ea; [exact Hs|].
    destruct (click_sign_up_state u p c s) as [->|(-> & Hu & Hpc & Hlen & Hl)];
      [exact Hs|].
    unfold accounts_ok. simpl. split; [|split; [|split; [|exact Hr]]].
    + apply Forall_app. split; [exact Hc|]. constructor; [|constructor].
      split; [exact Hu|]. exists p. split; [reflexivity | exact Hlen].
    + rewrite map_app. simpl. apply NoDup_snoc; [exact Hnd|].
      now apply lookup_None_keys.
    + intros E. congruence.
  - destruct a; cbn [interact]; try apply Stepped;
      try (destruct (authenticated s) eqn:Ea; [apply Stepped | exact Hs]).
    destruct (authenticated s) eqn:Ea; [|exact Hs].
    split; [exact Hc|]. split; [exact Hnd|]. split; [intros E; discriminate E|].
    cbn [domain]. rewrite <- run_one. now apply reachable_run.
Qed.

Lemma interact_all_accounts_ok l : forall s,
  accounts_ok s -> accounts_ok (interact_all l s).
Proof.
  induction l as [|i l IH]; intros s H; [exact H|].
  simpl. apply IH. now apply interact_accounts_ok.
Qed.

Lemma initial_accounts_ok images : accounts_ok (initial_session images).
Proof.
  split; [|split; [|split]].
  - repeat constructor; try discriminate.
    + exists "admin123"%string. split; [reflexivity | vm_compute; discriminate].
    + exists "user123"%string. split; [reflexivity | vm_compute; discriminate].
  - simpl. repeat constructor; simpl; intuition discriminate.
  - discriminate.
  - exists images, []. reflexivity.
Qed.

(** X14.  In every session, whatever was done on the login page and on the
    panels: the two accounts of the demo are there with the hashes of their
    published passwords; no name is registered twice; every name registered is
    not blank and goes with the hash of a password of six characters or more;
    whoever is logged in bears a registered name; and the menu, the ledger and
    the cart are in a state that interactions with the panels lead to. *)
Theorem accounts_invariant (images : Z -> option string) (l : list interaction) :
  let s := interact_all l (initial_session images) in
  PyStr.lookup (users s) "admin"
    = Some "240be518fabd2724ddb6f04eeb1da5967448d7e831c08c8fa822809f74c720a9"%string /\
  PyStr.lookup (users s) "user"
    = Some "e606e38b0d8c19b24cf0ee3808183162ea7cd63ff7912dbb22b5e803286b4446"%string /\
  NoDup (map fst (users s)) /\
  Forall credential_ok (users s) /\
  (authenticated s = true ->
     exists user, username s = Some user /\ user <> EmptyString /\
                  PyStr.lookup (users s) user <> None) /\
  reachable (domain s).
Proof.
  intros s.
  destruct (interact_all_accounts_ok l _ (initial_accounts_ok images))
    as (Hc & Hnd & Hauth & Hr).
  split; [|split; [|repeat split; assumption]].
  - apply interact_all_keeps_credentials. vm_compute. reflexivity.
  - apply interact_all_keeps_credentials. vm_compute. reflexivity.
Qed.

Lemma accounts_invariant_witness :
  let s := interact_all [ISignUp "asha" "secret" "secret"; ILogin "asha" "secret";
                         IApp (ACart (Plus 1))]
             (initial_session (fun _ => None)) in
  (authenticated s = true /\ map fst (users s) = ["admin"; "user"; "asha"]%string) /\
  exists user, username s = Some user /\ user <> EmptyString /\
               PyStr.lookup (users s) user <> None.
Proof.
  split; [split; vm_compute; reflexivity|].
  destruct (accounts_invariant (fun _ => None)
              [ISignUp "asha" "secret" "secret"; ILogin "asha" "secret";
               IApp (ACart (Plus 1))]) as (_ & _ & _ & _ & H & _).
  apply H. vm_compute. reflexivity.
Defined.

(** ** The category filter *)

Lemma ascii_compare_lt_trans a b c :
  Ascii.compare a b = Lt -> Ascii.compare b c = Lt -> Ascii.compare a c = Lt.
Proof.
  unfold Ascii.compare. rewrite !N.compare_lt_iff. apply N.lt_trans.
Qed.

Lemma str_compare_lt_trans a : forall b c,
  String.compare a b = Lt -> String.compare b c = Lt -> String.compare a c = Lt.
Proof.
  induction a as [|x a IH]; intros [|y b] [|z c]; simpl; try congruence.
  destruct (Ascii.compare x y) eqn:Exy; try discriminate;
    destruct (Ascii.compare y z) eqn:Eyz; try discriminate; intros H1 H2.
  - apply Ascii.compare_eq_iff in Exy, Eyz. subst.
    assert (E : Ascii.compare z z = Eq) by (unfold Ascii.compare; apply N.compare_refl).
    rewrite E. now apply IH with b.
  - apply Ascii.compare_eq_iff in Exy. subst. now rewrite Eyz.
  - apply Ascii.compare_eq_iff in Eyz. subst. now rewrite Exy.
  - now rewrite (ascii_compare_lt_trans _ _ _ Exy Eyz).
Qed.

Lemma str_compare_gt_lt a b : String.compare a b = Gt -> String.compare b a = Lt.
Proof. intros H. rewrite String.compare_antisym, H. reflexivity. Qed.

Lemma insert_str_In x l y : In y (PySeq.insert_str x l) <-> y = x \/ In y l.
Proof.
  induction l as [|z l IH]; simpl; [intuition|].
  destruct (String.compare x z) eqn:E; simpl.
  - apply String.compare_eq_iff in E. subst. intuition.
  - intuition.
  - rewrite IH. intuition.
Qed.

Lemma insert_str_sorted x l :
  StronglySorted str_lt l -> StronglySorted str_lt (PySeq.insert_str x l).
Proof.
  induction 1 as [|z l Hs IH Hall]; simpl; [repeat constructor|].
  destruct (String.compare x z) eqn:E.
  - now constructor.
  - constructor; [now constructor|]. constructor; [exact E|].
    rewrite Forall_forall in *. intros y Hy.
    eapply str_compare_lt_trans; [exact E | now apply Hall].
  - constructor; [exact IH|]. rewrite Forall_forall in *. intros y Hy.
    apply insert_str_In in Hy. destruct Hy as [->|Hy]; [|now apply Hall].
    now apply str_compare_gt_lt.
Qed.

Lemma sorted_set_In l y : In y (PySeq.sorted_set l) <-> In y l.
Proof.
  induction l as [|x l IH]; simpl; [reflexivity|].
  rewrite insert_str_In, IH. intuition.
Qed.

Lemma sorted_set_sorted l : StronglySorted str_lt (PySeq.sorted_set l).
Proof.
  induction l as [|x l IH]; simpl; [constructor | now apply insert_str_sorted].
Qed.

Lemma str_lt_irrefl a : ~ str_lt a a.
Proof.
  unfold str_lt. intros H.
  assert (E : String.compare a a = CompOpp (String.compare a a))
    by apply String.compare_antisym.
  rewrite H in E. discriminate.
Qed.

(** A strictly increasing list is determined by its elements. *)
Lemma sorted_unique l1 : forall l2,
  StronglySorted str_lt l1 -> StronglySorted str_lt l2 ->
  (forall y, In y l1 <-> In y l2) -> l1 = l2.
Proof.
  induction l1 as [|x l1 IH]; intros [|z l2] H1 H2 Hin.
  - reflexivity.
  - exfalso. apply (proj2 (Hin z)). now left.
  - exfalso. apply (proj1 (Hin x)). now left.
  - inversion H1 as [|? ? Hs1 Ha1]; inversion H2 as [|? ? Hs2 Ha2]; subst.
    rewrite Forall_forall in Ha1, Ha2.
    assert (E : x = z).
    { destruct (proj1 (Hin x) (or_introl eq_refl)) as [E|Hx]; [now symmetry|].
      destruct (proj2 (Hin z) (or_introl eq_refl)) as [E|Hz]; [assumption|].
      exfalso. apply (str_lt_irrefl x).
      eapply str_compare_lt_trans; [apply Ha1, Hz | apply Ha2, Hx]. }
    subst z. f_equal. apply IH; try assumption.
    intros y. split; intros Hy.
    + destruct (proj1 (Hin y) (or_intror Hy)) as [<-|H]; [|exact H].
      exfalso. apply (str_lt_irrefl x). now apply Ha1.
    + destruct (proj2 (Hin y) (or_intror Hy)) as [<-|H]; [|exact H].
      exfalso. apply (str_lt_irrefl x). now apply Ha2.
Qed.

(** X15.  The options of the category filter are [All], then the categories of
    the dishes on the menu, each once, in increasing order, whatever the order
    of the menu; [All] shows the whole menu, and a category taken from the
    list shows the dishes of that category, at least one, in menu order. Every
    dish is shown under its own category. *)
Theorem category_filter_options (h : heap_t) (menu : list ref) :
  (exists cs,
     categories h menu = "All"%string :: cs /\
     StronglySorted str_lt cs /\
     forall c, In c cs <-> exists item, In item menu /\ category (deref h item) = c) /\
  (forall menu', Permutation menu menu' -> categories h menu' = categories h menu) /\
  filtered_items h menu "All" = menu /\
  (forall c, In c (categories h menu) -> c <> "All"%string ->
     filtered_items h menu c <> [] /\
     filtered_items h menu c
       = filter (fun item => String.eqb (category (deref h item)) c) menu) /\
  (forall item, In item menu ->
     In item (filtered_items h menu (category (deref h item)))).
Proof.
  assert (Hin : forall m c,
            In c (PySeq.sorted_set (map (fun item => category (deref h item)) m)) <->
            exists item, In item m /\ category (deref h item) = c).
  { intros m c. rewrite sorted_set_In, in_map_iff.
    split; intros [item [H1 H2]]; exists item; split; assumption. }
  split; [|split; [|split; [|split]]].
  - eexists. split; [reflexivity|]. split; [apply sorted_set_sorted | apply Hin].
  - intros menu' Hp. unfold categories. f_equal.
    apply sorted_unique; try apply sorted_set_sorted.
    intros c. rewrite !Hin. split; intros [item [H1 H2]]; exists item;
      (split; [|assumption]).
    + now apply (Permutation_in _ (Permutation_sym Hp)).
    + now apply (Permutation_in _ Hp).
  - reflexivity.
  - intros c Hc Hne. unfold filtered_items.
    destruct (String.eqb_spec c "All") as [E|_]; [contradiction|]. simpl.
    split; [|reflexivity].
    destruct Hc as [E|Hc]; [congruence|].
    apply Hin in Hc. destruct Hc as [item [H1 H2]].
    intros Hnil.
    assert (Hf : In item
                   (filter (fun item => String.eqb (category (deref h item)) c) menu))
      by (apply filter_In; split; [assumption | now apply String.eqb_eq]).
    rewrite Hnil in Hf. destruct Hf.
  - intros item Hitem. unfold filtered_items.
    destruct (negb (String.eqb (category (deref h item)) "All")); [|assumption].
    apply filter_In. split; [assumption | apply String.eqb_refl].
Qed.

Lemma category_filter_options_witness :
  let h := heap fresh_session in
  let menu := menu_items fresh_session in
  categories h menu
    = ["All"; "Beverage"; "Dessert"; "Main Course"; "Side Dish"]%string /\
  map (fun item => name (deref h item)) (filtered_items h menu "Side Dish")
    = ["Fries"; "Salad"]%string /\
  filtered_items h menu "Side Dish" <> [] /\
  filtered_items h menu "Side Dish"
    = filter (fun item => String.eqb (category (deref h item)) "Side Dish") menu.
Proof.
  split; [vm_compute; reflexivity|]. split; [vm_compute; reflexivity|].
  destruct (category_filter_options (heap fresh_session) (menu_items fresh_session))
    as (_ & _ & _ & H & _).
  apply H; [vm_compute; tauto | discriminate].
Defined.

(** ** The pages of the menu *)

Lemma page_items_chunk {A} (l : list A) (p : nat) :
  page_items l (Z.of_nat p) = firstn 6 (skipn (6 * p) l).
Proof.
  unfold page_items, PySeq.slice, PySeq.slice_bound, items_per_page.
  set (n := List.length l).
  destruct (Z.ltb_spec (Z.of_nat p * 6) 0) as [H|_]; [lia|].
  destruct (Z.ltb_spec (Z.min (Z.of_nat p * 6 + 6) (Z.of_nat n)) 0) as [H|_]; [lia|].
  destruct (Nat.le_gt_cases (6 * p) n) as [Hle|Hgt].
  - replace (Z.to_nat (Z.min (Z.of_nat p * 6) (Z.of_nat n))) with (6 * p)%nat by lia.
    destruct (Nat.le_gt_cases (6 * p + 6) n) as [Hle'|Hgt'].
    + f_equal. lia.
    + replace (Z.to_nat (Z.min (Z.min (Z.of_nat p * 6 + 6) (Z.of_nat n)) (Z.of_nat n)
                         - Z.min (Z.of_nat p * 6) (Z.of_nat n)))
        with (n - 6 * p)%nat by lia.
      rewrite !firstn_all2; [reflexivity | |]; rewrite length_skipn; fold n; lia.
  - replace (Z.to_nat (Z.min (Z.min (Z.of_nat p * 6 + 6) (Z.of_nat n)) (Z.of_nat n)
                       - Z.min (Z.of_nat p * 6) (Z.of_nat n)))
      with 0%nat by lia.
    rewrite (skipn_all2 l (n := 6 * p)) by (fold n; lia). now destruct (skipn _ l).
Qed.

Lemma firstn_plus {A} (l : list A) : forall n m,
  firstn (n + m) l = firstn n l ++ firstn m (skipn n l).
Proof.
  induction l as [|x l IH]; intros [|n] m; simpl; try reflexivity.
  - now rewrite firstn_nil.
  - now rewrite IH.
Qed.

Lemma chunks_concat {A} (l : list A) (m : nat) :
  List.concat (map (fun p => firstn 6 (skipn (6 * p) l)) (seq 0 m)) = firstn (6 * m) l.
Proof.
  induction m as [|m IH]; [reflexivity|].
  rewrite seq_S, map_app, concat_app, IH. cbn [map List.concat].
  rewrite app_nil_r. change (0 + m)%nat with m.
  replace (6 * S m)%nat with (6 * m + 6)%nat by lia.
  now rewrite firstn_plus.
Qed.

Lemma total_pages_bounds n :
  0 < n -> 6 * (total_pages n - 1) < n <= 6 * total_pages n.
Proof.
  intros Hn. unfold total_pages, items_per_page.
  pose proof (Z.div_mod (n - 1) 6 ltac:(lia)).
  pose proof (Z.mod_pos_bound (n - 1) 6 ltac:(lia)). lia.
Qed.

Lemma page_choices_seq n :
  0 <= n -> page_choices n = map Z.of_nat (seq 0 (Nat.max 1 (Z.to_nat (total_pages n)))).
Proof.
  intros Hn. unfold page_choices, PySeq.range.
  destruct (Z.ltb_spec 1 (total_pages n)) as [H|H].
  - replace (Nat.max 1 (Z.to_nat (total_pages n))) with (Z.to_nat (total_pages n)) by lia.
    unfold zseq. rewrite map_map.
    replace (Z.to_nat (total_pages n + 1 - 1)) with (Z.to_nat (total_pages n)) by lia.
    apply map_ext. intros k. lia.
  - replace (Nat.max 1 (Z.to_nat (total_pages n))) with 1%nat by lia. reflexivity.
Qed.

(** X16.  The pages of the menu partition the dishes to show: put end to end,
    in the order of the page selector, they give back the list; a page holds
    at most six dishes, and none is empty unless there is no dish at all, in
    which case [total_pages] is 0 and the one page shown is empty; the dish at
    index [i] is the one at index [i mod 6] of page [i // 6]. *)
Theorem pages_partition_the_dishes {A} (filtered : list A) :
  let n := Z.of_nat (List.length filtered) in
  List.concat (map (page_items filtered) (page_choices n)) = filtered /\
  (forall page, In page (page_choices n) ->
     (List.length (page_items filtered page) <= 6)%nat /\
     (filtered <> [] -> page_items filtered page <> [])) /\
  (filtered = [] ->
     total_pages n = 0 /\ page_choices n = [0] /\ page_items filtered 0 = []) /\
  (filtered <> [] -> 6 * (total_pages n - 1) < n <= 6 * total_pages n) /\
  (forall i, (i < List.length filtered)%nat ->
     In (Z.of_nat (i / 6)) (page_choices n) /\
     nth_error (page_items filtered (Z.of_nat (i / 6))) (i mod 6)
       = nth_error filtered i).
Proof.
  intros n.
  assert (Hn : 0 <= n) by (unfold n; lia).
  assert (Hpos : filtered <> [] -> 0 < n)
    by (unfold n; destruct filtered; [congruence | simpl; lia]).
  pose proof (page_choices_seq n Hn) as Hc.
  set (m := Nat.max 1 (Z.to_nat (total_pages n))) in *.
  assert (Hm : (List.length filtered <= 6 * m)%nat).
  { destruct filtered as [|x l] eqn:E; [simpl; lia|].
    pose proof (total_pages_bounds n ltac:(apply Hpos; congruence)).
    unfold n in *. simpl List.length in *. lia. }
  split; [|split; [|split; [|split]]].
  - rewrite Hc, map_map.
    rewrite (map_ext _ (fun p => firstn 6 (skipn (6 * p) filtered)))
      by (intros p; apply page_items_chunk).
    rewrite chunks_concat. now apply firstn_all2.
  - intros page Hp. rewrite Hc in Hp. apply in_map_iff in Hp.
    destruct Hp as [p [<- Hp]]. apply in_seq in Hp. rewrite page_items_chunk.
    split; [apply firstn_le_length|].
    intros Hne Hnil. specialize (Hpos Hne).
    pose proof (total_pages_bounds n Hpos) as Hb.
    assert (Hlt : (6 * p < List.length filtered)%nat) by (unfold n in *; lia).
    assert (Hlen : List.length (firstn 6 (skipn (6 * p) filtered)) = 0%nat)
      by now rewrite Hnil.
    rewrite length_firstn, length_skipn in Hlen. lia.
  - intros ->. repeat split.
  - intros Hne. apply total_pages_bounds. now apply Hpos.
  - intros i Hi.
    pose proof (Nat.div_mod_eq i 6) as Hdm.
    pose proof (Nat.mod_upper_bound i 6 ltac:(lia)) as Hmod.
    split.
    + rewrite Hc. apply in_map. apply in_seq. lia.
    + rewrite page_items_chunk. rewrite nth_error_firstn.
      destruct (Nat.ltb_spec (i mod 6) 6) as [_|H]; [|lia].
      rewrite nth_error_skipn. f_equal. lia.
Qed.

Lemma pages_partition_the_dishes_witness :
  let dishes := menu_items fresh_session in
  (total_pages 8 = 2 /\ page_choices 8 = [0; 1] /\
   map (page_items dishes) (page_choices 8)
     = [[0; 1; 2; 3; 4; 5]; [6; 7]]%nat) /\
  (forall page, In page (page_choices 8) ->
     (List.length (page_items dishes page) <= 6)%nat /\
     (dishes <> [] -> page_items dishes page <> [])) /\
  6 * (total_pages 8 - 1) < 8 <= 6 * total_pages 8.
Proof.
  split; [repeat split; vm_compute; reflexivity|].
  destruct (pages_partition_the_dishes (menu_items fresh_session))
    as (_ & H2 & _ & H4 & _).
  split; [exact H2|]. apply H4. discriminate.
Defined.

(** ** The PDF report *)

Lemma drawn_app a b : drawn (a ++ b) = drawn a ++ drawn b.
Proof. unfold drawn. apply flat_map_app. Qed.

Lemma page_breaks_app a b : page_breaks (a ++ b) = page_breaks a + page_breaks b.
Proof. unfold page_breaks. rewrite filter_app, length_app. lia. Qed.

Lemma draw_orders_texts h os : forall y,
  map snd (drawn (draw_orders h os y)) = map (pdf_line h) os.
Proof.
  induction os as [|o os IH]; intros y; [reflexivity|].
  simpl. destruct (y - 15 <? 50); simpl; now rewrite IH.
Qed.

(** The loop draws at the heights [60 + 15 k], [k] from 0 to 46. *)
Lemma draw_orders_heights h os : forall y k,
  y = 60 + 15 * k -> 0 <= k <= 46 ->
  Forall (fun d => fst (fst d) = 50 /\ 60 <= snd (fst d) <= 750 /\
                   snd (fst d) mod 15 = 0)
    (drawn (draw_orders h os y)).
Proof.
  induction os as [|o os IH]; intros y k Hy Hk; [constructor|].
  simpl. destruct (Z.ltb_spec (y - 15) 50) as [H|H].
  - simpl. constructor.
    + simpl. split; [reflexivity|]. split; [lia|]. subst y.
      replace (60 + 15 * k) with (60 + k * 15) by lia.
      rewrite Z.mod_add by lia. reflexivity.
    + apply (IH 750 46); lia.
  - constructor.
    + simpl. split; [reflexivity|]. split; [lia|]. subst y.
      replace (60 + 15 * k) with (60 + k * 15) by lia.
      rewrite Z.mod_add by lia. reflexivity.
    + apply (IH (y - 15) (k - 1)); lia.
Qed.

Lemma draw_orders_breaks h os : forall y k,
  y = 60 + 15 * k -> 0 <= k <= 46 ->
  page_breaks (draw_orders h os y) = (Z.of_nat (List.length os) + 46 - k) / 47.
Proof.
  induction os as [|o os IH]; intros y k Hy Hk.
  - change (page_breaks (draw_orders h [] y)) with 0.
    change (Z.of_nat (List.length (@nil OrderHistory))) with 0.
    symmetry. apply Z.div_small. lia.
  - cbn [draw_orders]. destruct (Z.ltb_spec (y - 15) 50) as [H|H].
    + assert (k = 0) by lia. subst k.
      change (DrawString 50 y (pdf_line h o) :: ShowPage :: draw_orders h os 750)
        with ([DrawString 50 y (pdf_line h o); ShowPage] ++ draw_orders h os 750).
      rewrite page_breaks_app, (IH 750 46) by lia.
      change (page_breaks [DrawString 50 y (pdf_line h o); ShowPage]) with 1.
      replace (Z.of_nat (List.length (o :: os)) + 46 - 0)
        with (Z.of_nat (List.length os) + 1 * 47) by (simpl List.length; lia).
      rewrite Z.div_add by lia.
      replace (Z.of_nat (List.length os) + 46 - 46) with (Z.of_nat (List.length os)) by lia.
      lia.
    + change (DrawString 50 y (pdf_line h o) :: draw_orders h os (y - 15))
        with ([DrawString 50 y (pdf_line h o)] ++ draw_orders h os (y - 15)).
      rewrite page_breaks_app, (IH (y - 15) (k - 1)) by lia.
      change (page_breaks [DrawString 50 y (pdf_line h o)]) with 0.
      simpl List.length. rewrite Z.add_0_l. f_equal. lia.
Qed.

(** On every page the strings are drawn one below the other. *)
Lemma draw_orders_pages h os : forall y cur,
  StronglySorted Z.lt cur -> Forall (fun c => y < c) cur ->
  Forall (StronglySorted Z.gt) (page_heights (draw_orders h os y ++ [Save]) cur).
Proof.
  assert (Hrev : forall cur, StronglySorted Z.lt cur -> StronglySorted Z.gt (rev cur)).
  { intros cur H. apply StronglySorted_rev in H.
    eapply StronglySorted_weaken with (P := fun _ => True); [| |exact H].
    - intros a b _ _ Hab. simpl in Hab. lia.
    - rewrite Forall_forall. auto. }
  induction os as [|o os IH]; intros y cur Hs Hy.
  - simpl. constructor; [now apply Hrev | constructor].
  - cbn [draw_orders app page_heights].
    assert (Hs' : StronglySorted Z.lt (y :: cur)) by now constructor.
    destruct (y - 15 <? 50).
    + cbn [app page_heights]. constructor; [now apply Hrev|].
      apply IH; constructor.
    + apply IH; [exact Hs'|]. constructor; [lia|].
      eapply Forall_impl; [|exact Hy]. simpl. intros c Hc. lia.
Qed.

(** X17.  The report draws the title and then one line per order of the ledger,
    in ledger order; every string is drawn at the left margin 50, at a height
    that is a multiple of 15 between 60 and 750, never below the bottom
    margin; on a page no two strings are at the same height, each is below the
    one before; and [showPage] is called after the 45th order and then after
    every 47th. *)
Theorem pdf_report_layout (h : heap_t) (os : list OrderHistory) :
  let ops := export_pdf h os in
  map snd (drawn ops) = report_title :: map (pdf_line h) os /\
  Forall (fun d => fst (fst d) = 50 /\ 60 <= snd (fst d) <= 750 /\
                   snd (fst d) mod 15 = 0) (drawn ops) /\
  page_breaks ops = (Z.of_nat (List.length os) + 2) / 47 /\
  Forall (StronglySorted Z.gt) (page_heights ops []).
Proof.
  intros ops. unfold ops, export_pdf.
  split; [|split; [|split]].
  - rewrite !drawn_app, !map_app, draw_orders_texts. simpl.
    now rewrite app_nil_r.
  - rewrite !drawn_app. apply Forall_app. split; [|apply Forall_app; split].
    + simpl. constructor; [|constructor]. simpl. repeat split; lia.
    + apply (draw_orders_heights h os (750 - 30) 44); lia.
    + constructor.
  - rewrite !page_breaks_app, (draw_orders_breaks h os (750 - 30) 44) by lia.
    change (page_breaks [SetFont "Helvetica-Bold" 16; DrawString 50 750 report_title;
                         SetFont "Helvetica" 10]) with 0.
    change (page_breaks [Save]) with 0.
    replace (Z.of_nat (List.length os) + 46 - 44) with (Z.of_nat (List.length os) + 2)
      by lia.
    lia.
  - cbn [app page_heights]. apply draw_orders_pages.
    + repeat constructor.
    + constructor; [lia | constructor].
Qed.

Lemma pdf_report_layout_witness :
  let s := fst scenario_second in
  let many := List.concat (repeat (orders s) 46) in
  (drawn (export_pdf (heap s) (orders s))
     = [(50, 750, "ByteBite Orders Report"%string);
        (50, 720, pdf_line (heap s) scenario_order);
        (50, 705, pdf_line (heap s) (nth 1 (orders s) scenario_order))] /\
   List.length many = 92%nat) /\
  page_breaks (export_pdf (heap s) many) = 2 /\
  Forall (StronglySorted Z.gt) (page_heights (export_pdf (heap s) many) []).
Proof.
  split; [split; vm_compute; reflexivity|].
  destruct (pdf_report_layout (heap (fst scenario_second))
              (List.concat (repeat (orders (fst scenario_second)) 46)))
    as (_ & _ & H3 & H4).
  split; [rewrite H3; reflexivity | exact H4].
Defined.

(** ** Analytics *)

Lemma name_counts_flat h os : forall c,
  fold_left (fun counts o => fold_left (tally_name h) (items o) counts) os c
    = fold_left (tally_name h) (all_lines os) c.
Proof.
  induction os as [|o os IH]; intros c; [reflexivity|].
  simpl. unfold all_lines in *. simpl. rewrite fold_left_app. apply IH.
Qed.

Lemma count_of_store_same d k v : count_of (PyStr.store d k v) k = v.
Proof. unfold count_of. now rewrite lookup_store_same. Qed.

Lemma count_of_store_other d k k' v :
  k <> k' -> count_of (PyStr.store d k v) k' = count_of d k'.
Proof. intros H. unfold count_of. now rewrite lookup_store_other. Qed.

Lemma tally_name_count h ls nm : forall c,
  count_of (fold_left (tally_name h) ls c) nm =
    count_of c nm
    + fold_right Z.add 0
        (map snd (filter (fun l => String.eqb (name (deref h (fst l))) nm) ls)).
Proof.
  induction ls as [|l ls IH]; intros c; simpl; [lia|].
  rewrite IH. unfold tally_name at 1.
  destruct (String.eqb_spec (name (deref h (fst l))) nm) as [E|E].
  - rewrite E, count_of_store_same. simpl. lia.
  - rewrite count_of_store_other by assumption. lia.
Qed.

Lemma store_keys {V} (d : PyStr.dict V) k v :
  map fst (PyStr.store d k v) =
    if existsb (String.eqb k) (map fst d) then map fst d else map fst d ++ [k].
Proof.
  induction d as [|[k' v'] d IH]; simpl; [reflexivity|].
  rewrite (String.eqb_sym k k').
  destruct (String.eqb_spec k' k) as [->|Hk]; simpl; [reflexivity|].
  rewrite IH. now destruct (existsb (String.eqb k) (map fst d)).
Qed.

Lemma store_keys_NoDup {V} (d : PyStr.dict V) k v :
  NoDup (map fst d) -> NoDup (map fst (PyStr.store d k v)).
Proof.
  intros H. rewrite store_keys.
  destruct (existsb (String.eqb k) (map fst d)) eqn:E; [assumption|].
  apply NoDup_snoc; [assumption|]. intros Hin.
  apply not_true_iff_false in E. apply E. apply existsb_exists.
  exists k. split; [assumption | apply String.eqb_refl].
Qed.

Lemma store_total d k v :
  sum_of (map snd (PyStr.store d k v)) = sum_of (map snd d) - count_of d k + v.
Proof.
  unfold sum_of, count_of.
  induction d as [|[k' v'] d IH]; simpl; [lia|].
  destruct (String.eqb_spec k' k) as [->|Hk]; simpl; [lia|].
  rewrite IH. lia.
Qed.

Lemma tally_name_total h ls : forall c,
  sum_of (map snd (fold_left (tally_name h) ls c))
    = sum_of (map snd c) + sum_of (map snd ls).
Proof.
  induction ls as [|l ls IH]; intros c; simpl; [unfold sum_of; simpl; lia|].
  rewrite IH. unfold tally_name. rewrite store_total. unfold sum_of. simpl. lia.
Qed.

Lemma tally_name_keys_NoDup h ls : forall c,
  NoDup (map fst c) -> NoDup (map fst (fold_left (tally_name h) ls c)).
Proof.
  induction ls as [|l ls IH]; intros c H; simpl; [assumption|].
  apply IH. unfold tally_name. now apply store_keys_NoDup.
Qed.

Lemma teachers_count os :
  teachers os = Z.of_nat (List.length (filter is_teacher os)).
Proof.
  unfold teachers.
  assert (G : forall (l : list OrderHistory) acc,
            fold_left Z.add (map (fun _ => 1) l) acc = acc + Z.of_nat (List.length l)).
  { induction l as [|x l IH]; intros acc; simpl List.length; simpl map;
      simpl fold_left; [lia|]. rewrite IH. lia. }
  rewrite G. lia.
Qed.

Lemma store_In_keys {V} (d : PyStr.dict V) k v k' :
  In k' (map fst (PyStr.store d k v)) <-> k' = k \/ In k' (map fst d).
Proof.
  induction d as [|[k0 v0] d IH]; simpl; [intuition|].
  destruct (String.eqb_spec k0 k) as [->|Hk]; simpl; [intuition|].
  rewrite IH. intuition.
Qed.

Lemma tally_name_In_keys h ls nm : forall c,
  In nm (map fst (fold_left (tally_name h) ls c)) <->
  In nm (map fst c) \/ exists l, In l ls /\ name (deref h (fst l)) = nm.
Proof.
  induction ls as [|l ls IH]; intros c; simpl.
  - split; [now left | intros [H|[l [[] _]]]; exact H].
  - rewrite IH. unfold tally_name at 1. rewrite store_In_keys. split.
    + intros [[->|H]|[l' [H1 H2]]].
      * right. exists l. split; [now left | reflexivity].
      * now left.
      * right. exists l'. split; [now right | assumption].
    + intros [H|[l' [[<-|H1] H2]]].
      * left. now right.
      * left. left. now symmetry.
      * right. exists l'. split; assumption.
Qed.

Lemma filter_split_length {A} (f : A -> bool) (l : list A) :
  (List.length (filter f l) + List.length (filter (fun x => negb (f x)) l)
   = List.length l)%nat.
Proof.
  induction l as [|x l IH]; [reflexivity|]. simpl.
  destruct (f x); simpl; lia.
Qed.

(** X18.  The tally of [show_analytics] holds each dish name ordered once, with
    the quantity ordered under that name over the whole ledger: dishes that
    share a name are counted together. The counts add up to the quantity
    ordered in all. [teachers] counts the orders of teachers and [students]
    the others: together, all the orders. *)
Theorem analytics_counts (h : heap_t) (os : list OrderHistory) :
  let counts := name_counts h os in
  NoDup (map fst counts) /\
  (forall nm, count_of counts nm = ordered_under h os nm) /\
  (forall nm, In nm (map fst counts) <->
     exists l, In l (all_lines os) /\ name (deref h (fst l)) = nm) /\
  sum_of (map snd counts) = sum_of (map snd (all_lines os)) /\
  teachers os = Z.of_nat (List.length (filter is_teacher os)) /\
  students os = Z.of_nat (List.length (filter (fun o => negb (is_teacher o)) os)) /\
  teachers os + students os = Z.of_nat (List.length os).
Proof.
  intros counts.
  assert (E : counts = fold_left (tally_name h) (all_lines os) [])
    by apply name_counts_flat.
  pose proof (filter_split_length is_teacher os) as Hsplit.
  split; [|split; [|split; [|split; [|split; [|split]]]]].
  - rewrite E. apply tally_name_keys_NoDup. constructor.
  - intros nm. rewrite E, tally_name_count. reflexivity.
  - intros nm. rewrite E, tally_name_In_keys. simpl. intuition.
  - rewrite E, tally_name_total. unfold sum_of. simpl. lia.
  - apply teachers_count.
  - unfold students. rewrite teachers_count. lia.
  - unfold students. lia.
Qed.

Lemma analytics_counts_witness :
  let s := fst (run [ACart (Plus 2); ACart (Plus 3);
                     APlaceOrder "Bob" true "03-11-2026 12:05"] coffee_state) in
  let counts := name_counts (heap s) (orders s) in
  counts = [("Coffee", 6); ("Burger", 1); ("Pizza", 1)]%string /\
  (teachers (orders s) = 1 /\ students (orders s) = 1) /\
  NoDup (map fst counts) /\
  (forall nm, count_of counts nm = ordered_under (heap s) (orders s) nm) /\
  sum_of (map snd counts) = sum_of (map snd (all_lines (orders s))).
Proof.
  split; [vm_compute; reflexivity|]. split; [split; vm_compute; reflexivity|].
  destruct (analytics_counts
              (heap (fst (run [ACart (Plus 2); ACart (Plus 3);
                               APlaceOrder "Bob" true "03-11-2026 12:05"] coffee_state)))
              (orders (fst (run [ACart (Plus 2); ACart (Plus 3);
                                 APlaceOrder "Bob" true "03-11-2026 12:05"] coffee_state))))
    as (H1 & H2 & _ & H4 & _).
  repeat split; assumption.
Defined.

(** ** The cart of a session *)

Lemma dict_pop_keys_NoDup {V} (d : Py.dict V) k :
  NoDup (map fst d) -> NoDup (map fst (Py.dict_pop d k)).
Proof.
  unfold Py.dict_pop. induction d as [|[k' v'] d IH]; simpl; intros H; [constructor|].
  inversion H as [|? ? Hnin Hnd]; subst.
  destruct (negb (k' =? k)); simpl; [|now apply IH].
  constructor; [|now apply IH].
  intros Hin. apply Hnin. apply in_map_iff in Hin. destruct Hin as [e [E He]].
  apply filter_In in He. apply in_map_iff. exists e. split; [exact E | apply He].
Qed.

Lemma cart_step_keys c op :
  NoDup (map fst c) -> NoDup (map fst (cart_step c op)).
Proof.
  intros H. destruct op as [fid|fid|]; simpl.
  - now apply dict_set_keys_NoDup.
  - unfold cart_minus. destruct (current_qty c fid =? 0); [exact H|].
    destruct (current_qty c fid >? 1);
      [now apply dict_set_keys_NoDup | now apply dict_pop_keys_NoDup].
  - constructor.
Qed.

Lemma step_cart_keys a s :
  NoDup (map fst (cart s)) -> NoDup (map fst (cart (fst (step a s)))).
Proof.
  intros Hc.
  destruct a as [op|customer teacher now| | |nm pr cat rt image|item|i|]; simpl;
    try exact Hc; try constructor.
  - now apply cart_step_keys.
  - unfold click_place_order. destruct (cart s) as [|entry c] eqn:Ec; simpl;
      [rewrite Ec; exact Hc|].
    destruct customer; simpl; [rewrite Ec; exact Hc|].
    unfold place_order. rewrite Ec.
    destruct (resolve_cart (heap s) (menu_items s) (entry :: c)) as [[|l ls] total];
      simpl; [rewrite Ec; exact Hc | constructor].
  - destruct (show_quick_recommendations_effect s) as [E|[E|E]]; rewrite E;
      exact Hc.
  - unfold add_dish.
    destruct (negb (String.eqb nm EmptyString) && PrimFloat.ltb 0 pr); exact Hc.
  - unfold delete_dish. destruct (existsb (Nat.eqb item) (menu_items s)); exact Hc.
  - unfold delete_order.
    destruct (Nat.ltb i (List.length (orders s))
              && Nat.leb (List.length (orders s) - 10) i); exact Hc.
Qed.

Lemma run_cart_keys acts : forall s,
  NoDup (map fst (cart s)) -> NoDup (map fst (cart (fst (run acts s)))).
Proof.
  induction acts as [|a acts IH]; intros s H; [exact H|].
  rewrite run_cons. simpl fst. apply IH. now apply step_cart_keys.
Qed.

(** X19.  In every state of a session, whatever buttons were used, the cart
    holds each identifier once, with a quantity of one or more; it resolves to
    the entries whose identifier a dish on the menu bears, in cart order, each
    with its quantity, and the total shown is the sum of [price * quantity]
    over these lines, added up from the first. *)
Theorem cart_of_a_session (s : AppState) :
  reachable s ->
  NoDup (map fst (cart s)) /\
  cart_positive (cart s) /\
  cart_snapshot s = flat_map (resolved_line (heap s) (menu_items s)) (cart s) /\
  Forall (fun l => In (fst l) (menu_items s) /\ 0 < snd l /\
                   In (food_id (deref (heap s) (fst l)), snd l) (cart s))
    (cart_snapshot s) /\
  NoDup (map (fun l => food_id (deref (heap s) (fst l))) (cart_snapshot s)) /\
  cart_subtotal s = lines_total (heap s) (cart_snapshot s).
Proof.
  intros Hr. pose proof (reachable_ok s Hr) as (Hcat & Hpos & _).
  assert (Hk : NoDup (map fst (cart s))).
  { destruct Hr as (images & acts & ->). apply run_cart_keys. constructor. }
  destruct (cart_snapshot_lines s) as [Es Et].
  split; [exact Hk|]. split; [exact Hpos|]. split; [exact Es|].
  split; [|split; [|exact Et]].
  - rewrite Forall_forall. intros l Hl. split; [now apply cart_snapshot_refs|].
    rewrite Es in Hl. apply in_flat_map in Hl. destruct Hl as [[fid qty] [Hin Hl]].
    unfold resolved_line in Hl. simpl in Hl.
    destruct (find_item (heap s) (menu_items s) fid) as [r|] eqn:Ef; [|destruct Hl].
    destruct Hl as [<-|[]]. simpl. apply find_item_Some in Ef. destruct Ef as [_ ->].
    split; [|exact Hin]. unfold cart_positive in Hpos. rewrite Forall_forall in Hpos.
    now apply Hpos in Hin.
  - rewrite Es. clear Es Et Hpos. induction (cart s) as [|[fid qty] c IH];
      [constructor|].
    simpl in Hk. inversion Hk as [|? ? Hnin Hnd]; subst.
    simpl. unfold resolved_line at 1. simpl.
    destruct (find_item (heap s) (menu_items s) fid) as [r|] eqn:Ef;
      [|now apply IH].
    simpl. constructor; [|now apply IH].
    apply find_item_Some in Ef. destruct Ef as [_ ->].
    intros Hin. apply Hnin. apply in_map_iff in Hin. destruct Hin as [l [El Hl]].
    apply in_flat_map in Hl. destruct Hl as [[fid' qty'] [Hin' Hl]].
    unfold resolved_line in Hl. simpl in Hl.
    destruct (find_item (heap s) (menu_items s) fid') as [r'|] eqn:Ef'; [|destruct Hl].
    destruct Hl as [<-|[]]. simpl in El.
    apply find_item_Some in Ef'. destruct Ef' as [_ Ef']. rewrite Ef' in El. subst fid'.
    apply (in_map fst) in Hin'. exact Hin'.
Qed.

Lemma cart_of_a_session_witness :
  let s := fst (run [ACart (Plus 2); ACart (Minus 8); ACart (Plus 2)] orphan_ice_cream) in
  (cart s = [(2, 2)] /\ cart_snapshot s = [(1%nat, 2)]) /\
  NoDup (map fst (cart s)) /\
  cart_positive (cart s) /\
  cart_snapshot s = flat_map (resolved_line (heap s) (menu_items s)) (cart s) /\
  Forall (fun l => In (fst l) (menu_items s) /\ 0 < snd l /\
                   In (food_id (deref (heap s) (fst l)), snd l) (cart s))
    (cart_snapshot s) /\
  NoDup (map (fun l => food_id (deref (heap s) (fst l))) (cart_snapshot s)) /\
  cart_subtotal s = lines_total (heap s) (cart_snapshot s).
Proof.
  split; [split; reflexivity|].
  apply (cart_of_a_session
           (fst (run [ACart (Plus 2); ACart (Minus 8); ACart (Plus 2)] orphan_ice_cream))).
  apply reachable_run. eexists. eexists. unfold orphan_ice_cream, fresh_session.
  reflexivity.
Defined.

(** ** Who reaches the panels *)

Lemma interact_panel a s :
  authenticated s = true -> a <> ALogout ->
  interact (IApp a) s = set_domain (fst (step a (domain s))) s.
Proof.
  intros Ha Hn. destruct a; cbn [interact]; try rewrite Ha; try reflexivity.
  congruence.
Qed.

Lemma interact_locked a s :
  authenticated s = false -> a <> ACacheExpire -> interact (IApp a) s = s.
Proof.
  intros Ha Hn. destruct a; cbn [interact]; try rewrite Ha; try reflexivity.
  congruence.
Qed.

(** X20.  While nobody is logged in, no action of the panels changes anything.
    Whoever signs up under a new name, with a password of six characters or
    more, and logs in, has every action of both panels at hand, those of the
    admin included: the action is carried out on the menu, the ledger and the
    cart as for any other user; no name is asked for. *)
Theorem any_account_opens_both_panels
  (s : Session) (user password : string) (a : action) :
  authenticated s = false -> a <> ALogout -> a <> ACacheExpire ->
  user <> EmptyString -> 6 <= PyStr.len password ->
  PyStr.lookup (users s) user = None ->
  let s' := interact_all [ISignUp user password password; ILogin user password;
                          IApp a] s in
  interact (IApp a) s = s /\
  authenticated s' = true /\ username s' = Some user /\
  domain s' = fst (step a (domain s)).
Proof.
  intros Hauth Hl He Hu Hlen Hnew s'.
  split; [now apply interact_locked|].
  assert (Hp : password <> EmptyString).
  { intros ->. simpl in Hlen. lia. }
  assert (E1 : interact (ISignUp user password password) s =
               mkSession false (username s)
                 (PyStr.store (users s) user (hash_password password)) (domain s)).
  { cbn [interact]. rewrite Hauth. unfold click_sign_up.
    apply truthy_iff in Hu. apply truthy_iff in Hp. rewrite Hu, Hp. simpl.
    rewrite String.eqb_refl, Hnew. simpl.
    destruct (Z.ltb_spec (PyStr.len password) 6); [lia|]. simpl. now rewrite Hauth. }
  assert (E2 : interact (ILogin user password)
                 (interact (ISignUp user password password) s) =
               mkSession true (Some user)
                 (PyStr.store (users s) user (hash_password password)) (domain s)).
  { rewrite E1. cbn [interact authenticated].
    rewrite click_login_accepted; [reflexivity | assumption | assumption |].
    simpl. apply lookup_store_same. }
  unfold s', interact_all. cbn [fold_left]. rewrite E2.
  rewrite interact_panel by (try reflexivity; assumption).
  repeat split.
Qed.

Lemma any_account_opens_both_panels_witness :
  let s := initial_session (fun _ => None) in
  let s' := interact_all [ISignUp "asha" "secret" "secret"; ILogin "asha" "secret";
                          IApp (ADeleteDish 0%nat)] s in
  map (fun r => name (deref (heap (domain s')) r)) (menu_items (domain s'))
    = ["Coffee"; "Pizza"; "Pasta"; "Sandwich"; "Fries"; "Salad"; "Ice Cream"]%string /\
  interact (IApp (ADeleteDish 0%nat)) s = s /\
  authenticated s' = true /\ username s' = Some "asha"%string /\
  domain s' = fst (step (ADeleteDish 0%nat) (domain s)).
Proof.
  split; [vm_compute; reflexivity|].
  apply (any_account_opens_both_panels (initial_session (fun _ => None))
           "asha" "secret" (ADeleteDish 0%nat)).
  - reflexivity.
  - discriminate.
  - discriminate.
  - discriminate.
  - vm_compute. discriminate.
  - reflexivity.
Defined.

(** ** The cart summary *)

Lemma summary_fold h menu c : forall total rows,
  fold_left (summary_entry h menu) c (total, rows) =
    (fold_left
       (fun t l =>
          PrimFloat.add t
            (PrimFloat.mul (price (deref h (fst l))) (Py.float_of_int (snd l))))
       (flat_map (resolved_line h menu) c) total,
     rows ++ map (row_of_line h) (flat_map (resolved_line h menu) c)).
Proof.
  induction c as [|[fid qty] c IH]; intros total rows; simpl.
  - now rewrite app_nil_r.
  - unfold resolved_line at 1 3. simpl fst. simpl snd.
    destruct (find_item h menu fid) as [item|]; simpl; [|apply IH].
    rewrite IH. now rewrite <- app_assoc.
Qed.

(** X21.  The cart summary shows a table exactly when some entry of the cart
    resolves; the table has one row per line that [Place Order] would record,
    in the same order, with the dish's name and the quantity; and the total
    shown is the two-decimal rendering of the very total that [Place Order],
    clicked now with a name, records in the order. *)
Theorem cart_summary_shows_what_is_ordered
  (s : AppState) (customer : string) (teacher : bool) (now : string) :
  (display_cart_summary s = None <-> cart_snapshot s = []) /\
  (forall rows text, display_cart_summary s = Some (rows, text) ->
     rows = map (row_of_line (heap s)) (cart_snapshot s) /\
     map (fun r => (row_item r, row_qty r)) rows
       = order_lines (heap s) (cart_snapshot s) /\
     text = ("### Total: " ++ rupee ++ PyFloat.format_2f (cart_subtotal s))%string /\
     (customer <> EmptyString ->
      exists o,
        orders (fst (click_place_order customer teacher now s)) = orders s ++ [o] /\
        map (fun r => (row_item r, row_qty r)) rows = order_lines (heap s) (items o) /\
        text = ("### Total: " ++ rupee ++ PyFloat.format_2f (total_amount o))%string)).
Proof.
  assert (E : display_cart_summary s =
              match map (row_of_line (heap s)) (cart_snapshot s) with
              | [] => None
              | _ :: _ =>
                  Some (map (row_of_line (heap s)) (cart_snapshot s),
                        ("### Total: " ++ rupee
                           ++ PyFloat.format_2f (cart_subtotal s))%string)
              end).
  { unfold display_cart_summary. rewrite summary_fold.
    destruct (cart_snapshot_lines s) as [-> ->]. unfold lines_total.
    destruct (cart_snapshot_lines s) as [<- _]. simpl. reflexivity. }
  split.
  - rewrite E. destruct (cart_snapshot s); simpl; split; congruence.
  - intros rows text H. rewrite E in H.
    assert (Hne : cart_snapshot s <> [])
      by (intros En; rewrite En in H; discriminate).
    assert (Hrt : rows = map (row_of_line (heap s)) (cart_snapshot s) /\
                  text = ("### Total: " ++ rupee
                            ++ PyFloat.format_2f (cart_subtotal s))%string).
    { destruct (map (row_of_line (heap s)) (cart_snapshot s)); [discriminate|].
      injection H as <- <-. split; reflexivity. }
    destruct Hrt as [-> ->].
    assert (Hlines : map (fun r => (row_item r, row_qty r))
                       (map (row_of_line (heap s)) (cart_snapshot s))
                     = order_lines (heap s) (cart_snapshot s)).
    { unfold order_lines. rewrite map_map. reflexivity. }
    split; [reflexivity|]. split; [exact Hlines|]. split; [reflexivity|].
    intros Hc.
    rewrite click_place_order_accepted by assumption.
    rewrite place_order_nonempty by assumption. simpl.
    eexists. split; [reflexivity|]. simpl. split; [exact Hlines | reflexivity].
Qed.

Lemma cart_summary_shows_what_is_ordered_witness :
  let s := scenario_cart in
  exists rows text,
    display_cart_summary s = Some (rows, text) /\
    map (fun r => (row_item r, row_qty r, row_total r)) rows
      = [("Burger", 2, rupee ++ "140.46"); ("Coffee", 1, rupee ++ "70.20")]%string /\
    text = ("### Total: " ++ rupee ++ "210.66")%string /\
    exists o,
      orders (fst (click_place_order "Alice" false "03-11-2026 12:00" s))
        = orders s ++ [o] /\
      map (fun r => (row_item r, row_qty r)) rows = order_lines (heap s) (items o) /\
      text = ("### Total: " ++ rupee ++ PyFloat.format_2f (total_amount o))%string.
Proof.
  eexists. eexists. split; [vm_compute; reflexivity|].
  split; [vm_compute; reflexivity|]. split; [vm_compute; reflexivity|].
  destruct (cart_summary_shows_what_is_ordered scenario_cart "Alice" false
              "03-11-2026 12:00") as [_ H].
  edestruct H as (_ & _ & _ & Ho); [vm_compute; reflexivity|].
  apply Ho. discriminate.
Defined.
